(** * ClinicalTrials.gov MCP server: session gateway, launcher, shutdown and tools

    A shallow embedding of
    - [src/mcp-server/transports/http/httpTransport.ts] (module [Http]),
    - [src/index.ts] (module [Index]),
    - [src/tools/clinicaltrials-get-study.tool.ts] (module [GetStudy]),
    - [src/tools/clinicaltrials-find-eligible-studies.tool.ts]
      (module [FindEligible]),
    together with the properties the specification states about them. *)

From Stdlib Require Import ZArith Lia.
From stdpp Require Import gmap strings list fin_maps pretty sorting.

Set Warnings "-register-all".

Local Open Scope string_scope.
Local Open Scope list_scope.
Local Open Scope Z_scope.

(** ** JavaScript values as far as the gateway looks at them *)

Module Js.

(** The result of [JSON.parse]; number literals are kept as integers. *)
Inductive json : Type :=
| JNull
| JBool (b : bool)
| JNum (n : Z)
| JStr (s : string)
| JArr (items : list json)
| JObj (fields : list (string * json)).

(** A value of type [unknown]: [undefined] or a parsed JSON document. *)
Inductive unknown : Type :=
| Undefined
| Parsed (j : json).

(** [if (s)] on a [string | undefined]. *)
Definition truthy_str (s : option string) : bool :=
  match s with
  | None => false
  | Some v => negb (String.eqb v "")
  end.

(** The string inside the branch [if (s) { ... }], when it is taken. *)
Definition whenTruthy (s : option string) : option string :=
  if truthy_str s then s else None.

(** [if (v)] on a JSON value. *)
Definition truthy_json (j : json) : bool :=
  match j with
  | JNull => false
  | JBool b => b
  | JNum n => negb (n =? 0)%Z
  | JStr s => negb (String.eqb s "")
  | JArr _ => true
  | JObj _ => true
  end.

Definition truthy (v : unknown) : bool :=
  match v with
  | Undefined => false
  | Parsed j => truthy_json j
  end.

(** [Array.prototype.includes] on an array of strings. *)
Definition includes (l : list string) (x : string) : bool :=
  existsb (String.eqb x) l.

End Js.

(** ** The HTTP gateway: [httpTransport.ts] *)

Module Http.
Import Js.

(** *** Data model *)

(** [SessionIdentity]: the claims bound to a session. *)
Record SessionIdentity : Type := mkIdentity {
  tenantId : option string;
  clientId : option string;
  subject : option string
}.

#[global] Instance SessionIdentity_eq_dec : EqDecision SessionIdentity.
Proof. solve_decision. Defined.

(** [AuthInfo] as far as [extractSessionIdentity] reads it. *)
Record AuthInfo : Type := mkAuthInfo {
  authTenantId : option string;
  authClientId : option string;
  authSubject : option string
}.

Definition extractSessionIdentity (authInfo : option AuthInfo)
  : option SessionIdentity :=
  match authInfo with
  | None => None
  | Some a =>
      let identity :=
        {| tenantId := whenTruthy (authTenantId a);
           clientId := whenTruthy (authClientId a);
           subject := whenTruthy (authSubject a) |} in
      match tenantId identity, clientId identity, subject identity with
      | None, None, None => None
      | _, _, _ => Some identity
      end
  end.

(** Modelled from the spec: the session record of [sessionStore.ts], which is
    not among the sources ("Session", section 3 of the specification). *)
Record Session : Type := mkSession {
  identity : option SessionIdentity;
  createdAt : Z;
  lastAccessedAt : Z
}.

(** Modelled from the spec: the [SessionStore] class of [sessionStore.ts], an
    in-memory registry from session ids to session records with a staleness
    bound (section 4.2). *)
Record SessionStore : Type := mkStore {
  staleTimeoutMs : Z;
  sessions : gmap string Session
}.

(** Modelled from the spec: "a record is stale when
    [now - lastAccessedAt > staleTimeoutMs]". *)
Definition isStale (store : SessionStore) (now : Z) (s : Session) : bool :=
  now - lastAccessedAt s >? staleTimeoutMs store.

(** Modelled from the spec: "a record created with no identity matches any
    presented identity; a record created with an identity only matches
    requests presenting the identical identity". *)
Definition identityMatches (bound presented : option SessionIdentity) : bool :=
  match bound with
  | None => true
  | Some b => bool_decide (presented = Some b)
  end.

(** Modelled from the spec: [SessionStore.getOrCreate] of [sessionStore.ts]:
    "if a live record exists, returns it after refreshing [lastAccessedAt];
    otherwise creates a new record with the given identity and current
    timestamp". *)
Definition getOrCreate (sid : string) (ident : option SessionIdentity)
    (now : Z) (store : SessionStore) : SessionStore * Session :=
  let fresh := mkSession ident now now in
  let s :=
    match sessions store !! sid with
    | Some old =>
        if isStale store now old then fresh
        else mkSession (identity old) (createdAt old) now
    | None => fresh
    end in
  (mkStore (staleTimeoutMs store) (<[sid := s]> (sessions store)), s).

(** Modelled from the spec: [SessionStore.isValidForIdentity] of
    [sessionStore.ts]: "returns false if no live record exists, if the record
    is stale (evict it as a side effect), or if the record's bound identity
    differs from the presented identity". *)
Definition isValidForIdentity (sid : string) (ident : option SessionIdentity)
    (now : Z) (store : SessionStore) : SessionStore * bool :=
  match sessions store !! sid with
  | None => (store, false)
  | Some s =>
      if isStale store now s
      then (mkStore (staleTimeoutMs store) (delete sid (sessions store)), false)
      else (store, identityMatches (identity s) ident)
  end.

(** Modelled from the spec: [SessionStore.terminate] of [sessionStore.ts]:
    "removes the record unconditionally; idempotent". *)
Definition terminate (sid : string) (store : SessionStore) : SessionStore :=
  mkStore (staleTimeoutMs store) (delete sid (sessions store)).

(** How a [StreamableHTTPServerTransport] was constructed: without session
    callbacks ([createStatelessTransport]) or with [onsessioninitialized] and
    [onsessionclosed] closing over the caller's identity
    ([createStatefulTransport]). *)
Inductive TransportKind : Type :=
| StatelessTransport
| StatefulTransport (ident : option SessionIdentity).

Record Transport : Type := mkTransport {
  kind : TransportKind;
  connected : bool;     (* [mcpServer.connect(transport)] was called *)
  closeCalled : bool    (* [transport.close()] was called *)
}.

(** The calls the gateway makes on the session store, newest first. *)
Inductive StoreCall : Type :=
| CallIsValidForIdentity (sid : string) (ident : option SessionIdentity)
| CallGetOrCreate (sid : string) (ident : option SessionIdentity)
| CallTerminate (sid : string).

(** The configuration fields the gateway reads. *)
Record Config : Type := mkConfig {
  mcpSessionMode : string;
  mcpStatefulSessionStaleTimeoutMs : Z;
  mcpAllowedOrigins : option (list string)
}.

(** What [createHttpApp] fixes once: the constants its closures capture. *)
Record App : Type := mkApp {
  isStatefulMode : bool;
  allowedOriginsList : option (list string);
  dnsProtectionEnabled : bool
}.

(** The mutable state behind the closures of [createHttpApp]. A transport
    reference is the index of the object in [transports], the list of all
    transports constructed so far. *)
Record AppState : Type := mkState {
  sessionStore : option SessionStore;
  sessionTransports : gmap string nat;
  transports : list Transport;
  storeCalls : list StoreCall;
  clock : Z
}.

Definition createHttpApp (config : Config) : App * AppState :=
  let stateful := String.eqb (mcpSessionMode config) "stateful" in
  let store :=
    if stateful
    then Some (mkStore (mcpStatefulSessionStaleTimeoutMs config) ∅)
    else None in
  let allowed :=
    match mcpAllowedOrigins config with
    | Some (o :: os) => Some (o :: os)
    | _ => None
    end in
  let dns :=
    match allowed with
    | Some (_ :: _) => true
    | _ => false
    end in
  (mkApp stateful allowed dns, mkState store ∅ [] [] 0).

(** *** State updates *)

Definition withStore (store : option SessionStore) (st : AppState) : AppState :=
  mkState store (sessionTransports st) (transports st) (storeCalls st) (clock st).

Definition withSessionTransports (m : gmap string nat) (st : AppState)
  : AppState :=
  mkState (sessionStore st) m (transports st) (storeCalls st) (clock st).

Definition withTransports (ts : list Transport) (st : AppState) : AppState :=
  mkState (sessionStore st) (sessionTransports st) ts (storeCalls st) (clock st).

Definition logCall (c : StoreCall) (st : AppState) : AppState :=
  mkState (sessionStore st) (sessionTransports st) (transports st)
          (c :: storeCalls st) (clock st).

Definition advanceClock (d : Z) (st : AppState) : AppState :=
  mkState (sessionStore st) (sessionTransports st) (transports st)
          (storeCalls st) (clock st + d).

(** [sessionStore.getOrCreate(sessionId, identity)] on the captured store. *)
Definition storeGetOrCreate (sid : string) (ident : option SessionIdentity)
    (st : AppState) : AppState :=
  let st1 := logCall (CallGetOrCreate sid ident) st in
  match sessionStore st1 with
  | Some store =>
      withStore (Some (fst (getOrCreate sid ident (clock st1) store))) st1
  | None => st1
  end.

(** [sessionStore.isValidForIdentity(sessionId, identity)]. *)
Definition storeIsValidForIdentity (sid : string)
    (ident : option SessionIdentity) (st : AppState) : bool * AppState :=
  let st1 := logCall (CallIsValidForIdentity sid ident) st in
  match sessionStore st1 with
  | Some store =>
      let r := isValidForIdentity sid ident (clock st1) store in
      (snd r, withStore (Some (fst r)) st1)
  | None => (false, st1)
  end.

(** [sessionStore.terminate(sessionId)]. *)
Definition storeTerminate (sid : string) (st : AppState) : AppState :=
  let st1 := logCall (CallTerminate sid) st in
  match sessionStore st1 with
  | Some store => withStore (Some (terminate sid store)) st1
  | None => st1
  end.

(** [new StreamableHTTPServerTransport({...})]: a new object, referred to by
    its position in [transports]. *)
Definition newTransport (k : TransportKind) (st : AppState) : nat * AppState :=
  (length (transports st),
   withTransports (transports st ++ [mkTransport k false false]) st).

Definition createStatelessTransport (st : AppState) : nat * AppState :=
  newTransport StatelessTransport st.

(** [createStatefulTransport]: throws when the session store is [null]. *)
Definition createStatefulTransport (ident : option SessionIdentity)
    (st : AppState) : option nat * AppState :=
  match sessionStore st with
  | None => (None, st)
  | Some _ =>
      let r := newTransport (StatefulTransport ident) st in
      (Some (fst r), snd r)
  end.

(** The [onsessioninitialized] closure of the transport [t]. *)
Definition onsessioninitialized (t : nat) (ident : option SessionIdentity)
    (sessionId : string) (st : AppState) : AppState :=
  let st1 :=
    withSessionTransports (<[sessionId := t]> (sessionTransports st)) st in
  storeGetOrCreate sessionId ident st1.

(** The [onsessionclosed] closure. *)
Definition onsessionclosed (sessionId : option string) (st : AppState)
  : AppState :=
  match whenTruthy sessionId with
  | Some sid =>
      let st1 :=
        withSessionTransports (delete sid (sessionTransports st)) st in
      storeTerminate sid st1
  | None => st
  end.

(** *** The origin guard *)

Inductive Guard : Type :=
| Next
| Reject (status : Z) (error : string).

Definition originGuard (app : App) (origin : option string) : Guard :=
  match whenTruthy origin with
  | Some o =>
      if dnsProtectionEnabled app
      then
        let isAllowed :=
          match allowedOriginsList app with
          | None => true
          | Some l => includes l o
          end in
        if negb isAllowed
        then Reject 403 "Invalid origin. DNS rebinding protection."
        else Next
      else Next
  | None => Next
  end.

(** The specification's rule for the guard: the request passes when the
    allow-list [L] is empty or absent, the header [h] is absent, or [h] is a
    member of [L]. *)
Definition specOriginPasses (L : option (list string)) (h : option string)
  : Prop :=
  L = None \/ L = Some [] \/ h = None
  \/ exists o l, h = Some o /\ L = Some l /\ In o l.

(** *** Session resolution *)

Section Gateway.

(** [isInitializeRequest] of the MCP SDK, a predicate on JSON values. *)
Variable isInitializeRequest : json -> bool.

Definition isInitializationPayload (payload : unknown) : bool :=
  match payload with
  | Undefined => false
  | Parsed j =>
      if negb (truthy_json j) then false
      else
        match j with
        | JArr items => existsb isInitializeRequest items
        | _ => isInitializeRequest j
        end
  end.

Inductive Resolution : Type :=
| Response (status : Z) (error : string)
| Resolved (transport : nat) (created : bool)
| Thrown (message : string).

Definition resolveTransportForRequest (app : App) (method : string)
    (providedSessionId : option string)
    (sessionIdentity : option SessionIdentity) (parsedBody : unknown)
    (st : AppState) : Resolution * AppState :=
  if negb (isStatefulMode app) then
    if String.eqb method "DELETE"
    then (Response 405 "Session termination not supported in stateless mode",
          st)
    else
      let r := createStatelessTransport st in
      (Resolved (fst r) true, snd r)
  else
    match sessionStore st with
    | None => (Thrown "Stateful session mode requires a session store.", st)
    | Some _ =>
        match whenTruthy providedSessionId with
        | Some sid =>
            let v := storeIsValidForIdentity sid sessionIdentity st in
            if negb (fst v)
            then (Response 404 "Session not found or expired", snd v)
            else
              match sessionTransports (snd v) !! sid with
              | None => (Response 404 "Session not found or expired", snd v)
              | Some existingTransport =>
                  (Resolved existingTransport false,
                   storeGetOrCreate sid sessionIdentity (snd v))
              end
        | None =>
            if negb (String.eqb method "POST")
            then (Response 400
                    "Mcp-Session-Id header required for this request", st)
            else if negb (isInitializationPayload parsedBody)
            then (Response 400
                    "Initialization request required to create a new MCP session.",
                  st)
            else
              match createStatefulTransport sessionIdentity st with
              | (Some t, st1) => (Resolved t true, st1)
              | (None, st1) =>
                  (Thrown "Session store is not initialized but stateful transport was requested.",
                   st1)
              end
        end
    end.

(** The specification's reading of an initialization payload: "a single
    RPC envelope or any element of a batch envelope that represents the
    initialize method". *)
Definition specInitialization (j : json) : bool :=
  match j with
  | JArr items => existsb isInitializeRequest items
  | _ => isInitializeRequest j
  end.

(** *** Handling one request *)

(** The callbacks the transport engine may invoke while it handles a
    request. *)
Inductive EngineEvent : Type :=
| SessionInitialized (sessionId : string)
| SessionClosed (sessionId : option string).

(** What the engine does with one request: whether [mcpServer.connect]
    throws, which callbacks [transport.handleRequest] invokes, whether it
    throws afterwards. *)
Record Engine : Type := mkEngine {
  connectFails : bool;
  events : list EngineEvent;
  handleRequestFails : bool
}.

(** The engine invokes a callback of transport [t]; a stateless transport
    has none. *)
Definition fire (t : nat) (ev : EngineEvent) (st : AppState) : AppState :=
  match transports st !! t with
  | Some tr =>
      match kind tr with
      | StatefulTransport ident =>
          match ev with
          | SessionInitialized sid => onsessioninitialized t ident sid st
          | SessionClosed sid => onsessionclosed sid st
          end
      | StatelessTransport => st
      end
  | None => st
  end.

Definition markConnected (t : nat) (st : AppState) : AppState :=
  withTransports
    (alter (fun tr => mkTransport (kind tr) true (closeCalled tr)) t
       (transports st)) st.

Definition markCloseCalled (t : nat) (st : AppState) : AppState :=
  withTransports
    (alter (fun tr => mkTransport (kind tr) (connected tr) true) t
       (transports st)) st.

Inductive RpcResult : Type :=
| RpcResponse (status : Z) (error : string)
| RpcAlreadySent      (* 204 with the [x-hono-already-sent] header *)
| RpcThrown.          (* the handler threw; [httpErrorHandler] answers *)

Definition handleRpc (app : App) (method : string)
    (providedSessionId : option string)
    (sessionIdentity : option SessionIdentity) (parsedBody : unknown)
    (engine : Engine) (st : AppState) : RpcResult * AppState :=
  let resolution :=
    resolveTransportForRequest app method providedSessionId sessionIdentity
      parsedBody st in
  match fst resolution with
  | Response status error => (RpcResponse status error, snd resolution)
  | Thrown _ => (RpcThrown, snd resolution)
  | Resolved transport created =>
      (* try *)
      let tried :=
        if created && connectFails engine then (false, snd resolution)
        else
          let st1 :=
            if created then markConnected transport (snd resolution)
            else snd resolution in
          (negb (handleRequestFails engine),
           fold_left (fun s ev => fire transport ev s) (events engine) st1) in
      (* finally *)
      let st2 :=
        if negb (isStatefulMode app)
        then markCloseCalled transport (snd tried)
        else snd tried in
      (if fst tried then RpcAlreadySent else RpcThrown, st2)
  end.

(** [String.prototype.includes]. *)
Fixpoint strIncludes (hay needle : string) : bool :=
  String.prefix needle hay
  || match hay with
     | EmptyString => false
     | String _ rest => strIncludes rest needle
     end.

(** A request on the MCP endpoint path, after the CORS and authentication
    middlewares have let it through. *)
Record Request : Type := mkRequest {
  reqMethod : string;
  originHeader : option string;
  mcpSessionIdHeader : option string;
  acceptHeader : option string;
  jsonBody : option json;        (* [None]: [c.req.json()] throws *)
  authInfo : option AuthInfo
}.

Inductive HttpResult : Type :=
| Status (code : Z) (error : string)
| ServerInfo
| AlreadySent
| ServerError.

(** The middlewares and the handler registered on
    [config.mcpHttpEndpointPath], in registration order. *)
Definition mcpEndpoint (app : App) (req : Request) (engine : Engine)
    (st : AppState) : HttpResult * AppState :=
  match originGuard app (originHeader req) with
  | Reject status error => (Status status error, st)
  | Next =>
      if String.eqb (reqMethod req) "GET"
         && negb (strIncludes (default "" (acceptHeader req))
                    "text/event-stream")
      then (ServerInfo, st)
      else
        let method := reqMethod req in
        let sessionIdentity := extractSessionIdentity (authInfo req) in
        let run parsedBody :=
          let r :=
            handleRpc app method (mcpSessionIdHeader req) sessionIdentity
              parsedBody engine st in
          (match fst r with
           | RpcResponse status error => Status status error
           | RpcAlreadySent => AlreadySent
           | RpcThrown => ServerError
           end, snd r) in
        if String.eqb method "POST" then
          match jsonBody req with
          | None =>
              (Status 400
                 "Invalid JSON payload. Ensure the body is valid JSON.", st)
          | Some j => run (Parsed j)
          end
        else run Undefined
  end.

(** Serving requests one after the other. *)
Definition serve (app : App) (reqs : list (Request * Engine)) (st : AppState)
  : AppState :=
  fold_left (fun s r => snd (mcpEndpoint app (fst r) (snd r) s)) reqs st.

(** *** Interleaved executions

    Requests are handled cooperatively: between two [await]s of one request
    the synchronous parts of others run. Each constructor is one such
    synchronous part. *)
Inductive step (app : App) : AppState -> AppState -> Prop :=
| step_resolve method sid auth body st :
    step app st
      (snd (resolveTransportForRequest app method sid
              (extractSessionIdentity auth) body st))
| step_connect t st :
    step app st (markConnected t st)
| step_fire t ev st :
    step app st (fire t ev st)
| step_close t st :
    isStatefulMode app = false ->
    step app st (markCloseCalled t st)
| step_tick d st :
    0 <= d ->
    step app st (advanceClock d st).

(** The states an application built from [config] can be in. *)
Definition reachable (config : Config) (st : AppState) : Prop :=
  rtc (step (fst (createHttpApp config))) (snd (createHttpApp config)) st.

End Gateway.

(** *** The two registries *)

(** Every record of the session store has a transport registered under its
    id. *)
Definition storeWithinRegistry (st : AppState) : Prop :=
  forall store sid,
    sessionStore st = Some store ->
    is_Some (sessions store !! sid) ->
    is_Some (sessionTransports st !! sid).

(** The specification's invariant: the ids of the transport registry and of
    the session store are the same. *)
Definition registriesAgree (st : AppState) : Prop :=
  forall store sid,
    sessionStore st = Some store ->
    (is_Some (sessionTransports st !! sid) <-> is_Some (sessions store !! sid)).

(** A stateless gateway at rest: no store, no registered transport, and
    every transport constructed so far is a stateless one on which [close]
    was called. *)
Definition statelessAtRest (st : AppState) : Prop :=
  sessionStore st = None
  /\ sessionTransports st = ∅
  /\ storeCalls st = []
  /\ Forall (fun tr => kind tr = StatelessTransport /\ closeCalled tr = true)
       (transports st).

(** While requests are in flight, interleaved in any way, the registry and
    the store of a stateless gateway stay empty. *)
Definition statelessInFlight (st : AppState) : Prop :=
  sessionStore st = None
  /\ sessionTransports st = ∅
  /\ Forall (fun tr => kind tr = StatelessTransport) (transports st).

(** *** The port-bind retry launcher *)

(** What the throwaway listener of [isPortInUse] reports: it listens, it
    emits an error with a code, or [listen] throws (the promise rejects). *)
Inductive ProbeEvent : Type :=
| ProbeListening
| ProbeError (code : string)
| ProbeThrows.

(** The network as the launcher meets it on a given port at a given
    attempt. *)
Record Network : Type := mkNetwork {
  probe : Z -> Z -> ProbeEvent;
  serveThrows : Z -> Z -> bool
}.

(** [isPortInUse]: [None] when the promise rejects. *)
Definition isPortInUse (net : Network) (port attempt : Z) : option bool :=
  match probe net port attempt with
  | ProbeListening => Some false
  | ProbeError code => Some (String.eqb code "EADDRINUSE")
  | ProbeThrows => None
  end.

Inductive BindResult : Type :=
| Bound (port : Z)              (* [resolve(serverInstance)] *)
| Fatal (port attempt : Z)      (* [logger.fatal] and [reject] *)
| Rejected                      (* the [.catch] handler rejects *)
| OutOfFuel.

(** [tryBind], with the ports probed so far (oldest first) as its log. The
    recursion of the source goes through [setTimeout]; here it is bounded
    by [fuel]. *)
Fixpoint tryBind (fuel : nat) (net : Network) (maxRetries : Z)
    (port attempt : Z) : list Z * BindResult :=
  match fuel with
  | O => ([], OutOfFuel)
  | S fuel' =>
      if attempt >? maxRetries + 1 then ([], Fatal port attempt)
      else
        let retry :=
          let r := tryBind fuel' net maxRetries (port + 1) (attempt + 1) in
          (port :: fst r, snd r) in
        match isPortInUse net port attempt with
        | None => ([port], Rejected)
        | Some true => retry
        | Some false =>
            if serveThrows net port attempt then retry
            else ([port], Bound port)
        end
  end.

Definition startHttpServerWithRetry (net : Network) (initialPort : Z)
    (maxRetries : Z) : list Z * BindResult :=
  tryBind (S (Z.to_nat (maxRetries + 1))) net maxRetries initialPort 1.

(** An attempt after which the launcher moves on to the next port: the port
    is in use, or the bind throws. *)
Definition attemptRetries (net : Network) (port attempt : Z) : bool :=
  match isPortInUse net port attempt with
  | Some true => true
  | Some false => serveThrows net port attempt
  | None => false
  end.

(** An attempt that binds. *)
Definition attemptBinds (net : Network) (port attempt : Z) : bool :=
  match isPortInUse net port attempt with
  | Some false => negb (serveThrows net port attempt)
  | _ => false
  end.

(** A port that every probe finds in use, and a port on which a probe
    listens and the bind succeeds. *)
Definition occupied (net : Network) (port : Z) : Prop :=
  forall attempt, isPortInUse net port attempt = Some true.

Definition free (net : Network) (port : Z) : Prop :=
  forall attempt, attemptBinds net port attempt = true.

End Http.

(** ** Graceful shutdown: [index.ts] *)

Module Index.

(** Where the [shutdown] call that proceeded is suspended. *)
Inductive Phase : Type :=
| Idle
| AwaitServerStop
| AwaitTelemetry
| AwaitLoggerClose
| AwaitLoggerCloseInCatch
| Exited (code : Z).

Inductive LogEntry : Type :=
| InfoInitiating (signal : string)
| InfoStoppingTransport
| InfoCompleted
| ErrorCritical.

Record Process : Type := mkProcess {
  isShuttingDown : bool;
  serverIsRunning : bool;          (* [server?.IsRunning] *)
  phase : Phase;
  log : list LogEntry              (* newest first *)
}.

(** Whether each awaited step completes ([true]) or raises. *)
Record Outcomes : Type := mkOutcomes {
  stopOk : bool;
  telemetryOk : bool;
  loggerCloseOk : bool;
  loggerCloseInCatchOk : bool
}.

(** A call of [shutdown(signal)], up to its first [await]. *)
Definition shutdown (signal : string) (p : Process) : Process :=
  if isShuttingDown p then p
  else
    let l := InfoInitiating signal :: log p in
    if serverIsRunning p
    then mkProcess true (serverIsRunning p) AwaitServerStop
           (InfoStoppingTransport :: l)
    else mkProcess true (serverIsRunning p) AwaitTelemetry
           (InfoCompleted :: l).

(** The [catch] clause, up to its [await logger.close()]. *)
Definition catchClause (p : Process) : Process :=
  mkProcess (isShuttingDown p) (serverIsRunning p) AwaitLoggerCloseInCatch
    (ErrorCritical :: log p).

Definition setPhase (ph : Phase) (p : Process) : Process :=
  mkProcess (isShuttingDown p) (serverIsRunning p) ph (log p).

(** The awaited promise settles and the suspended call runs to its next
    [await] or to [process.exit]. *)
Definition resume (o : Outcomes) (p : Process) : Process :=
  match phase p with
  | Idle => p
  | AwaitServerStop =>
      if stopOk o
      then mkProcess (isShuttingDown p) (serverIsRunning p) AwaitTelemetry
             (InfoCompleted :: log p)
      else catchClause p
  | AwaitTelemetry =>
      if telemetryOk o then setPhase AwaitLoggerClose p else catchClause p
  | AwaitLoggerClose =>
      if loggerCloseOk o then setPhase (Exited 0) p else catchClause p
  | AwaitLoggerCloseInCatch => setPhase (Exited 1) p
  | Exited _ => p
  end.

(** What happens to the process: a signal or fault handler calls
    [shutdown], or the pending promise settles. *)
Inductive Event : Type :=
| Signal (name : string)
| Settle.

Definition handle (o : Outcomes) (e : Event) (p : Process) : Process :=
  match e with
  | Signal name =>
      match phase p with
      | Exited _ => p
      | _ => shutdown name p
      end
  | Settle => resume o p
  end.

Definition run (o : Outcomes) (evs : list Event) (p : Process) : Process :=
  fold_left (fun q e => handle o e q) evs p.

Definition started (serverRunning : bool) : Process :=
  mkProcess false serverRunning Idle [].

(** Every step the call runs completes cleanly. *)
Definition allStepsOk (o : Outcomes) (p : Process) : bool :=
  (negb (serverIsRunning p) || stopOk o) && telemetryOk o && loggerCloseOk o.

(** The [shutdown] calls that got past the guard. *)
Definition proceeded (p : Process) : nat :=
  length
    (List.filter
       (fun e => match e with InfoInitiating _ => true | _ => false end)
       (log p)).

(** An upper bound on the [await]s the suspended call still goes through. *)
Definition awaitsLeft (ph : Phase) : nat :=
  match ph with
  | Idle => 5
  | AwaitServerStop => 4
  | AwaitTelemetry => 3
  | AwaitLoggerClose => 2
  | AwaitLoggerCloseInCatch => 1
  | Exited _ => 0
  end.

(** The number of times a pending promise settles in a run. *)
Definition settles (evs : list Event) : nat :=
  length
    (List.filter (fun e => match e with Settle => true | _ => false end) evs).

(** What holds at each point of the call that proceeded. *)
Definition consistent (o : Outcomes) (p : Process) : Prop :=
  match phase p with
  | Idle => isShuttingDown p = false /\ proceeded p = 0%nat
  | AwaitServerStop =>
      isShuttingDown p = true /\ proceeded p = 1%nat
      /\ serverIsRunning p = true
  | AwaitTelemetry =>
      isShuttingDown p = true /\ proceeded p = 1%nat
      /\ negb (serverIsRunning p) || stopOk o = true
  | AwaitLoggerClose =>
      isShuttingDown p = true /\ proceeded p = 1%nat
      /\ (negb (serverIsRunning p) || stopOk o) && telemetryOk o = true
  | AwaitLoggerCloseInCatch =>
      isShuttingDown p = true /\ proceeded p = 1%nat
      /\ allStepsOk o p = false
  | Exited code =>
      isShuttingDown p = true /\ proceeded p = 1%nat
      /\ code = (if allStepsOk o p then 0 else 1)
  end.

End Index.

(** ** Study documents *)

Module Types.

(** The fields of a [Study] (of [services/clinical-trials-gov/types.ts]) that
    the two tools read; every one of them is optional. *)
Record IdentificationModule : Type := mkIdentification {
  nctId : option string;
  officialTitle : option string;
  briefTitle : option string
}.

Record Intervention : Type := mkIntervention {
  interventionName : option string;
  interventionType : option string
}.

Record EligibilityModule : Type := mkEligibility {
  minimumAge : option string;
  maximumAge : option string;
  sex : option string;
  healthyVolunteers : option bool;
  eligibilityCriteria : option string
}.

Record ProtocolSection : Type := mkProtocol {
  identificationModule : option IdentificationModule;
  descriptionBriefSummary : option string;   (* descriptionModule?.briefSummary *)
  statusOverallStatus : option string;       (* statusModule?.overallStatus *)
  conditionsModuleConditions : option (list string);
  armsInterventions : option (list Intervention);
  leadSponsorName : option string;  (* sponsorCollaboratorsModule?.leadSponsor?.name *)
  eligibilityModule : option EligibilityModule
}.

Record Study : Type := mkStudy {
  protocolSection : option ProtocolSection
}.

(** Optional chaining, [a?.f]. *)
Definition optChain {A B : Type} (a : option A) (f : A -> option B)
  : option B :=
  match a with
  | Some v => f v
  | None => None
  end.

Notation "a ?. f" := (optChain a f) (at level 50, left associativity).

(** [a ?? b]. *)
Definition orElse {A : Type} (a : option A) (b : A) : A :=
  match a with
  | Some v => v
  | None => b
  end.

(** The one-character string holding a double quote. *)
Definition doubleQuote : string :=
  String (Ascii.ascii_of_nat 34) EmptyString.

(** [Array.prototype.join] on strings. *)
Fixpoint join (sep : string) (l : list string) : string :=
  match l with
  | [] => ""
  | [x] => x
  | x :: rest => x +:+ sep +:+ join sep rest
  end.

(** [l.slice(0, end)] for an integer [end]. *)
Definition slice0 {A : Type} (l : list A) (end_ : Z) : list A :=
  let len := Z.of_nat (length l) in
  let k := if end_ <? 0 then Z.max (len + end_) 0 else Z.min end_ len in
  take (Z.to_nat k) l.

End Types.

(** ** The [clinicaltrials_get_study] tool *)

Module GetStudy.
Import Types.

Record StudySummary : Type := mkSummary {
  summaryNctId : option string;
  title : option string;
  briefSummary : option string;
  overallStatus : option string;
  conditions : option (list string);
  interventions : option (list Intervention);
  leadSponsor : option string
}.

Definition createStudySummary (study : Study) : StudySummary :=
  let ps := protocolSection study in
  {| summaryNctId := ps ?. identificationModule ?. nctId;
     title := ps ?. identificationModule ?. officialTitle;
     briefSummary := ps ?. descriptionBriefSummary;
     overallStatus := ps ?. statusOverallStatus;
     conditions := ps ?. conditionsModuleConditions;
     interventions :=
       option_map
         (map (fun i => mkIntervention (interventionName i)
                          (interventionType i)))
         (ps ?. armsInterventions);
     leadSponsor := ps ?. leadSponsorName |}.

(** [nctIds] is a single id or an array of ids. *)
Record GetStudyInput : Type := mkInput {
  nctIds : string + list string;
  summaryOnly : bool
}.

(** The schema's bound on [nctIds]: an array has between 1 and 5 ids. *)
Definition schemaValid (input : GetStudyInput) : Prop :=
  match nctIds input with
  | inl _ => True
  | inr ids => (1 <= length ids <= 5)%nat
  end.

(** How one [provider.fetchStudy] call ends. *)
Inductive FetchOutcome : Type :=
| Fetched (study : Study)
| FailedMcp (message : string)       (* throws an [McpError] *)
| FailedOther.                       (* throws anything else *)

Record FetchError : Type := mkError {
  errorNctId : string;
  error : string
}.

Record GetStudyOutput : Type := mkOutput {
  studies : list (Study + StudySummary);
  errors : option (list FetchError)
}.

Inductive ToolResult : Type :=
| Returned (output : GetStudyOutput)
| Raised (message : string) (data : list FetchError).

(** The body of the callback mapped over [nctIds], after its fetch has
    settled: one push on [studies] or on [errors]. *)
Definition settle (summaryOnly : bool)
    (acc : list (Study + StudySummary) * list FetchError)
    (call : string * FetchOutcome)
  : list (Study + StudySummary) * list FetchError :=
  match snd call with
  | Fetched study =>
      (fst acc ++ [if summaryOnly then inr (createStudySummary study)
                   else inl study],
       snd acc)
  | FailedMcp message => (fst acc, snd acc ++ [mkError (fst call) message])
  | FailedOther =>
      (fst acc, snd acc ++ [mkError (fst call) "An unexpected error occurred"])
  end.

(** [runTool]. [fetchStudy i id] is how the [i]-th call, for [id], ends;
    [settleOrder] is the order in which the fetches settle. *)
Definition runTool (fetchStudy : nat -> string -> FetchOutcome)
    (settleOrder : list (string * FetchOutcome) -> list (string * FetchOutcome))
    (input : GetStudyInput) : ToolResult :=
  let ids :=
    match nctIds input with
    | inl id => [id]
    | inr ids => ids
    end in
  let calls := imap (fun i id => (id, fetchStudy i id)) ids in
  let acc := fold_left (settle (summaryOnly input)) (settleOrder calls) ([], []) in
  let studies := fst acc in
  let errors := snd acc in
  if (length studies =? 0)%nat && (0 <? length errors)%nat
  then
    Raised
      ("Failed to fetch any studies. Errors: "
       +:+ join "; " (map (fun e => errorNctId e +:+ ": " +:+ error e) errors))
      errors
  else
    Returned
      {| studies := studies;
         errors := if (0 <? length errors)%nat then Some errors else None |}.

Definition failed (o : FetchOutcome) : bool :=
  match o with
  | Fetched _ => false
  | _ => true
  end.

(** What a call contributes to [studies] and to [errors]. *)
Definition fetchedOf (summaryOnly : bool) (call : string * FetchOutcome)
  : option (Study + StudySummary) :=
  match snd call with
  | Fetched study =>
      Some (if summaryOnly then inr (createStudySummary study) else inl study)
  | _ => None
  end.

Definition errorOf (call : string * FetchOutcome) : option FetchError :=
  match snd call with
  | Fetched _ => None
  | FailedMcp message => Some (mkError (fst call) message)
  | FailedOther => Some (mkError (fst call) "An unexpected error occurred")
  end.

(** The requested ids with the outcome of the fetch of each. *)
Definition callsOf (fetchStudy : nat -> string -> FetchOutcome)
    (input : GetStudyInput) : list (string * FetchOutcome) :=
  imap (fun i id => (id, fetchStudy i id))
    match nctIds input with
    | inl id => [id]
    | inr ids => ids
    end.

End GetStudy.

(** ** The [clinicaltrials_find_eligible_studies] tool *)

Module FindEligible.
Import Types.

Record PatientLocation : Type := mkPatientLocation {
  country : string;
  state : option string;
  city : option string;
  postalCode : option string
}.

Record FindEligibleStudiesInput : Type := mkInput {
  age : Z;
  patientSex : string;
  conditions : list string;
  location : PatientLocation;
  healthyVolunteer : bool;
  maxResults : Z;
  recruitingOnly : bool
}.

(** The bounds of [InputSchema]. *)
Definition schemaValid (input : FindEligibleStudiesInput) : Prop :=
  0 <= age input <= 120
  /\ In (patientSex input) ["All"; "Female"; "Male"]
  /\ (1 <= length (conditions input))%nat
  /\ 1 <= maxResults input <= 50.

(** The result of an eligibility checker. *)
Record Check : Type := mkCheck {
  eligible : bool;
  reason : string
}.

Record EligibilityHighlights : Type := mkHighlights {
  ageRange : string;
  highlightSex : string;
  highlightHealthyVolunteers : option bool;
  criteriaSnippet : option string
}.

Record StudyLocation : Type := mkLocation {
  facility : option string;
  locationCity : option string;
  locationState : option string;
  locationCountry : option string;
  distance : option Z
}.

Record StudyContact : Type := mkContact {
  contactName : option string;
  phone : option string;
  email : option string
}.

Record StudyDetails : Type := mkDetails {
  phase : option (list string);
  status : string;
  enrollmentCount : option Z;
  sponsor : option string
}.

Record EligibleStudy : Type := mkEligible {
  eligibleNctId : string;
  title : string;
  briefSummary : option string;
  matchScore : Z;
  matchReasons : list string;
  eligibilityHighlights : EligibilityHighlights;
  locations : list StudyLocation;
  contact : option StudyContact;
  studyDetails : StudyDetails
}.

(** The helper modules under [mcp-server/tools/utils/] are not among the
    sources; the tool is modelled over their interface. *)
Class Utils : Type := mkUtils {
  checkAgeEligibility : option string -> option string -> Z -> Check;
  checkSexEligibility : option string -> string -> Check;
  checkHealthyVolunteerEligibility : option bool -> bool -> Check;
  calculateMatchScore : list Check -> Z;
  extractRelevantLocations : Study -> PatientLocation -> list StudyLocation;
  extractContactInfo : Study -> option StudyContact;
  extractStudyDetails : Study -> StudyDetails;
  rankStudies : list EligibleStudy -> list EligibleStudy
}.

Section Tool.

Context {utils : Utils}.

(** One iteration of the loop of [filterByEligibility]: [None] when the
    iteration ends in [continue], otherwise the record pushed. *)
Definition eligibleStudy (input : FindEligibleStudiesInput) (study : Study)
  : option EligibleStudy :=
  match protocolSection study ?. eligibilityModule with
  | None => None
  | Some eligibility =>
      let ageCheck :=
        checkAgeEligibility (minimumAge eligibility) (maximumAge eligibility)
          (age input) in
      if negb (eligible ageCheck) then None
      else
        let sexCheck := checkSexEligibility (sex eligibility) (patientSex input) in
        if negb (eligible sexCheck) then None
        else
          let hvCheck :=
            checkHealthyVolunteerEligibility (healthyVolunteers eligibility)
              (healthyVolunteer input) in
          if negb (eligible hvCheck) then None
          else
            let eligibilityChecks := [ageCheck; sexCheck; hvCheck] in
            let matchReasons :=
              [reason ageCheck; reason sexCheck; reason hvCheck] in
            let matchScore := calculateMatchScore eligibilityChecks in
            let ident := protocolSection study ?. identificationModule in
            let nctId := orElse (ident ?. nctId) "Unknown" in
            let title := orElse (ident ?. briefTitle) "No title" in
            let briefSummary :=
              protocolSection study ?. descriptionBriefSummary in
            let locations := extractRelevantLocations study (location input) in
            if (length locations =? 0)%nat then None
            else
              Some
                {| eligibleNctId := nctId;
                   title := title;
                   briefSummary := briefSummary;
                   matchScore := matchScore;
                   matchReasons := matchReasons;
                   eligibilityHighlights :=
                     {| ageRange :=
                          orElse (minimumAge eligibility) "N/A" +:+ " - "
                          +:+ orElse (maximumAge eligibility) "N/A";
                        highlightSex := orElse (sex eligibility) "All";
                        highlightHealthyVolunteers :=
                          healthyVolunteers eligibility;
                        criteriaSnippet :=
                          option_map (String.substring 0 300)
                            (eligibilityCriteria eligibility) |};
                   locations := locations;
                   contact := extractContactInfo study;
                   studyDetails := extractStudyDetails study |}
  end.

Definition filterByEligibility (studies : list Study)
    (input : FindEligibleStudiesInput) : list EligibleStudy :=
  omap (eligibleStudy input) studies.

Record SearchParams : Type := mkParams {
  query : string;
  filter : option string;
  pageSize : Z
}.

Record PagedStudies : Type := mkPaged {
  pagedStudies : option (list Study);
  totalCount : option Z
}.

Record SearchCriteria : Type := mkCriteria {
  criteriaConditions : list string;
  criteriaLocation : string;
  criteriaAgeRange : string
}.

Record FindEligibleStudiesOutput : Type := mkOutput {
  eligibleStudies : list EligibleStudy;
  totalMatches : Z;
  searchCriteria : SearchCriteria
}.

Definition searchParamsOf (input : FindEligibleStudiesInput) : SearchParams :=
  {| query := join " OR " (conditions input);
     filter :=
       if recruitingOnly input
       then Some ("STATUS:Recruiting OR STATUS:" +:+ doubleQuote
                  +:+ "Not yet recruiting" +:+ doubleQuote)
       else None;
     pageSize := 100 |}.

(** [runTool], over the provider's [listStudies]. *)
Definition runTool (listStudies : SearchParams -> PagedStudies)
    (input : FindEligibleStudiesInput) : FindEligibleStudiesOutput :=
  let paged := listStudies (searchParamsOf input) in
  let eligibleStudies :=
    filterByEligibility (orElse (pagedStudies paged) []) input in
  let rankedStudies := rankStudies eligibleStudies in
  let finalStudies := slice0 rankedStudies (maxResults input) in
  {| eligibleStudies := finalStudies;
     totalMatches := Z.of_nat (length eligibleStudies);
     searchCriteria :=
       {| criteriaConditions := conditions input;
          criteriaLocation :=
            orElse (city (location input))
              (orElse (state (location input)) (country (location input)));
          criteriaAgeRange :=
            pretty (age input) +:+ " years old, " +:+ patientSex input |} |}.

(** A study that gets through every [continue] of the loop. *)
Definition passesFilter (input : FindEligibleStudiesInput) (study : Study)
  : bool :=
  match protocolSection study ?. eligibilityModule with
  | None => false
  | Some eligibility =>
      eligible (checkAgeEligibility (minimumAge eligibility)
                  (maximumAge eligibility) (age input))
      && eligible (checkSexEligibility (sex eligibility) (patientSex input))
      && eligible (checkHealthyVolunteerEligibility
                     (healthyVolunteers eligibility) (healthyVolunteer input))
      && negb (length (extractRelevantLocations study (location input)) =? 0)%nat
  end.

End Tool.

End FindEligible.


(** ** Concrete gateways and requests *)

Module Scenarios.
Import Js Http.

(** A stand-in for the SDK's [isInitializeRequest], used where a property is
    run on concrete requests: an object whose first field is
    [method: initialize]. *)
Definition sampleIsInitializeRequest (j : json) : bool :=
  match j with
  | JObj (("method", JStr "initialize") :: _) => true
  | _ => false
  end.

Definition initializeBody : json :=
  JObj [("method", JStr "initialize"); ("id", JNum 1)].

(** A stateful gateway with the session [abc] bound to transport 0 and last
    accessed at time 10, asked at time 25 with a timeout of 100. *)
Definition boundState : AppState :=
  mkState
    (Some (mkStore 100 {[ "abc" := mkSession None 10 10 ]}))
    {[ "abc" := 0%nat ]}
    [mkTransport (StatefulTransport None) true false]
    [] 25.

Definition statefulConfig : Config := mkConfig "stateful" 1000 None.
Definition statelessConfig : Config := mkConfig "stateless" 1000 None.

(** A stateful gateway that has not seen a request yet. *)
Definition freshStateful : AppState := snd (createHttpApp statefulConfig).

(** A session goes stale: a client initializes a session, the engine
    registers it as [s1], more than the stale timeout passes, and a request
    presents [s1] again. *)
Definition staleApp : App := fst (createHttpApp statefulConfig).

Definition stale1 : AppState :=
  snd (resolveTransportForRequest sampleIsInitializeRequest staleApp "POST"
         None (extractSessionIdentity None) (Parsed initializeBody)
         freshStateful).

Definition stale2 : AppState := fire 0 (SessionInitialized "s1") stale1.

Definition stale3 : AppState := advanceClock 2000 stale2.

Definition stale4 : AppState :=
  snd (resolveTransportForRequest sampleIsInitializeRequest staleApp "GET"
         (Some "s1") (extractSessionIdentity None) Undefined stale3).

(** Three requests against a stateless gateway: an initialization whose
    engine signals a session (to no effect: the transport has no callback), a
    stream request during which the engine throws, and a termination. *)
Definition sampleRequests : list (Request * Engine) :=
  [ (mkRequest "POST" None None None (Some initializeBody) None,
     mkEngine false [SessionInitialized "s1"] false);
    (mkRequest "GET" None (Some "s1") (Some "text/event-stream") None None,
     mkEngine false [] true);
    (mkRequest "DELETE" None (Some "s1") None None None,
     mkEngine false [SessionClosed (Some "s1")] false) ].

(** Ports 3000, 3001 and 3002 are taken, every other port is free. *)
Definition busyNetwork : Network :=
  mkNetwork
    (fun port _ =>
       if (3000 <=? port) && (port <=? 3002) then ProbeError "EADDRINUSE"
       else ProbeListening)
    (fun _ _ => false).

(** Two ids are asked for; the first is fetched, the second is unknown to
    the provider; the failure settles first. *)
Definition sampleStudy : Types.Study :=
  Types.mkStudy
    (Some (Types.mkProtocol
             (Some (Types.mkIdentification (Some "NCT00000001") None None))
             None None None None None None)).

Definition sampleFetch (i : nat) (id : string) : GetStudy.FetchOutcome :=
  if String.eqb id "NCT00000001" then GetStudy.Fetched sampleStudy
  else GetStudy.FailedMcp "Study not found".

Definition sampleGetStudyInput : GetStudy.GetStudyInput :=
  GetStudy.mkInput (inr ["NCT00000001"; "NCT00000002"]) true.

(** Ranking by descending match score. *)
Definition byScoreDescending (a b : FindEligible.EligibleStudy) : Prop :=
  FindEligible.matchScore b <= FindEligible.matchScore a.

#[global] Instance byScoreDescending_dec : RelDecision byScoreDescending.
Proof. intros a b. unfold byScoreDescending. apply _. Defined.

(** Helpers for the eligibility tool that accept adults, any sex, and
    studies with at least one listed site, and rank by descending score. *)
Definition sampleUtils : FindEligible.Utils :=
  FindEligible.mkUtils
    (fun _ _ age =>
       FindEligible.mkCheck (18 <=? age) "Age within range")
    (fun _ _ => FindEligible.mkCheck true "Accepts all sexes")
    (fun accepts healthy =>
       FindEligible.mkCheck (negb healthy || Types.orElse accepts false)
         "Volunteer status accepted")
    (fun checks => 100)
    (fun study loc =>
       match Types.optChain (Types.protocolSection study) Types.identificationModule with
       | Some _ =>
           [FindEligible.mkLocation None None None
              (Some (FindEligible.country loc)) None]
       | None => []
       end)
    (fun _ => None)
    (fun _ => FindEligible.mkDetails None "RECRUITING" None None)
    (merge_sort byScoreDescending).

Definition sampleEligibleInput : FindEligible.FindEligibleStudiesInput :=
  FindEligible.mkInput 42 "Female" ["Type 2 Diabetes"]
    (FindEligible.mkPatientLocation "Germany" None None None)
    false 1 true.

(** A provider that knows two studies open to the patient and one without an
    eligibility module. *)
Definition openStudy (id : string) : Types.Study :=
  Types.mkStudy
    (Some (Types.mkProtocol
             (Some (Types.mkIdentification (Some id) None (Some "A study")))
             None None None None None
             (Some (Types.mkEligibility (Some "18 Years") None (Some "ALL")
                      (Some false) None)))).

Definition sampleListStudies (_ : FindEligible.SearchParams)
  : FindEligible.PagedStudies :=
  FindEligible.mkPaged
    (Some [openStudy "NCT00000001"; sampleStudy; openStudy "NCT00000003"])
    (Some 3).

End Scenarios.

(** ** Requests a stateless gateway hands to a transport *)

Module StatelessRequests.
Import Js Http.

(** The requests that get as far as [createStatelessTransport] in stateless
    mode: the origin guard lets the request through, the server-info handler
    does not answer it (it is not a GET, or it accepts an event stream), its
    body parses when it is a POST, and it is not a DELETE. *)
Definition reachesTransport (app : App) (req : Request) : bool :=
  match originGuard app (originHeader req) with
  | Reject _ _ => false
  | Next =>
      negb (String.eqb (reqMethod req) "GET"
            && negb (strIncludes (default "" (acceptHeader req))
                       "text/event-stream"))
      && (if String.eqb (reqMethod req) "POST"
          then match jsonBody req with Some _ => true | None => false end
          else true)
      && negb (String.eqb (reqMethod req) "DELETE")
  end.

(** What the endpoint answers once the transport has been used: the 204
    marker, or, when [connect] or [handleRequest] threw, the error handler's
    answer. *)
Definition answerOf (engine : Engine) : HttpResult :=
  if connectFails engine || handleRequestFails engine
  then ServerError else AlreadySent.

(** The transport a stateless request leaves behind: connected unless
    [connect] threw, and with [close] called. *)
Definition usedTransport (engine : Engine) : Transport :=
  mkTransport StatelessTransport (negb (connectFails engine)) true.

End StatelessRequests.

(** ** Further invariants of the gateway *)

Module GatewayInvariants.
Import Js Http.

(** Every entry of the transport registry refers to a transport that exists
    and was constructed by [createStatefulTransport]. *)
Definition registryWellFormed (st : AppState) : Prop :=
  forall sid t,
    sessionTransports st !! sid = Some t ->
    exists tr ident,
      transports st !! t = Some tr /\ kind tr = StatefulTransport ident.

End GatewayInvariants.

(** ** The transport configuration: [buildTransportConfig] of [index.ts] *)

Module IndexConfig.
Import Js.

(** The configuration as [index.ts] reads it: the transport type, the
    fields the gateway reads as well, the port and the endpoint path. *)
Record AppConfig : Type := mkAppConfig {
  mcpTransportType : string;
  gateway : Http.Config;
  mcpHttpPort : Z;
  mcpHttpEndpointPath : string
}.

Record Cors : Type := mkCors {
  allowOrigin : string
}.

Record SessionConfig : Type := mkSessionConfig {
  enabled : bool;
  sessionTimeout : option Z
}.

Record HttpStreamTransportConfig : Type := mkHttpOptions {
  port : Z;
  endpoint : string;
  responseMode : string;
  cors : option Cors;
  session : option SessionConfig
}.

Inductive TransportConfig : Type :=
| Stdio
| HttpStream (options : HttpStreamTransportConfig).

Definition buildTransportConfig (config : AppConfig) : TransportConfig :=
  if String.eqb (mcpTransportType config) "http" then
    let cors :=
      match Http.mcpAllowedOrigins (gateway config) with
      | Some (o :: os) =>
          Some (mkCors (if (length (o :: os) =? 1)%nat then o else "*"))
      | _ => None
      end in
    let sessionConfig :=
      if String.eqb (Http.mcpSessionMode (gateway config)) "stateless"
      then Some (mkSessionConfig false None)
      else if String.eqb (Http.mcpSessionMode (gateway config)) "stateful"
      then Some (mkSessionConfig true
                   (Some (Http.mcpStatefulSessionStaleTimeoutMs
                            (gateway config))))
      else None in
    HttpStream
      {| port := mcpHttpPort config;
         endpoint := mcpHttpEndpointPath config;
         responseMode := "batch";
         cors := cors;
         session := sessionConfig |}
  else Stdio.

End IndexConfig.

(** ** The provider's paged listing *)

Module Provider.

(** The parameters of [provider.listStudies]; a field that is left out of
    the object is [None]. *)
Record ListParams : Type := mkListParams {
  query : option string;
  filter : option string;
  pageSize : Z;
  pageToken : option string;
  sort : option string;
  fields : option (list string);
  country : option string;
  state : option string;
  city : option string
}.

Record Page (S : Type) : Type := mkPage {
  studies : option (list S);
  totalCount : option Z;
  nextPageToken : option string
}.

Arguments mkPage {S}.
Arguments studies {S}.
Arguments totalCount {S}.
Arguments nextPageToken {S}.

End Provider.

(** ** The [clinicaltrials_search_studies] tool *)

Module SearchStudies.
Import Js Types Provider.

Record SearchStudiesInput : Type := mkInput {
  inQuery : option string;
  inFilter : option string;
  inPageSize : Z;
  inPageToken : option string;
  inSort : option string;
  inFields : option (list string);
  inCountry : option string;
  inState : option string;
  inCity : option string
}.

(** The object spread into the call of [listStudies]:
    [...(input.f && { f: input.f })] keeps a field that is truthy. An array
    is truthy even when it is empty. *)
Definition paramsOf (input : SearchStudiesInput) : ListParams :=
  {| query := whenTruthy (inQuery input);
     filter := whenTruthy (inFilter input);
     pageSize := inPageSize input;
     pageToken := whenTruthy (inPageToken input);
     sort := whenTruthy (inSort input);
     fields := inFields input;
     country := whenTruthy (inCountry input);
     state := whenTruthy (inState input);
     city := whenTruthy (inCity input) |}.

Definition runTool (listStudies : ListParams -> Page Study)
    (input : SearchStudiesInput) : Page Study :=
  listStudies (paramsOf input).

End SearchStudies.

(** ** The [clinicaltrials_analyze_trends] tool *)

Module Trends.
Import Js Types Provider.

Inductive AnalysisType : Type :=
| CountByStatus
| CountByCountry
| CountBySponsorType
| CountByPhase
| CountByYear
| CountByMonth.

(** The fields of a study the analysis reads, each named after the access
    path that ends in it. *)
Record Study : Type := mkStudy {
  overallStatus : option string;    (* statusModule?.overallStatus *)
  startDate : option string;        (* statusModule?.startDateStruct?.date *)
  locationCountries : option (list (option string));
                                    (* contactsLocationsModule?.locations,
                                       the [country] of each *)
  leadSponsorClass : option string; (* sponsorCollaboratorsModule
                                       ?.leadSponsor?.class *)
  phases : option (list (option string))   (* designModule?.phases *)
}.

(** What a property of [results] holds: a number, or the string that
    adding 1 to an inherited property of the object literal produces. *)
Inductive Count : Type :=
| Number (n : Z)
| NotNumber.

(** The names an object literal inherits from [Object.prototype]: for these
    [results[k]] is not [undefined] on the empty object. *)
Definition inheritedNames : list string :=
  ["__proto__"; "constructor"; "hasOwnProperty"; "isPrototypeOf";
   "propertyIsEnumerable"; "toLocaleString"; "toString"; "valueOf";
   "__defineGetter__"; "__defineSetter__"; "__lookupGetter__";
   "__lookupSetter__"].

Definition inherited (k : string) : bool :=
  existsb (String.eqb k) inheritedNames.

(** [results[k] = (results[k] ?? 0) + 1] on the object literal [results].
    An own property is read and written back: a number plus one, or a
    string with a character appended. A missing key that the object
    inherits reads as a function or an object, to which [+ 1] appends as to
    a string; the assignment then creates an own property, except for
    [__proto__], whose setter ignores a string. *)
Definition bump (k : string) (results : gmap string Count)
  : gmap string Count :=
  match results !! k with
  | Some (Number n) => <[k := Number (n + 1)]> results
  | Some NotNumber => <[k := NotNumber]> results
  | None =>
      if String.eqb k "__proto__" then results
      else if inherited k then <[k := NotNumber]> results
      else <[k := Number 1]> results
  end.

(** The body of the loop over the studies, for one analysis type. *)
Definition countStudy (type : AnalysisType) (results : gmap string Count)
    (study : Study) : gmap string Count :=
  let byKey (key : string) :=
    if truthy_str (Some key) then bump key results else results in
  match type with
  | CountByStatus => byKey (orElse (overallStatus study) "Unknown")
  | CountByCountry =>
      match locationCountries study with
      | Some locs =>
          fold_left (fun r loc => bump (orElse loc "Unknown") r) locs results
      | None => results
      end
  | CountBySponsorType => byKey (orElse (leadSponsorClass study) "Unknown")
  | CountByPhase =>
      fold_left (fun r phase => bump (orElse phase "Unknown") r)
        (orElse (phases study) [Some "Unknown"]) results
  | CountByYear =>
      match whenTruthy (startDate study) with
      | Some d => bump (String.substring 0 4 d) results
      | None => bump "Unknown" results
      end
  | CountByMonth =>
      match whenTruthy (startDate study) with
      | Some d =>
          if (7 <=? String.length d)%nat
          then bump (String.substring 0 7 d) results
          else bump "Unknown" results
      | None => bump "Unknown" results
      end
  end.

Record AnalysisResult : Type := mkResult {
  analysisType : AnalysisType;
  totalStudies : Z;
  results : gmap string Count
}.

Definition analyze (allStudies : list Study) (type : AnalysisType)
  : AnalysisResult :=
  {| analysisType := type;
     totalStudies := Z.of_nat (length allStudies);
     results := fold_left (countStudy type) allStudies ∅ |}.

(** How [fetchAllStudies] ends. *)
Inductive Fetch : Type :=
| FetchedAll (allStudies : list Study)
| LimitExceeded (totalStudies limit : Z)     (* throws a validation error *)
| StillFetching.                             (* the fuel ran out *)

Definition pageParams (query filter pageToken : option string) (size : Z)
  : ListParams :=
  {| query := whenTruthy query;
     filter := whenTruthy filter;
     pageSize := size;
     pageToken := whenTruthy pageToken;
     sort := None; fields := None; country := None; state := None;
     city := None |}.

(** The [while (hasMore)] loop of [fetchAllStudies], with the page tokens it
    requested (oldest first) as its log. The loop of the source has no
    bound of its own; [fuel] bounds it here. *)
Fixpoint fetchPages (fuel : nat) (listStudies : ListParams -> Page Study)
    (query filter : option string) (totalStudies : Z)
    (allStudies : list Study) (pageToken : option string)
  : list (option string) * Fetch :=
  match fuel with
  | O => ([], StillFetching)
  | S fuel' =>
      let paged := listStudies (pageParams query filter pageToken 1000) in
      let allStudies' :=
        match studies paged with
        | Some page => allStudies ++ page
        | None => allStudies
        end in
      let pageToken' := nextPageToken paged in
      let hasMore :=
        truthy_str pageToken'
        && (Z.of_nat (length allStudies') <? totalStudies) in
      if hasMore then
        let r :=
          fetchPages fuel' listStudies query filter totalStudies allStudies'
            pageToken' in
        (whenTruthy pageToken :: fst r, snd r)
      else ([whenTruthy pageToken], FetchedAll allStudies')
  end.

Definition fetchAllStudies (fuel : nat)
    (listStudies : ListParams -> Page Study) (maxStudies : Z)
    (query filter : option string) : list (option string) * Fetch :=
  let initialResponse := listStudies (pageParams query filter None 1) in
  let totalStudies := orElse (totalCount initialResponse) 0 in
  if totalStudies >? maxStudies
  then ([], LimitExceeded totalStudies maxStudies)
  else if totalStudies =? 0 then ([], FetchedAll [])
  else fetchPages fuel listStudies query filter totalStudies [] None.

Record AnalyzeTrendsInput : Type := mkInput {
  inQuery : option string;
  inFilter : option string;
  inAnalysisType : AnalysisType + list AnalysisType
}.

Inductive ToolResult : Type :=
| Returned (analysis : list AnalysisResult)
| Raised (message : string) (totalStudies limit : Z)
| Unfinished.

Definition runTool (fuel : nat) (listStudies : ListParams -> Page Study)
    (maxStudies : Z) (input : AnalyzeTrendsInput) : ToolResult :=
  match snd (fetchAllStudies fuel listStudies maxStudies (inQuery input)
               (inFilter input)) with
  | FetchedAll allStudies =>
      let analysisTypes :=
        match inAnalysisType input with
        | inl type => [type]
        | inr types => types
        end in
      Returned (map (analyze allStudies) analysisTypes)
  | LimitExceeded totalStudies limit =>
      Raised
        ("The query returned " +:+ pretty totalStudies
         +:+ " studies, which exceeds the limit of " +:+ pretty limit
         +:+ " for analysis. Please provide a more specific query.")
        totalStudies limit
  | StillFetching => Unfinished
  end.

(** The categories a study is counted under, for one analysis type. *)
Definition categories (type : AnalysisType) (study : Study) : list string :=
  match type with
  | CountByStatus =>
      match whenTruthy (Some (orElse (overallStatus study) "Unknown")) with
      | Some k => [k]
      | None => []
      end
  | CountByCountry =>
      map (fun loc => orElse loc "Unknown")
        (orElse (locationCountries study) [])
  | CountBySponsorType =>
      match whenTruthy (Some (orElse (leadSponsorClass study) "Unknown")) with
      | Some k => [k]
      | None => []
      end
  | CountByPhase =>
      map (fun phase => orElse phase "Unknown")
        (orElse (phases study) [Some "Unknown"])
  | CountByYear =>
      match whenTruthy (startDate study) with
      | Some d => [String.substring 0 4 d]
      | None => ["Unknown"]
      end
  | CountByMonth =>
      match whenTruthy (startDate study) with
      | Some d =>
          if (7 <=? String.length d)%nat then [String.substring 0 7 d]
          else ["Unknown"]
      | None => ["Unknown"]
      end
  end.

(** How often [k] occurs in a list of categories. *)
Definition occurrences (k : string) (keys : list string) : Z :=
  Z.of_nat (length (List.filter (String.eqb k) keys)).

(** The count a result holds for a category: 0 when the category is
    missing. *)
Definition countOf (results : gmap string Count) (k : string) : Z :=
  match results !! k with
  | Some (Number n) => n
  | _ => 0
  end.

(** The sum of the counts of a result. *)
Definition sumOfCounts (results : gmap string Count) : Z :=
  map_fold
    (fun _ count acc =>
       match count with
       | Number n => n + acc
       | NotNumber => acc
       end) 0 results.

(** Every property of a result is a number. *)
Definition numeric (results : gmap string Count) : Prop :=
  forall k count, results !! k = Some count -> exists n, count = Number n.

(** The categories of the studies are ordinary names: none is a property
    name of [Object.prototype]. *)
Definition plainCategories (type : AnalysisType) (allStudies : list Study)
  : Prop :=
  Forall (fun study =>
            Forall (fun k => inherited k = false) (categories type study))
    allStudies.

(** The studies of the page requested with a token. *)
Definition pageAt (listStudies : ListParams -> Page Study)
    (query filter pageToken : option string) : list Study :=
  orElse (studies (listStudies (pageParams query filter pageToken 1000))) [].

(** The token the page requested with [pageToken] announces. *)
Definition tokenAfter (listStudies : ListParams -> Page Study)
    (query filter pageToken : option string) : option string :=
  nextPageToken (listStudies (pageParams query filter pageToken 1000)).

(** Each request after the first carries the token that the page before it
    announced. *)
Fixpoint chained (listStudies : ListParams -> Page Study)
    (query filter : option string) (requests : list (option string)) : Prop :=
  match requests with
  | tok :: rest =>
      match rest with
      | next :: _ =>
          next = whenTruthy (tokenAfter listStudies query filter tok)
          /\ chained listStudies query filter rest
      | [] => True
      end
  | [] => True
  end.

(** A provider that never announces a next page on an empty page. *)
Definition makesProgress (listStudies : ListParams -> Page Study)
    (query filter : option string) : Prop :=
  forall tok,
    truthy_str (tokenAfter listStudies query filter tok) = true ->
    pageAt listStudies query filter tok <> [].

(** The total the first request reports: [initialResponse.totalCount ?? 0]. *)
Definition reportedTotal (listStudies : ListParams -> Page Study)
    (query filter : option string) : Z :=
  orElse (totalCount (listStudies (pageParams query filter None 1))) 0.

End Trends.

(** ** Further scenarios *)

Module MoreScenarios.
Import Js Http.

(** A predicate standing for the SDK's [isInitializeRequest]: an object
    with a [method] field equal to [initialize]. *)
Definition looksLikeInitialize (j : json) : bool :=
  match j with
  | JObj fields =>
      existsb
        (fun kv =>
           String.eqb (fst kv) "method"
           && match snd kv with
              | JStr m => String.eqb m "initialize"
              | _ => false
              end)
        fields
  | _ => false
  end.

Definition tenantConfig : Config :=
  mkConfig "stateful" 60000 (Some ["https://a.example"; "https://b.example"]).

Definition tenantApp : App := fst (createHttpApp tenantConfig).

Definition tenantAuth : AuthInfo :=
  mkAuthInfo (Some "tenant-1") (Some "") None.

(** An initialization by an authenticated caller, answered by the engine
    with the session id [sess-1]. *)
Definition afterInit : AppState :=
  snd (mcpEndpoint looksLikeInitialize tenantApp
         (mkRequest "POST" (Some "https://a.example") None None
            (Some (JObj [("jsonrpc", JStr "2.0"); ("method", JStr "initialize")]))
            (Some tenantAuth))
         (mkEngine false [SessionInitialized "sess-1"] false)
         (snd (createHttpApp tenantConfig))).

(** The probe of every port fails for lack of permission ([EACCES]), and
    [serve] returns without throwing. *)
Definition privilegedNetwork : Network :=
  mkNetwork (fun _ _ => ProbeError "EACCES") (fun _ _ => false).

(** Port 65535 is taken and the next port number is out of range: [listen]
    throws. *)
Definition edgeNetwork : Network :=
  mkNetwork
    (fun port _ =>
       if port <=? 65535 then ProbeError "EADDRINUSE" else ProbeThrows)
    (fun _ _ => false).

End MoreScenarios.

(** ** Variants of a tool input *)

Module FindEligibleInputs.
Import Types FindEligible.

(** The same patient, asked for with another [maxResults]. *)
Definition withMaxResults (m : Z) (input : FindEligibleStudiesInput)
  : FindEligibleStudiesInput :=
  mkInput (age input) (patientSex input) (conditions input) (location input)
    (healthyVolunteer input) m (recruitingOnly input).

(** The NCT id the tool shows for a study. *)
Definition studyNctId (study : Study) : string :=
  orElse (protocolSection study ?. identificationModule ?. nctId) "Unknown".

(** Text in which every character is an ASCII character: there a character
    of the string type used here and a UTF-16 unit of the source's strings
    are the same thing, and so are the lengths and the substrings. *)
Fixpoint asciiOnly (s : string) : bool :=
  match s with
  | EmptyString => true
  | String c rest => (Ascii.nat_of_ascii c <? 128)%nat && asciiOnly rest
  end.

End FindEligibleInputs.

(** ** Providers and inputs for the tools *)

Module ToolScenarios.
Import Js Types Provider.

(** A provider with five studies, served two per page with the tokens
    [p2] and [p3]. *)
Definition trendStudy (status year : string) : Trends.Study :=
  Trends.mkStudy (Some status) (Some year) (Some [Some "Germany"; None])
    None None.

Definition fiveStudies : list Trends.Study :=
  [trendStudy "RECRUITING" "2021-03-01"; trendStudy "COMPLETED" "2021-11";
   trendStudy "RECRUITING" "2022"; trendStudy "" "2023-01-15";
   Trends.mkStudy None None None None None].

Definition pagedProvider (params : ListParams) : Page Trends.Study :=
  match pageToken params with
  | None => mkPage (Some (take 2 fiveStudies)) (Some 5) (Some "p2")
  | Some tok =>
      if String.eqb tok "p2"
      then mkPage (Some (take 2 (drop 2 fiveStudies))) (Some 5) (Some "p3")
      else mkPage (Some (drop 4 fiveStudies)) (Some 5) None
  end.

Definition trendsInput : Trends.AnalyzeTrendsInput :=
  Trends.mkInput (Some "diabetes") (Some "")
    (inr [Trends.CountByStatus; Trends.CountByYear]).

End ToolScenarios.

(** * Properties *)

Module JsFacts.
Import Js.

Lemma includes_In l x : includes l x = true <-> In x l.
Proof.
  unfold includes. rewrite existsb_exists. split.
  - intros (y & Hy & Heq). apply String.eqb_eq in Heq. now subst.
  - intros H. exists x. split; [exact H | apply String.eqb_refl].
Qed.

Lemma truthy_str_Some s : truthy_str (Some s) = true <-> s <> "".
Proof.
  simpl. rewrite negb_true_iff. split.
  - intros H ->. now rewrite String.eqb_refl in H.
  - intros H. now apply String.eqb_neq.
Qed.

Lemma whenTruthy_Some h o : whenTruthy h = Some o <-> h = Some o /\ o <> "".
Proof.
  unfold whenTruthy. destruct h as [s|]; simpl.
  - destruct (String.eqb_spec s "") as [->|Hne]; simpl.
    + split; [discriminate | intros [[= <-] H]; now destruct H].
    + split; [intros [= <-]; now split | now intros [? _]].
  - split; [discriminate | now intros [? _]].
Qed.

Lemma whenTruthy_None h : whenTruthy h = None <-> h = None \/ h = Some "".
Proof.
  unfold whenTruthy. destruct h as [s|]; simpl.
  - destruct (String.eqb_spec s "") as [->|Hne]; simpl.
    + split; [now right | reflexivity].
    + split; [discriminate | intros [?|[= ?]]; [discriminate | contradiction]].
  - split; [now left | reflexivity].
Qed.

End JsFacts.

Module OriginGuardSpec.
Import Js Http JsFacts.

Lemma createHttpApp_allowed config :
  allowedOriginsList (fst (createHttpApp config)) =
  match mcpAllowedOrigins config with
  | Some (o :: os) => Some (o :: os)
  | _ => None
  end.
Proof. reflexivity. Qed.

Lemma createHttpApp_dns config :
  dnsProtectionEnabled (fst (createHttpApp config)) =
  match mcpAllowedOrigins config with
  | Some (_ :: _) => true
  | _ => false
  end.
Proof. unfold createHttpApp. simpl. now destruct (mcpAllowedOrigins config) as [[|]|]. Qed.

(** The guard with a non-empty allow-list [l]. *)
Lemma originGuard_configured config l h :
  mcpAllowedOrigins config = Some l -> l <> [] ->
  originGuard (fst (createHttpApp config)) h =
  match whenTruthy h with
  | Some o =>
      if includes l o then Next
      else Reject 403 "Invalid origin. DNS rebinding protection."
  | None => Next
  end.
Proof.
  intros HL Hne. unfold originGuard.
  rewrite createHttpApp_dns, createHttpApp_allowed, HL.
  destruct l as [|o os]; [contradiction|].
  destruct (whenTruthy h); [|reflexivity].
  now destruct (includes (o :: os) s).
Qed.

(** Without an allow-list, or with an empty one, the guard is inert. *)
Lemma originGuard_inert config h :
  mcpAllowedOrigins config = None \/ mcpAllowedOrigins config = Some [] ->
  originGuard (fst (createHttpApp config)) h = Next.
Proof.
  intros HL. unfold originGuard. rewrite createHttpApp_dns.
  destruct (whenTruthy h); [|reflexivity].
  now destruct HL as [-> | ->].
Qed.

(** C4, as stated, fails: with the allow-list [["https://app.example.org"]]
    a request whose Origin header is present and empty passes the guard,
    although the list is not empty, the header is not absent and the empty
    string is not in the list. *)
Lemma origin_guard_empty_header_counterexample :
  ~ (forall config h,
        originGuard (fst (createHttpApp config)) h = Next
        <-> specOriginPasses (mcpAllowedOrigins config) h).
Proof.
  intros H.
  destruct (H (mkConfig "stateful" 1800000 (Some ["https://app.example.org"]))
              (Some "")) as [Hpass _].
  specialize (Hpass eq_refl).
  destruct Hpass as [HL | [HL | [Hh | (o & l & Hh & HL & Hin)]]];
    try discriminate.
  injection Hh as <-. injection HL as <-.
  destruct Hin as [Heq | []]. discriminate.
Qed.

(** C4, amended: for every configured allow-list [L] and Origin header [h]
    the guard lets the request continue if and only if [L] is empty or
    absent, [h] is absent or the empty string, or [h] is a member of [L];
    otherwise it answers 403 and the request goes no further. *)
Theorem origin_guard_passes_iff config h :
  (originGuard (fst (createHttpApp config)) h = Next
   <-> (specOriginPasses (mcpAllowedOrigins config) h \/ h = Some ""))
  /\ (originGuard (fst (createHttpApp config)) h = Next
      \/ originGuard (fst (createHttpApp config)) h =
         Reject 403 "Invalid origin. DNS rebinding protection.").
Proof.
  destruct (mcpAllowedOrigins config) as [[|o os]|] eqn:HL.
  - rewrite originGuard_inert by (now right).
    split; [|now left]. split; [|reflexivity]. intros _. left. now right; left.
  - rewrite (originGuard_configured config (o :: os)) by (done || discriminate).
    destruct (whenTruthy h) as [x|] eqn:Hh.
    + apply whenTruthy_Some in Hh as [-> Hne].
      destruct (includes (o :: os) x) eqn:Hin.
      * split; [|now left]. split; [|reflexivity]. intros _. left.
        do 3 right. exists x, (o :: os). now rewrite <- includes_In.
      * split; [|now right]. split; [discriminate|].
        intros [[HL' | [HL' | [Hh | (y & l & Hh & HL' & Hy)]]] | Hh];
          try discriminate.
        -- injection Hh as <-. injection HL' as <-.
           apply includes_In in Hy. congruence.
        -- injection Hh as ->. contradiction.
    + split; [|now left]. split; [|reflexivity]. intros _.
      apply whenTruthy_None in Hh as [-> | ->]; [left; now right; right; left | now right].
  - rewrite originGuard_inert by (now left).
    split; [|now left]. split; [|reflexivity]. intros _. left. now left.
Qed.

End OriginGuardSpec.

Module ResolutionSpec.
Import Js Http JsFacts Scenarios.

Section Resolution.

Variable isInitializeRequest : json -> bool.

(** A session the store accepts is not evicted by the check. *)
Lemma isValidForIdentity_accepts sid ident now store :
  snd (isValidForIdentity sid ident now store) = true ->
  fst (isValidForIdentity sid ident now store) = store
  /\ exists s, sessions store !! sid = Some s /\ isStale store now s = false.
Proof.
  unfold isValidForIdentity.
  destruct (sessions store !! sid) as [s|]; [|discriminate].
  destruct (isStale store now s) eqn:Hs; [discriminate|].
  intros _. split; [reflexivity | now exists s].
Qed.

(** [getOrCreate] leaves a record for the id, accessed now. *)
Lemma getOrCreate_touches sid ident now store :
  sessions (fst (getOrCreate sid ident now store)) !! sid
  = Some (snd (getOrCreate sid ident now store))
  /\ lastAccessedAt (snd (getOrCreate sid ident now store)) = now.
Proof.
  unfold getOrCreate. simpl. rewrite lookup_insert_eq. split; [reflexivity|].
  destruct (sessions store !! sid) as [old|]; [|reflexivity].
  now destruct (isStale store now old).
Qed.

(** C1: in stateful mode, a request that presents a session id is answered
    404 "Session not found or expired" when the store rejects the id for the
    caller's identity, 404 as well when the store accepts it but no
    transport is bound to it, and otherwise resolves to the bound transport
    with [created = false], after [getOrCreate] has touched the session. *)
Theorem resolve_presented_session_id
    (app : App) (method sid : string) (ident : option SessionIdentity)
    (body : unknown) (st : AppState) (store : SessionStore) :
  isStatefulMode app = true ->
  sessionStore st = Some store ->
  sid <> "" ->
  let valid := snd (isValidForIdentity sid ident (clock st) store) in
  let r :=
    resolveTransportForRequest isInitializeRequest app method (Some sid)
      ident body st in
  (valid = false -> fst r = Response 404 "Session not found or expired")
  /\ (valid = true -> sessionTransports st !! sid = None ->
      fst r = Response 404 "Session not found or expired")
  /\ (forall t, valid = true -> sessionTransports st !! sid = Some t ->
      fst r = Resolved t false
      /\ transports (snd r) = transports st
      /\ sessionTransports (snd r) = sessionTransports st
      /\ storeCalls (snd r) =
         CallGetOrCreate sid ident
           :: CallIsValidForIdentity sid ident :: storeCalls st
      /\ exists store' s,
           sessionStore (snd r) = Some store'
           /\ sessions store' !! sid = Some s
           /\ lastAccessedAt s = clock st).
Proof.
  intros Hmode Hstore Hsid valid r.
  assert (Hw : whenTruthy (Some sid) = Some sid)
    by (apply whenTruthy_Some; now split).
  subst r. unfold resolveTransportForRequest.
  rewrite Hmode, Hstore, Hw. simpl negb. cbv iota.
  unfold storeIsValidForIdentity. simpl sessionStore. rewrite Hstore.
  simpl fst. simpl snd. fold valid.
  destruct valid eqn:Hvalid; simpl.
  - split; [discriminate|].
    destruct (sessionTransports st !! sid) as [t|] eqn:Ht.
    + split; [discriminate|]. intros t' _ [= <-]. simpl.
      split; [reflexivity|]. unfold storeGetOrCreate. simpl.
      repeat split; try reflexivity.
      destruct (isValidForIdentity_accepts _ _ _ _ Hvalid) as [-> _].
      eexists _, _. split; [reflexivity|].
      apply getOrCreate_touches.
    + split; [reflexivity|]. discriminate.
  - split; [reflexivity|]. split; discriminate.
Qed.

(** The source's payload test against the specification's wording: they
    agree on every parsed body as soon as the SDK predicate rejects the
    falsy JSON values ([null], [false], [0] and the empty string). *)
Lemma isInitializationPayload_spec j :
  isInitializationPayload isInitializeRequest (Parsed j)
  = truthy_json j && specInitialization isInitializeRequest j.
Proof.
  unfold isInitializationPayload, specInitialization.
  destruct (truthy_json j) eqn:Ht; simpl; [|reflexivity].
  now destruct j.
Qed.

(** The session a transport created here registers once the engine signals
    [onsessioninitialized] for it. *)
Lemma fire_initialized_registers t ident sid st store :
  transports st !! t = Some (mkTransport (StatefulTransport ident) false false) ->
  sessionStore st = Some store ->
  let st' := fire t (SessionInitialized sid) st in
  sessionTransports st' !! sid = Some t
  /\ exists store' s,
       sessionStore st' = Some store'
       /\ sessions store' !! sid = Some s
       /\ lastAccessedAt s = clock st
       /\ (sessions store !! sid = None -> identity s = ident).
Proof.
  intros Ht Hstore. unfold fire. rewrite Ht. simpl.
  unfold onsessioninitialized, storeGetOrCreate. simpl. rewrite Hstore. simpl.
  split; [apply lookup_insert_eq|].
  pose proof (getOrCreate_touches sid ident (clock st) store) as [Hl Ha].
  eexists _, _. split; [reflexivity|].
  split; [exact Hl|]. split; [exact Ha|].
  intros Hnone. unfold getOrCreate. now rewrite Hnone.
Qed.

(** C2: in stateful mode, a request that presents no session id is answered
    400 "Mcp-Session-Id header required" when its method is not POST, 400
    "Initialization request required" when it is a POST whose parsed body is
    not an initialization payload, and otherwise gets a new stateful
    transport with [created = true], whose session is registered under the
    caller's identity when the engine signals its initialization. *)
Theorem resolve_without_session_id
    (app : App) (method : string) (header : option string)
    (ident : option SessionIdentity) (body : unknown) (st : AppState)
    (store : SessionStore) :
  isStatefulMode app = true ->
  sessionStore st = Some store ->
  header = None \/ header = Some "" ->
  let r :=
    resolveTransportForRequest isInitializeRequest app method header ident
      body st in
  (method <> "POST" ->
   r = (Response 400 "Mcp-Session-Id header required for this request", st))
  /\ (method = "POST" ->
      isInitializationPayload isInitializeRequest body = false ->
      r = (Response 400
             "Initialization request required to create a new MCP session.",
           st))
  /\ (method = "POST" ->
      isInitializationPayload isInitializeRequest body = true ->
      let t := length (transports st) in
      fst r = Resolved t true
      /\ transports st !! t = None
      /\ transports (snd r)
         = transports st ++ [mkTransport (StatefulTransport ident) false false]
      /\ sessionStore (snd r) = sessionStore st
      /\ sessionTransports (snd r) = sessionTransports st
      /\ forall sid,
           let st' := fire t (SessionInitialized sid) (snd r) in
           sessionTransports st' !! sid = Some t
           /\ exists store' s,
                sessionStore st' = Some store'
                /\ sessions store' !! sid = Some s
                /\ (sessions store !! sid = None -> identity s = ident))
  /\ (forall j,
        (forall x, truthy_json x = false -> isInitializeRequest x = false) ->
        isInitializationPayload isInitializeRequest (Parsed j)
        = specInitialization isInitializeRequest j).
Proof.
  intros Hmode Hstore Hhdr r.
  assert (Hw : whenTruthy header = None) by now apply whenTruthy_None.
  subst r. unfold resolveTransportForRequest.
  rewrite Hmode, Hstore, Hw. simpl negb. cbv iota.
  split; [|split; [|split]].
  - intros Hm. apply String.eqb_neq in Hm. now rewrite Hm.
  - intros -> Hb. now rewrite String.eqb_refl, Hb.
  - intros -> Hb. rewrite String.eqb_refl, Hb. simpl negb. cbv iota.
    unfold createStatefulTransport. rewrite Hstore. simpl.
    split; [reflexivity|]. split; [now apply lookup_ge_None_2|].
    do 3 (split; [reflexivity || exact Hstore|]).
    intros sid.
    set (st1 := withTransports _ st).
    assert (Hnew : transports st1 !! length (transports st)
                   = Some (mkTransport (StatefulTransport ident) false false)).
    { subst st1. simpl. rewrite lookup_app_r by lia. now rewrite Nat.sub_diag. }
    destruct (fire_initialized_registers _ ident sid st1 store Hnew Hstore)
      as [H1 (store' & s & H2 & H3 & _ & H4)].
    split; [exact H1|]. now exists store', s.
  - intros j Hfalsy. rewrite isInitializationPayload_spec.
    destruct (truthy_json j) eqn:Ht; [reflexivity|].
    simpl. symmetry. destruct j; try discriminate; simpl; now apply Hfalsy.
Qed.

(** C3: in stateless mode a DELETE is answered 405 "Session termination not
    supported in stateless mode" whatever session id it carries, every other
    method resolves to a transport constructed for this request with
    [created = true], and the session store is never called. *)
Theorem resolve_stateless
    (app : App) (method : string) (header : option string)
    (ident : option SessionIdentity) (body : unknown) (st : AppState) :
  isStatefulMode app = false ->
  let r :=
    resolveTransportForRequest isInitializeRequest app method header ident
      body st in
  (method = "DELETE" ->
   r = (Response 405 "Session termination not supported in stateless mode",
        st))
  /\ (method <> "DELETE" ->
      let t := length (transports st) in
      fst r = Resolved t true
      /\ transports st !! t = None
      /\ transports (snd r)
         = transports st ++ [mkTransport StatelessTransport false false])
  /\ storeCalls (snd r) = storeCalls st
  /\ sessionStore (snd r) = sessionStore st
  /\ sessionTransports (snd r) = sessionTransports st.
Proof.
  intros Hmode r. subst r. unfold resolveTransportForRequest.
  rewrite Hmode. simpl negb. cbv iota.
  destruct (String.eqb_spec method "DELETE") as [-> | Hne].
  - split; [reflexivity|]. split; [intros H; now destruct H|]. now simpl.
  - split; [intros ->; now destruct Hne|]. split; [|now simpl].
    intros _. simpl. split; [reflexivity|].
    split; [now apply lookup_ge_None_2 | reflexivity].
Qed.

End Resolution.

Lemma resolve_presented_session_id_witness :
  fst (resolveTransportForRequest sampleIsInitializeRequest
         (mkApp true None false) "GET" (Some "abc") None Undefined boundState)
  = Resolved 0 false.
Proof.
  apply (resolve_presented_session_id sampleIsInitializeRequest
           (mkApp true None false) "GET" "abc" None Undefined boundState
           (mkStore 100 {[ "abc" := mkSession None 10 10 ]}));
    [reflexivity | reflexivity | discriminate | .. ].
  - vm_compute. reflexivity.
  - vm_compute. reflexivity.
Defined.

Lemma resolve_without_session_id_witness :
  resolveTransportForRequest sampleIsInitializeRequest
    (mkApp true None false) "POST" None None (Parsed (JObj [])) freshStateful
  = (Response 400
       "Initialization request required to create a new MCP session.",
     freshStateful).
Proof.
  apply (resolve_without_session_id sampleIsInitializeRequest
           (mkApp true None false) "POST" None None (Parsed (JObj []))
           freshStateful (mkStore 1000 ∅));
    [reflexivity | reflexivity | now left | reflexivity | reflexivity].
Defined.

Lemma resolve_stateless_witness :
  resolveTransportForRequest sampleIsInitializeRequest
    (mkApp false None false) "DELETE" None None Undefined
    (snd (createHttpApp (mkConfig "stateless" 1800000 None)))
  = (Response 405 "Session termination not supported in stateless mode",
     snd (createHttpApp (mkConfig "stateless" 1800000 None))).
Proof.
  apply (resolve_stateless sampleIsInitializeRequest
           (mkApp false None false) "DELETE" None None Undefined
           (snd (createHttpApp (mkConfig "stateless" 1800000 None))));
    reflexivity.
Defined.

(** The three scenarios of the specification, run through the whole
    endpoint. *)
Example scenario_unknown_session :
  fst (mcpEndpoint sampleIsInitializeRequest staleApp
         (mkRequest "POST" None (Some "abc") None (Some initializeBody) None)
         (mkEngine false [] false) freshStateful)
  = Status 404 "Session not found or expired".
Proof. reflexivity. Qed.

Example scenario_initialization_required :
  fst (mcpEndpoint sampleIsInitializeRequest staleApp
         (mkRequest "POST" None None None (Some (JObj [])) None)
         (mkEngine false [] false) freshStateful)
  = Status 400 "Initialization request required to create a new MCP session.".
Proof. reflexivity. Qed.

Example scenario_delete_stateless :
  fst (mcpEndpoint sampleIsInitializeRequest
         (fst (createHttpApp statelessConfig))
         (mkRequest "DELETE" None None None None None)
         (mkEngine false [] false) (snd (createHttpApp statelessConfig)))
  = Status 405 "Session termination not supported in stateless mode".
Proof. reflexivity. Qed.

(** An empty session header counts as none: the request is asked for the
    header, not answered 404. *)
Example scenario_empty_session_header :
  fst (mcpEndpoint sampleIsInitializeRequest staleApp
         (mkRequest "GET" None (Some "") (Some "text/event-stream") None None)
         (mkEngine false [] false) freshStateful)
  = Status 400 "Mcp-Session-Id header required for this request".
Proof. reflexivity. Qed.

End ResolutionSpec.

Module RegistrySpec.
Import Js Http JsFacts Scenarios.

Section Registries.

Variable isInitializeRequest : json -> bool.

(** **** Stateful mode: the store stays within the registry *)

Lemma getOrCreate_lookup sid ident now store k :
  is_Some (sessions (fst (getOrCreate sid ident now store)) !! k)
  <-> k = sid \/ is_Some (sessions store !! k).
Proof.
  unfold getOrCreate. simpl. destruct (decide (sid = k)) as [->|Hne].
  - rewrite lookup_insert_eq. split; [now left | intros _; eauto].
  - rewrite lookup_insert_ne by done. split; [now right|].
    intros [->|H]; [contradiction | exact H].
Qed.

Lemma isValidForIdentity_shrinks sid ident now store k :
  is_Some (sessions (fst (isValidForIdentity sid ident now store)) !! k) ->
  is_Some (sessions store !! k).
Proof.
  unfold isValidForIdentity.
  destruct (sessions store !! sid) as [s|] eqn:Hs; [|done].
  destruct (isStale store now s); [|done]. simpl.
  destruct (decide (sid = k)) as [->|Hne].
  - now rewrite lookup_delete_eq; intros [? ?].
  - now rewrite lookup_delete_ne.
Qed.

(** What the three store calls do to the fields of the state. *)
Lemma storeGetOrCreate_store sid ident st :
  sessionStore (storeGetOrCreate sid ident st)
  = option_map (fun store => fst (getOrCreate sid ident (clock st) store))
      (sessionStore st).
Proof. unfold storeGetOrCreate, logCall. simpl. destruct (sessionStore st); reflexivity. Qed.

Lemma storeGetOrCreate_registry sid ident st :
  sessionTransports (storeGetOrCreate sid ident st) = sessionTransports st.
Proof. unfold storeGetOrCreate, logCall. simpl. destruct (sessionStore st); reflexivity. Qed.

Lemma storeIsValidForIdentity_store sid ident st :
  sessionStore (snd (storeIsValidForIdentity sid ident st))
  = option_map (fun store => fst (isValidForIdentity sid ident (clock st) store))
      (sessionStore st).
Proof. unfold storeIsValidForIdentity, logCall. simpl. destruct (sessionStore st); reflexivity. Qed.

Lemma storeIsValidForIdentity_registry sid ident st :
  sessionTransports (snd (storeIsValidForIdentity sid ident st))
  = sessionTransports st.
Proof.
  unfold storeIsValidForIdentity, logCall. simpl. destruct (sessionStore st); reflexivity.
Qed.

Lemma storeTerminate_store sid st :
  sessionStore (storeTerminate sid st)
  = option_map (terminate sid) (sessionStore st).
Proof. unfold storeTerminate, logCall. simpl. destruct (sessionStore st); reflexivity. Qed.

Lemma storeTerminate_registry sid st :
  sessionTransports (storeTerminate sid st) = sessionTransports st.
Proof. unfold storeTerminate, logCall. simpl. destruct (sessionStore st); reflexivity. Qed.

Lemma storeGetOrCreate_within sid ident st :
  is_Some (sessionTransports st !! sid) ->
  storeWithinRegistry st ->
  storeWithinRegistry (storeGetOrCreate sid ident st).
Proof.
  intros Hsid Hinv store k.
  rewrite storeGetOrCreate_store, storeGetOrCreate_registry.
  destruct (sessionStore st) as [store0|] eqn:Hst; simpl; [|discriminate].
  intros [= <-] Hk. apply getOrCreate_lookup in Hk as [->|Hk]; [exact Hsid|].
  now apply (Hinv store0).
Qed.

Lemma storeIsValidForIdentity_within sid ident st :
  storeWithinRegistry st ->
  storeWithinRegistry (snd (storeIsValidForIdentity sid ident st)).
Proof.
  intros Hinv store k.
  rewrite storeIsValidForIdentity_store, storeIsValidForIdentity_registry.
  destruct (sessionStore st) as [store0|] eqn:Hst; simpl; [|discriminate].
  intros [= <-] Hk. apply isValidForIdentity_shrinks in Hk.
  now apply (Hinv store0).
Qed.

Lemma resolve_within app method header ident body st :
  storeWithinRegistry st ->
  storeWithinRegistry
    (snd (resolveTransportForRequest isInitializeRequest app method header
            ident body st)).
Proof.
  intros Hinv. unfold resolveTransportForRequest.
  destruct (isStatefulMode app); simpl.
  - destruct (sessionStore st) as [store0|] eqn:Hst; [|exact Hinv].
    destruct (whenTruthy header) as [sid|].
    + pose proof (storeIsValidForIdentity_within sid ident st Hinv) as Hv.
      destruct (fst (storeIsValidForIdentity sid ident st)); simpl; [|exact Hv].
      destruct (sessionTransports _ !! sid) as [t|] eqn:Ht; simpl; [|exact Hv].
      apply storeGetOrCreate_within; [|exact Hv]. now rewrite Ht.
    + destruct (String.eqb method "POST"); simpl; [|exact Hinv].
      destruct (isInitializationPayload isInitializeRequest body); simpl;
        [|exact Hinv].
      unfold createStatefulTransport. rewrite Hst. exact Hinv.
  - destruct (String.eqb method "DELETE"); exact Hinv.
Qed.

Lemma fire_within t ev st :
  storeWithinRegistry st -> storeWithinRegistry (fire t ev st).
Proof.
  intros Hinv. unfold fire.
  destruct (transports st !! t) as [tr|]; [|exact Hinv].
  destruct (kind tr) as [|ident]; [exact Hinv|].
  destruct ev as [sid|closed].
  - unfold onsessioninitialized. apply storeGetOrCreate_within.
    + simpl. rewrite lookup_insert_eq. eauto.
    + intros store k Hs Hk. simpl in *.
      destruct (decide (sid = k)) as [->|Hne].
      * rewrite lookup_insert_eq. eauto.
      * rewrite lookup_insert_ne by done. now apply (Hinv store).
  - unfold onsessionclosed.
    destruct (whenTruthy closed) as [sid|]; [|exact Hinv].
    intros store k.
    rewrite storeTerminate_store, storeTerminate_registry. simpl.
    destruct (sessionStore st) as [store0|] eqn:Hst; simpl; [|discriminate].
    intros [= <-]. simpl. destruct (decide (sid = k)) as [->|Hne].
    + rewrite lookup_delete_eq. now intros [? ?].
    + rewrite !lookup_delete_ne by done. now apply (Hinv store0).
Qed.

Lemma step_within app st st' :
  step isInitializeRequest app st st' ->
  storeWithinRegistry st -> storeWithinRegistry st'.
Proof.
  intros Hstep Hinv. destruct Hstep.
  - now apply resolve_within.
  - exact Hinv.
  - now apply fire_within.
  - exact Hinv.
  - exact Hinv.
Qed.

(** The store object exists exactly in stateful mode, and no step replaces
    it by [null]. *)
Lemma step_store_present app st st' :
  step isInitializeRequest app st st' ->
  is_Some (sessionStore st) -> is_Some (sessionStore st').
Proof.
  intros Hstep [store0 Hst]. destruct Hstep; simpl; eauto.
  - unfold resolveTransportForRequest.
    destruct (isStatefulMode app); simpl.
    + rewrite Hst. destruct (whenTruthy sid) as [x|].
      * assert (Hv : is_Some (sessionStore
                                (snd (storeIsValidForIdentity x
                                        (extractSessionIdentity auth) st))))
          by (rewrite storeIsValidForIdentity_store, Hst; simpl; eauto).
        destruct (fst (storeIsValidForIdentity _ _ _)); simpl; [|exact Hv].
        destruct (sessionTransports _ !! x); simpl; [|exact Hv].
        rewrite storeGetOrCreate_store. destruct Hv as [? ->]. simpl. eauto.
      * destruct (String.eqb method "POST"); simpl; eauto.
        destruct (isInitializationPayload _ _); simpl; eauto.
        unfold createStatefulTransport. rewrite Hst. simpl. eauto.
    + destruct (String.eqb method "DELETE"); simpl; eauto.
  - unfold fire. destruct (transports st !! t) as [tr|]; eauto.
    destruct (kind tr); eauto. destruct ev as [x|x].
    + unfold onsessioninitialized. rewrite storeGetOrCreate_store. simpl.
      rewrite Hst. simpl. eauto.
    + unfold onsessionclosed. destruct (whenTruthy x); eauto.
      rewrite storeTerminate_store. simpl. rewrite Hst. simpl. eauto.
Qed.

(** C6, amended: in stateful mode, in every state a request can observe,
    the session store exists and every one of its records has a transport
    registered under the same session id. (The converse does not hold: a
    transport stays registered after the store has evicted its session.) *)
Theorem store_within_registry (config : Config) (st : AppState) :
  mcpSessionMode config = "stateful" ->
  reachable isInitializeRequest config st ->
  exists store,
    sessionStore st = Some store
    /\ forall sid,
         is_Some (sessions store !! sid) ->
         is_Some (sessionTransports st !! sid).
Proof.
  intros Hmode Hreach.
  assert (H : is_Some (sessionStore st) /\ storeWithinRegistry st).
  { unfold reachable in Hreach. revert st Hreach.
    apply (rtc_ind_r
             (fun s => is_Some (sessionStore s) /\ storeWithinRegistry s)).
    - unfold createHttpApp. rewrite Hmode. simpl. split; [eauto|].
      intros store k [= <-]. simpl. rewrite lookup_empty. now intros [? ?].
    - intros y z _ Hyz [Hs Hw]. split.
      + eapply step_store_present; eassumption.
      + eapply step_within; eassumption. }
  destruct H as [[store Hs] Hw]. exists store. split; [exact Hs|].
  intros sid. now apply Hw.
Qed.

End Registries.

Lemma stale4_reachable :
  reachable sampleIsInitializeRequest statefulConfig stale4.
Proof.
  unfold reachable.
  eapply rtc_r; [eapply rtc_r; [eapply rtc_r; [eapply rtc_once|]|]|].
  - exact (step_resolve sampleIsInitializeRequest staleApp "POST" None None
             (Parsed initializeBody) freshStateful).
  - exact (step_fire sampleIsInitializeRequest staleApp 0
             (SessionInitialized "s1") stale1).
  - apply (step_tick sampleIsInitializeRequest staleApp 2000 stale2). lia.
  - exact (step_resolve sampleIsInitializeRequest staleApp "GET" (Some "s1")
             None Undefined stale3).
Qed.

(** C6, as stated, fails. A client initializes a session, the engine
    registers it as [s1], the stale timeout passes and a request presents
    [s1]: the store evicts the record and the request is answered 404, but
    the transport stays in the registry, so the state the next request
    observes has [s1] in the transport registry and not in the session
    store. *)
Lemma registries_disagree_after_eviction :
  ~ (forall config st,
        mcpSessionMode config = "stateful" ->
        reachable sampleIsInitializeRequest config st ->
        registriesAgree st).
Proof.
  intros H.
  pose proof (H statefulConfig stale4 eq_refl stale4_reachable) as Hagree.
  destruct (Hagree (mkStore 1000 ∅) "s1" eq_refl) as [Hto _].
  assert (Hreg : is_Some (sessionTransports stale4 !! "s1"))
    by (exists 0%nat; reflexivity).
  destruct (Hto Hreg) as [s Hs]. discriminate Hs.
Qed.

Lemma store_within_registry_witness :
  exists store,
    sessionStore stale2 = Some store
    /\ forall sid,
         is_Some (sessions store !! sid) ->
         is_Some (sessionTransports stale2 !! sid).
Proof.
  apply (store_within_registry sampleIsInitializeRequest statefulConfig stale2);
    [reflexivity|].
  unfold reachable.
  eapply rtc_r; [eapply rtc_once|].
  - exact (step_resolve sampleIsInitializeRequest staleApp "POST" None None
             (Parsed initializeBody) freshStateful).
  - exact (step_fire sampleIsInitializeRequest staleApp 0
             (SessionInitialized "s1") stale1).
Defined.

End RegistrySpec.

Module StatelessSpec.
Import Js Http JsFacts Scenarios StatelessRequests.

Section Stateless.

Variable isInitializeRequest : json -> bool.

Lemma alter_last {A : Type} (f : A -> A) (l : list A) (x : A) :
  alter f (length l) (l ++ [x]) = l ++ [f x].
Proof.
  rewrite <- (Nat.add_0_r (length l)) at 1. now rewrite alter_app_r.
Qed.

Lemma lookup_last {A : Type} (l : list A) (x : A) :
  (l ++ [x]) !! length l = Some x.
Proof. rewrite lookup_app_r by lia. now rewrite Nat.sub_diag. Qed.

(** A stateless transport carries no session callback: whatever the engine
    signals leaves the gateway's state alone. *)
Lemma fire_stateless t ev st tr :
  transports st !! t = Some tr -> kind tr = StatelessTransport ->
  fire t ev st = st.
Proof. intros Ht Hk. unfold fire. now rewrite Ht, Hk. Qed.

Lemma fold_fire_stateless t evs st tr :
  transports st !! t = Some tr -> kind tr = StatelessTransport ->
  fold_left (fun s ev => fire t ev s) evs st = st.
Proof.
  intros Ht Hk. induction evs as [|ev evs IH]; simpl; [reflexivity|].
  now rewrite (fire_stateless t ev st tr).
Qed.

Lemma markConnected_new ts x st :
  markConnected (length ts) (withTransports (ts ++ [x]) st)
  = withTransports (ts ++ [mkTransport (kind x) true (closeCalled x)]) st.
Proof. unfold markConnected, withTransports. simpl. now rewrite alter_last. Qed.

Lemma markCloseCalled_new ts x st :
  markCloseCalled (length ts) (withTransports (ts ++ [x]) st)
  = withTransports (ts ++ [mkTransport (kind x) (connected x) true]) st.
Proof.
  unfold markCloseCalled, withTransports. simpl. now rewrite alter_last.
Qed.

Lemma resolve_stateless_eq app method header ident body st :
  isStatefulMode app = false ->
  resolveTransportForRequest isInitializeRequest app method header ident
    body st
  = if String.eqb method "DELETE"
    then (Response 405 "Session termination not supported in stateless mode",
          st)
    else (Resolved (length (transports st)) true,
          withTransports
            (transports st ++ [mkTransport StatelessTransport false false])
            st).
Proof. intros Hmode. unfold resolveTransportForRequest. now rewrite Hmode. Qed.

(** One request against a stateless gateway at rest: it is answered without
    a transport, or on a transport constructed for it, connected, never
    registered, and closed in the [finally] clause. *)
Lemma handleRpc_stateless app method header ident body engine st :
  isStatefulMode app = false ->
  statelessAtRest st ->
  let r := handleRpc isInitializeRequest app method header ident body engine st in
  statelessAtRest (snd r)
  /\ (transports (snd r) = transports st
      \/ exists c,
           transports (snd r)
           = transports st ++ [mkTransport StatelessTransport c true]).
Proof.
  intros Hmode (Hstore & Hreg & Hcalls & Hall). cbv zeta.
  unfold handleRpc. rewrite resolve_stateless_eq by exact Hmode.
  rewrite Hmode.
  destruct (String.eqb method "DELETE"); cbn [fst snd negb andb].
  - split; [now repeat split | now left].
  - destruct (connectFails engine); cbn [fst snd negb andb].
    + rewrite (markCloseCalled_new (transports st)). cbn [kind connected].
      split; [|right; now exists false].
      repeat split; try assumption.
      apply Forall_app. split; [exact Hall|]. now repeat constructor.
    + rewrite (markConnected_new (transports st)). cbn [kind closeCalled].
      rewrite (fold_fire_stateless _ _ _
                 (mkTransport StatelessTransport true false));
        [| apply lookup_last | reflexivity].
      rewrite (markCloseCalled_new (transports st)). cbn [kind connected].
      split; [|right; now exists true].
      repeat split; try assumption.
      apply Forall_app. split; [exact Hall|]. now repeat constructor.
Qed.

Lemma mcpEndpoint_stateless app req engine st :
  isStatefulMode app = false ->
  statelessAtRest st ->
  let r := mcpEndpoint isInitializeRequest app req engine st in
  statelessAtRest (snd r)
  /\ (transports (snd r) = transports st
      \/ exists c,
           transports (snd r)
           = transports st ++ [mkTransport StatelessTransport c true]).
Proof.
  intros Hmode Hrest. simpl. unfold mcpEndpoint.
  destruct (originGuard app (originHeader req)); [|now split; [|left]].
  destruct (String.eqb (reqMethod req) "GET" && _); [now split; [|left]|].
  destruct (String.eqb (reqMethod req) "POST").
  - destruct (jsonBody req) as [j|]; [|now split; [|left]].
    simpl. now apply handleRpc_stateless.
  - simpl. now apply handleRpc_stateless.
Qed.

Lemma serve_stateless app reqs st :
  isStatefulMode app = false ->
  statelessAtRest st ->
  statelessAtRest (serve isInitializeRequest app reqs st).
Proof.
  intros Hmode. revert st. induction reqs as [|[req engine] reqs IH];
    intros st Hrest; [exact Hrest|].
  unfold serve. simpl. apply IH.
  now apply mcpEndpoint_stateless.
Qed.

Lemma step_stateless app st st' :
  isStatefulMode app = false ->
  step isInitializeRequest app st st' ->
  statelessInFlight st -> statelessInFlight st'.
Proof.
  intros Hmode Hstep (Hstore & Hreg & Hall). destruct Hstep.
  - unfold resolveTransportForRequest. rewrite Hmode. simpl negb. cbv iota.
    destruct (String.eqb method "DELETE"); simpl; [now repeat split|].
    repeat split; try assumption.
    apply Forall_app. split; [exact Hall|]. now repeat constructor.
  - repeat split; try assumption. simpl.
    apply Forall_alter; [exact Hall|]. now intros x _ Hx.
  - unfold fire. destruct (transports st !! t) as [tr|] eqn:Ht;
      [|now repeat split].
    rewrite Forall_lookup in Hall. rewrite (Hall t tr Ht).
    repeat split; try assumption. now apply Forall_lookup.
  - repeat split; try assumption. simpl.
    apply Forall_alter; [exact Hall|]. now intros x _ Hx.
  - now repeat split.
Qed.

(** What one request does to a stateless gateway, in closed form. *)
Lemma handleRpc_stateless_eq app method header ident body engine st :
  isStatefulMode app = false ->
  handleRpc isInitializeRequest app method header ident body engine st
  = if String.eqb method "DELETE"
    then (RpcResponse 405
            "Session termination not supported in stateless mode", st)
    else (if connectFails engine || handleRequestFails engine
          then RpcThrown else RpcAlreadySent,
          withTransports (transports st ++ [usedTransport engine]) st).
Proof.
  intros Hmode. unfold handleRpc, usedTransport.
  rewrite resolve_stateless_eq by exact Hmode. rewrite Hmode.
  destruct (String.eqb method "DELETE"); cbn [fst snd negb andb];
    [reflexivity|].
  destruct (connectFails engine); cbn [fst snd negb andb orb].
  - now rewrite (markCloseCalled_new (transports st)).
  - rewrite (markConnected_new (transports st)). cbn [kind closeCalled].
    rewrite (fold_fire_stateless _ _ _
               (mkTransport StatelessTransport true false));
      [| apply lookup_last | reflexivity].
    rewrite (markCloseCalled_new (transports st)). cbn [kind connected].
    now destruct (handleRequestFails engine).
Qed.

Lemma mcpEndpoint_stateless_eq app req engine st :
  isStatefulMode app = false ->
  let r := mcpEndpoint isInitializeRequest app req engine st in
  if reachesTransport app req
  then
    r = (answerOf engine,
         withTransports (transports st ++ [usedTransport engine]) st)
  else
    snd r = st
    /\ (fst r = ServerInfo
        \/ exists code e,
             fst r = Status code e
             /\ (code = 400 \/ code = 403 \/ code = 405)).
Proof.
  intros Hmode. cbv zeta. unfold mcpEndpoint, reachesTransport, answerOf.
  destruct (originGuard app (originHeader req)) as [|code e] eqn:Hguard.
  - destruct (String.eqb (reqMethod req) "GET" && _); cbn [negb andb];
      [split; [reflexivity | now left]|].
    destruct (String.eqb (reqMethod req) "POST") eqn:Hpost.
    + assert (Hdel : String.eqb (reqMethod req) "DELETE" = false).
      { apply String.eqb_eq in Hpost. now rewrite Hpost. }
      destruct (jsonBody req) as [j|]; cbn [andb].
      * rewrite handleRpc_stateless_eq by exact Hmode.
        rewrite Hdel. cbn [fst snd negb].
        now destruct (connectFails engine || handleRequestFails engine).
      * split; [reflexivity|]. right. eexists _, _. split; [reflexivity|].
        tauto.
    + rewrite handleRpc_stateless_eq by exact Hmode.
      destruct (String.eqb (reqMethod req) "DELETE"); cbn [fst snd negb andb].
      * split; [reflexivity|]. right. eexists _, _. split; [reflexivity|].
        tauto.
      * now destruct (connectFails engine || handleRequestFails engine).
  - split; [reflexivity|]. right. exists code, e. split; [reflexivity|].
    unfold originGuard in Hguard.
    destruct (whenTruthy (originHeader req)); [|discriminate].
    destruct (dnsProtectionEnabled app); [|discriminate].
    destruct (negb _); [|discriminate].
    injection Hguard as <- _. tauto.
Qed.

(** C7: in stateless mode no session store entry and no transport registry
    entry exists in any state of the gateway, whatever the interleaving;
    between requests the registry has size 0 and every transport constructed
    so far has been closed. Every request that reaches a transport (it
    passes the origin guard, is not the server-info GET, carries a parsable
    body if it is a POST, and is not a DELETE) gets a transport of its own,
    constructed for it and appended to those constructed before, which stay
    as they were; that transport is registered nowhere and [close] has been
    called on it when the request is answered, also when [connect] or
    [handleRequest] threw. Every other request is answered 400, 403, 405 or
    with the server info, and leaves the gateway as it was. *)
Theorem stateless_nothing_persists (config : Config) :
  mcpSessionMode config <> "stateful" ->
  let app := fst (createHttpApp config) in
  let st0 := snd (createHttpApp config) in
  (forall st,
     reachable isInitializeRequest config st ->
     sessionStore st = None /\ size (sessionTransports st) = 0%nat)
  /\ (forall reqs,
        let st := serve isInitializeRequest app reqs st0 in
        statelessAtRest st /\ size (sessionTransports st) = 0%nat)
  /\ (forall reqs req engine,
        let st := serve isInitializeRequest app reqs st0 in
        let r := mcpEndpoint isInitializeRequest app req engine st in
        if reachesTransport app req
        then
          fst r = answerOf engine
          /\ snd r
             = withTransports (transports st ++ [usedTransport engine]) st
          /\ transports (snd r) !! length (transports st)
             = Some (usedTransport engine)
          /\ sessionTransports (snd r) = ∅
          /\ sessionStore (snd r) = None
        else
          snd r = st
          /\ (fst r = ServerInfo
              \/ exists code e,
                   fst r = Status code e
                   /\ (code = 400 \/ code = 403 \/ code = 405))).
Proof.
  intros Hmode app st0.
  assert (Happ : isStatefulMode app = false).
  { subst app. unfold createHttpApp. simpl. now apply String.eqb_neq. }
  assert (Hst0 : statelessAtRest st0).
  { subst st0. unfold createHttpApp. simpl.
    apply String.eqb_neq in Hmode. rewrite Hmode.
    repeat split. constructor. }
  split; [|split].
  - assert (H : forall st, reachable isInitializeRequest config st ->
                           statelessInFlight st).
    { unfold reachable. apply rtc_ind_r.
      - destruct Hst0 as (H1 & H2 & _ & _). repeat split; try assumption.
        subst st0. unfold createHttpApp. simpl. constructor.
      - intros y z _ Hyz Hy. eapply step_stateless; eassumption. }
    intros st Hreach. destruct (H st Hreach) as (H1 & H2 & _).
    split; [exact H1|]. rewrite H2. apply map_size_empty.
  - intros reqs st.
    assert (Hrest : statelessAtRest st) by now apply serve_stateless.
    split; [exact Hrest|].
    destruct Hrest as (_ & -> & _). apply map_size_empty.
  - intros reqs req engine st r.
    assert (Hrest : statelessAtRest st) by now apply serve_stateless.
    destruct Hrest as (Hstore & Hreg & _ & _).
    pose proof (mcpEndpoint_stateless_eq app req engine st Happ) as Heq.
    cbv zeta in Heq. fold r in Heq.
    destruct (reachesTransport app req); [|exact Heq].
    rewrite Heq. cbn [fst snd withTransports transports sessionTransports
                      sessionStore].
    repeat split; try assumption. apply lookup_last.
Qed.

End Stateless.

Lemma stateless_nothing_persists_witness :
  statelessAtRest
    (serve sampleIsInitializeRequest (fst (createHttpApp statelessConfig))
       sampleRequests (snd (createHttpApp statelessConfig)))
  /\ size (sessionTransports
             (serve sampleIsInitializeRequest
                (fst (createHttpApp statelessConfig)) sampleRequests
                (snd (createHttpApp statelessConfig)))) = 0%nat
  /\ transports
       (snd (mcpEndpoint sampleIsInitializeRequest
               (fst (createHttpApp statelessConfig))
               (mkRequest "POST" None None None (Some initializeBody) None)
               (mkEngine false [SessionInitialized "s1"] true)
               (snd (createHttpApp statelessConfig))))
     = [mkTransport StatelessTransport true true].
Proof.
  destruct (stateless_nothing_persists sampleIsInitializeRequest
              statelessConfig) as (_ & H & H3); [discriminate|].
  split; [exact (proj1 (H sampleRequests))|].
  split; [exact (proj2 (H sampleRequests))|].
  specialize (H3 [] (mkRequest "POST" None None None (Some initializeBody) None)
                (mkEngine false [SessionInitialized "s1"] true)).
  cbv zeta in H3.
  change (reachesTransport (fst (createHttpApp statelessConfig))
            (mkRequest "POST" None None None (Some initializeBody) None))
    with true in H3.
  cbv iota in H3. destruct H3 as (_ & -> & _). reflexivity.
Defined.

End StatelessSpec.

Module LauncherSpec.
Import Http Scenarios.

Section Launcher.

Variable net : Network.
Variable maxRetries : Z.

Lemma retries_not_binds port attempt :
  attemptRetries net port attempt = true ->
  attemptBinds net port attempt = false.
Proof.
  unfold attemptRetries, attemptBinds.
  destruct (isPortInUse net port attempt) as [[|]|]; try done.
  now intros ->.
Qed.

(** One unfolding of [tryBind], by the outcome of the attempt. *)
Lemma tryBind_step fuel port attempt :
  tryBind (S fuel) net maxRetries port attempt
  = if attempt >? maxRetries + 1 then ([], Fatal port attempt)
    else if attemptRetries net port attempt
    then (port :: fst (tryBind fuel net maxRetries (port + 1) (attempt + 1)),
          snd (tryBind fuel net maxRetries (port + 1) (attempt + 1)))
    else if attemptBinds net port attempt then ([port], Bound port)
    else ([port], Rejected).
Proof.
  simpl. unfold attemptRetries, attemptBinds.
  destruct (attempt >? maxRetries + 1); [reflexivity|].
  destruct (isPortInUse net port attempt) as [[|]|]; try reflexivity.
  now destruct (serveThrows net port attempt).
Qed.

(** The recursion ends before the fuel does. *)
Lemma tryBind_terminates fuel port attempt :
  (Z.to_nat (maxRetries + 2 - attempt) < fuel)%nat ->
  snd (tryBind fuel net maxRetries port attempt) <> OutOfFuel.
Proof.
  revert port attempt. induction fuel as [|fuel IH]; intros port attempt Hf;
    [lia|].
  rewrite tryBind_step.
  destruct (Z.gtb_spec attempt (maxRetries + 1)); [discriminate|].
  destruct (attemptRetries net port attempt).
  - simpl. apply IH. lia.
  - now destruct (attemptBinds net port attempt).
Qed.

(** The ports probed are consecutive, and every probe but the last one went
    on to the next port because the port was in use or the bind failed. *)
Lemma tryBind_probes fuel port attempt (i : nat) p :
  fst (tryBind fuel net maxRetries port attempt) !! i = Some p ->
  p = port + Z.of_nat i
  /\ ((S i < length (fst (tryBind fuel net maxRetries port attempt)))%nat ->
      attemptRetries net p (attempt + Z.of_nat i) = true).
Proof.
  revert port attempt i. induction fuel as [|fuel IH]; intros port attempt i;
    [discriminate|].
  rewrite tryBind_step.
  destruct (attempt >? maxRetries + 1); [discriminate|].
  destruct (attemptRetries net port attempt) eqn:Hr.
  - destruct i as [|i]; simpl.
    + intros [= <-]. rewrite Z.add_0_r. split; [reflexivity|].
      intros _. now rewrite Z.add_0_r.
    + intros Hi. destruct (IH _ _ _ Hi) as [-> Hnext].
      split; [lia|]. intros Hlen.
      replace (attempt + Z.of_nat (S i)) with (attempt + 1 + Z.of_nat i) by lia.
      apply Hnext. lia.
  - assert (Hone : forall x : BindResult, ([port], x).1 !! i = Some p ->
              p = port + Z.of_nat i
              /\ ((S i < length ([port], x).1)%nat ->
                  attemptRetries net p (attempt + Z.of_nat i) = true)).
    { intros x. destruct i as [|i]; simpl; [|discriminate].
      intros [= <-]. split; [lia | lia]. }
    destruct (attemptBinds net port attempt); apply Hone.
Qed.

(** When the launcher binds. *)
Lemma tryBind_Bound fuel port attempt p :
  (Z.to_nat (maxRetries + 2 - attempt) < fuel)%nat ->
  snd (tryBind fuel net maxRetries port attempt) = Bound p
  <-> exists k : nat,
        attempt + Z.of_nat k <= maxRetries + 1
        /\ p = port + Z.of_nat k
        /\ attemptBinds net p (attempt + Z.of_nat k) = true
        /\ forall j : nat, (j < k)%nat ->
             attemptRetries net (port + Z.of_nat j) (attempt + Z.of_nat j)
             = true.
Proof.
  revert port attempt. induction fuel as [|fuel IH]; intros port attempt Hf;
    [lia|].
  rewrite tryBind_step.
  destruct (Z.gtb_spec attempt (maxRetries + 1)) as [Hgt|Hle].
  { split; [discriminate|]. intros (k & Hk & _). lia. }
  destruct (attemptRetries net port attempt) eqn:Hr.
  - simpl. rewrite IH by lia. split.
    + intros (k & Hk & -> & Hb & Hj). exists (S k).
      split; [lia|]. split; [lia|].
      split; [now replace (attempt + Z.of_nat (S k))
                with (attempt + 1 + Z.of_nat k) by lia|].
      intros [|j] Hlt; [now rewrite !Z.add_0_r|].
      replace (port + Z.of_nat (S j)) with (port + 1 + Z.of_nat j) by lia.
      replace (attempt + Z.of_nat (S j)) with (attempt + 1 + Z.of_nat j) by lia.
      apply Hj. lia.
    + intros (k & Hk & -> & Hb & Hj). destruct k as [|k].
      * rewrite !Z.add_0_r in Hb. apply retries_not_binds in Hr. congruence.
      * exists k. split; [lia|]. split; [lia|].
        split; [now replace (attempt + 1 + Z.of_nat k)
                  with (attempt + Z.of_nat (S k)) by lia|].
        intros j Hlt.
        replace (port + 1 + Z.of_nat j) with (port + Z.of_nat (S j)) by lia.
        replace (attempt + 1 + Z.of_nat j) with (attempt + Z.of_nat (S j)) by lia.
        apply Hj. lia.
  - assert (Hzero : forall k : nat,
              (forall j : nat, (j < k)%nat ->
                 attemptRetries net (port + Z.of_nat j) (attempt + Z.of_nat j)
                 = true) -> k = 0%nat).
    { intros [|k] Hj; [reflexivity|].
      specialize (Hj 0%nat ltac:(lia)). rewrite !Z.add_0_r in Hj. congruence. }
    destruct (attemptBinds net port attempt) eqn:Hb; simpl.
    + split.
      * intros [= <-]. exists 0%nat. rewrite !Z.add_0_r.
        repeat split; try lia; try assumption.
      * intros (k & _ & -> & _ & Hj). rewrite (Hzero k Hj). f_equal. lia.
    + split; [discriminate|].
      intros (k & _ & -> & Hbk & Hj). rewrite (Hzero k Hj), !Z.add_0_r in Hbk.
      congruence.
Qed.

(** When the launcher gives up. *)
Lemma tryBind_Fatal fuel port attempt p a :
  (Z.to_nat (maxRetries + 2 - attempt) < fuel)%nat ->
  snd (tryBind fuel net maxRetries port attempt) = Fatal p a
  <-> exists k : nat,
        a = attempt + Z.of_nat k
        /\ p = port + Z.of_nat k
        /\ a > maxRetries + 1
        /\ forall j : nat, (j < k)%nat ->
             attempt + Z.of_nat j <= maxRetries + 1
             /\ attemptRetries net (port + Z.of_nat j) (attempt + Z.of_nat j)
                = true.
Proof.
  revert port attempt. induction fuel as [|fuel IH]; intros port attempt Hf;
    [lia|].
  rewrite tryBind_step.
  destruct (Z.gtb_spec attempt (maxRetries + 1)) as [Hgt|Hle].
  { split.
    - intros [= <- <-]. exists 0%nat. rewrite !Z.add_0_r.
      repeat split; try lia.
    - intros (k & -> & -> & _ & Hj). destruct k as [|k].
      + now rewrite !Z.add_0_r.
      + destruct (Hj 0%nat ltac:(lia)) as [H0 _]. lia. }
  destruct (attemptRetries net port attempt) eqn:Hr.
  - simpl. rewrite IH by lia. split.
    + intros (k & -> & -> & Ha & Hj). exists (S k).
      split; [lia|]. split; [lia|]. split; [lia|].
      intros [|j] Hlt; [rewrite !Z.add_0_r; split; [lia | exact Hr]|].
      replace (port + Z.of_nat (S j)) with (port + 1 + Z.of_nat j) by lia.
      replace (attempt + Z.of_nat (S j)) with (attempt + 1 + Z.of_nat j) by lia.
      apply Hj. lia.
    + intros (k & -> & -> & Ha & Hj). destruct k as [|k]; [lia|].
      exists k. split; [lia|]. split; [lia|]. split; [lia|].
      intros j Hlt.
      replace (port + 1 + Z.of_nat j) with (port + Z.of_nat (S j)) by lia.
      replace (attempt + 1 + Z.of_nat j) with (attempt + Z.of_nat (S j)) by lia.
      apply Hj. lia.
  - assert (Hno : forall x, ([port], x).2 = Fatal p a <-> x = Fatal p a)
      by (intros x; reflexivity).
    assert (Hfalse : ~ exists k : nat,
              a = attempt + Z.of_nat k /\ p = port + Z.of_nat k
              /\ a > maxRetries + 1
              /\ forall j : nat, (j < k)%nat ->
                   attempt + Z.of_nat j <= maxRetries + 1
                   /\ attemptRetries net (port + Z.of_nat j)
                        (attempt + Z.of_nat j) = true).
    { intros (k & -> & -> & Ha & Hj). destruct k as [|k]; [lia|].
      destruct (Hj 0%nat ltac:(lia)) as [_ H0].
      rewrite !Z.add_0_r in H0. congruence. }
    destruct (attemptBinds net port attempt); simpl;
      (split; [discriminate | intros H; now destruct Hfalse]).
Qed.

Lemma occupied_retries port attempt :
  occupied net port -> attemptRetries net port attempt = true.
Proof. intros H. unfold attemptRetries. now rewrite H. Qed.

(** C5: the launcher probes the configured port first and then one port
    after the other, moving on exactly after an attempt whose port is in use
    or whose bind fails; it reports fatal failure exactly when the attempt
    counter, which starts at 1 and grows by one per failed attempt, exceeds
    [maxRetries + 1], and binds the first port whose attempt succeeds before
    that. With [P], [P+1], [P+2] occupied and [P+3] free it binds [P+3] when
    [maxRetries >= 3] and fails fatally when [maxRetries = 2]. *)
Theorem launcher_probes_sequentially (P : Z) :
  let r := startHttpServerWithRetry net P maxRetries in
  snd r <> OutOfFuel
  /\ (forall (i : nat) p,
        fst r !! i = Some p ->
        p = P + Z.of_nat i
        /\ ((S i < length (fst r))%nat ->
            attemptRetries net p (1 + Z.of_nat i) = true))
  /\ (forall p a,
        snd r = Fatal p a
        <-> exists k : nat,
              a = 1 + Z.of_nat k
              /\ p = P + Z.of_nat k
              /\ a > maxRetries + 1
              /\ forall j : nat, (j < k)%nat ->
                   1 + Z.of_nat j <= maxRetries + 1
                   /\ attemptRetries net (P + Z.of_nat j) (1 + Z.of_nat j)
                      = true)
  /\ (forall p,
        snd r = Bound p
        <-> exists k : nat,
              1 + Z.of_nat k <= maxRetries + 1
              /\ p = P + Z.of_nat k
              /\ attemptBinds net p (1 + Z.of_nat k) = true
              /\ forall j : nat, (j < k)%nat ->
                   attemptRetries net (P + Z.of_nat j) (1 + Z.of_nat j)
                   = true)
  /\ (occupied net P -> occupied net (P + 1) -> occupied net (P + 2) ->
      free net (P + 3) ->
      (3 <= maxRetries -> snd r = Bound (P + 3))
      /\ (maxRetries = 2 -> snd r = Fatal (P + 3) 4)).
Proof.
  intros r. subst r. unfold startHttpServerWithRetry.
  assert (Hfuel : (Z.to_nat (maxRetries + 2 - 1) < S (Z.to_nat (maxRetries + 1)))%nat)
    by lia.
  split; [now apply tryBind_terminates|].
  split; [intros i p; apply tryBind_probes|].
  split; [intros p a; now apply tryBind_Fatal|].
  split; [intros p; now apply tryBind_Bound|].
  intros H0 H1 H2 H3.
  assert (Hretry : forall j : nat, (j < 3)%nat ->
            attemptRetries net (P + Z.of_nat j) (1 + Z.of_nat j) = true).
  { intros j Hj. apply occupied_retries.
    destruct j as [|[|[|j]]]; [| | |lia].
    - now rewrite Z.add_0_r.
    - exact H1.
    - exact H2. }
  split.
  - intros Hm. apply tryBind_Bound; [exact Hfuel|].
    exists 3%nat. split; [lia|]. split; [reflexivity|].
    split; [apply H3 | exact Hretry].
  - intros Hm. apply tryBind_Fatal; [exact Hfuel|].
    exists 3%nat. split; [reflexivity|]. split; [reflexivity|].
    split; [lia|]. intros j Hj. split; [lia | now apply Hretry].
Qed.

End Launcher.

Lemma launcher_probes_sequentially_witness :
  startHttpServerWithRetry busyNetwork 3000 3
  = ([3000; 3001; 3002; 3003], Bound 3003)
  /\ snd (startHttpServerWithRetry busyNetwork 3000 2) = Fatal 3003 4.
Proof.
  split; [reflexivity|].
  destruct (launcher_probes_sequentially busyNetwork 2 3000)
    as (_ & _ & _ & _ & H).
  apply H; try reflexivity; intros attempt; reflexivity.
Defined.

End LauncherSpec.

Module ShutdownSpec.
Import Index.

Lemma handle_serverIsRunning o e p :
  serverIsRunning (handle o e p) = serverIsRunning p.
Proof.
  destruct e; simpl.
  - destruct (phase p); try reflexivity; unfold shutdown;
      destruct (isShuttingDown p), (serverIsRunning p); reflexivity.
  - unfold resume, catchClause, setPhase.
    destruct (phase p), (stopOk o), (telemetryOk o), (loggerCloseOk o);
      reflexivity.
Qed.

Lemma run_serverIsRunning o evs p :
  serverIsRunning (run o evs p) = serverIsRunning p.
Proof.
  revert p. induction evs as [|e evs IH]; intros p; [reflexivity|].
  change (run o (e :: evs) p) with (run o evs (handle o e p)).
  now rewrite IH, handle_serverIsRunning.
Qed.

Lemma handle_consistent o e p :
  consistent o p -> consistent o (handle o e p).
Proof.
  destruct p as [flag running ph l]. destruct o as [s t c c'].
  unfold consistent, handle, shutdown, resume, catchClause, setPhase,
    allStepsOk, proceeded.
  destruct e, ph, flag, running, s, t, c; simpl; intuition congruence.
Qed.

Lemma run_consistent o evs p :
  consistent o p -> consistent o (run o evs p).
Proof.
  revert p. induction evs as [|e evs IH]; intros p Hp; [exact Hp|].
  simpl. apply IH. now apply handle_consistent.
Qed.

(** A call of [shutdown] while one is under way changes nothing. *)
Lemma shutdown_again name p :
  isShuttingDown p = true -> shutdown name p = p.
Proof. intros H. unfold shutdown. now rewrite H. Qed.

Lemma handle_awaitsLeft o e p :
  isShuttingDown p = true /\ phase p <> Idle ->
  (isShuttingDown (handle o e p) = true /\ phase (handle o e p) <> Idle)
  /\ (awaitsLeft (phase (handle o e p))
      <= awaitsLeft (phase p)
         - match e with Settle => 1 | Signal _ => 0 end)%nat.
Proof.
  destruct p as [flag running ph l]. destruct o as [s t c c'].
  unfold handle, shutdown, resume, catchClause, setPhase.
  destruct e, ph, flag, running, s, t, c; simpl; intros [Hf H];
    try discriminate; try contradiction;
    (split; [split; congruence | lia]).
Qed.

Lemma run_awaitsLeft o evs p :
  isShuttingDown p = true /\ phase p <> Idle ->
  (awaitsLeft (phase (run o evs p)) <= awaitsLeft (phase p) - settles evs)%nat.
Proof.
  revert p. induction evs as [|e evs IH]; intros p Hp.
  { unfold run, settles. cbn [fold_left List.filter length]. lia. }
  destruct (handle_awaitsLeft o e p Hp) as [Hne Hle].
  specialize (IH _ Hne).
  change (run o (e :: evs) p) with (run o evs (handle o e p)).
  assert (Hs : settles (e :: evs)
               = (match e with Settle => 1 | Signal _ => 0 end + settles evs)%nat)
    by (now destruct e).
  rewrite Hs. lia.
Qed.

Lemma run_app o evs1 evs2 p :
  run o (evs1 ++ evs2) p = run o evs2 (run o evs1 p).
Proof. unfold run. apply fold_left_app. Qed.

(** C8: whatever signals and faults arrive, and whenever, at most one call
    of [shutdown] proceeds, every call made while the flag is set returns
    at once, the process that exits does so with code 0 when every step it
    ran completed and with code 1 when one of them raised, and the call that
    proceeded does reach [process.exit]. *)
Theorem shutdown_once_and_exit_code
    (o : Outcomes) (serverRunning : bool) (evs : list Event) :
  let p := run o evs (started serverRunning) in
  (proceeded p <= 1)%nat
  /\ (forall name q, isShuttingDown q = true -> handle o (Signal name) q = q)
  /\ (forall code,
        phase p = Exited code ->
        (allStepsOk o (started serverRunning) = true -> code = 0)
        /\ (allStepsOk o (started serverRunning) = false -> code = 1))
  /\ (forall name later,
        (4 <= settles later)%nat ->
        exists code, phase (run o (Signal name :: later) p) = Exited code).
Proof.
  intros p.
  assert (Hc : consistent o p).
  { apply run_consistent. now split. }
  assert (Hrun : serverIsRunning p = serverRunning).
  { subst p. now rewrite run_serverIsRunning. }
  split; [|split; [|split]].
  - unfold consistent in Hc. destruct (phase p); lia.
  - intros name q Hq. simpl.
    destruct (phase q); try reflexivity; now apply shutdown_again.
  - intros code Hp. unfold consistent in Hc. rewrite Hp in Hc.
    destruct Hc as (_ & _ & ->).
    unfold allStepsOk in *. rewrite Hrun. simpl.
    split; intros ->; reflexivity.
  - intros name later Hlater.
    change (run o (Signal name :: later) p)
      with (run o later (handle o (Signal name) p)).
    assert (Hne : isShuttingDown (handle o (Signal name) p) = true
                  /\ phase (handle o (Signal name) p) <> Idle).
    { clear Hlater. unfold consistent in Hc. simpl.
      destruct (phase p) eqn:Hp.
      - destruct Hc as [Hf _]. unfold shutdown. rewrite Hf.
        now destruct (serverIsRunning p).
      - rewrite shutdown_again, Hp by tauto. split; [tauto | congruence].
      - rewrite shutdown_again, Hp by tauto. split; [tauto | congruence].
      - rewrite shutdown_again, Hp by tauto. split; [tauto | congruence].
      - rewrite shutdown_again, Hp by tauto. split; [tauto | congruence].
      - rewrite Hp. split; [tauto | congruence]. }
    pose proof (run_awaitsLeft o later _ Hne) as Hle.
    destruct (phase (run o later (handle o (Signal name) p))) as [| | | | |code];
      [exfalso; destruct Hne as [_ Hne];
       destruct (phase (handle o (Signal name) p)); simpl in Hle;
       (congruence || lia) .. |].
    now exists code.
Qed.

(** SIGTERM and then SIGINT while the server is stopping: one call
    proceeds and the process exits with 0; with a failing [server.stop()] it
    exits with 1. *)
Example shutdown_two_signals :
  let p :=
    run (mkOutcomes true true true true)
      [Signal "SIGTERM"; Signal "SIGINT"; Settle; Signal "SIGINT"; Settle;
       Settle]
      (started true) in
  phase p = Exited 0 /\ proceeded p = 1%nat.
Proof. split; reflexivity. Qed.

Example shutdown_stop_fails :
  phase (run (mkOutcomes false true true false)
           [Signal "uncaughtException"; Settle; Signal "SIGTERM"; Settle]
           (started true))
  = Exited 1.
Proof. reflexivity. Qed.

End ShutdownSpec.

Module GetStudySpec.
Import Types GetStudy Scenarios.

Lemma omap_cons {A B : Type} (f : A -> option B) (x : A) (l : list A) :
  omap f (x :: l)
  = match f x with
    | Some y => y :: omap f l
    | None => omap f l
    end.
Proof. reflexivity. Qed.

Lemma fold_settle summaryOnly calls acc :
  fold_left (settle summaryOnly) calls acc
  = (fst acc ++ omap (fetchedOf summaryOnly) calls,
     snd acc ++ omap errorOf calls).
Proof.
  revert acc. induction calls as [|[id o] calls IH]; intros [ss es].
  - simpl. now rewrite !app_nil_r.
  - cbn [fold_left]. rewrite IH, !omap_cons.
    unfold settle, fetchedOf, errorOf.
    destruct o; cbn [fst snd]; now rewrite <- ?app_assoc.
Qed.

Lemma fetched_or_error summaryOnly calls :
  (length (omap (fetchedOf summaryOnly) calls) + length (omap errorOf calls)
   = length calls)%nat.
Proof.
  induction calls as [|[id o] calls IH]; [reflexivity|].
  rewrite !omap_cons. unfold fetchedOf at 1, errorOf at 1.
  destruct o; cbn [fst snd length]; lia.
Qed.

Lemma no_study_iff_all_failed summaryOnly (calls : list (string * FetchOutcome)) :
  omap (fetchedOf summaryOnly) calls = []
  <-> Forall (fun c => failed (snd c) = true) calls.
Proof.
  induction calls as [|[id o] calls IH]; [now split|].
  rewrite omap_cons, Forall_cons. unfold fetchedOf at 1.
  destruct o; cbn [fst snd failed].
  - split; [discriminate | now intros [? _]].
  - rewrite IH. tauto.
  - rewrite IH. tauto.
Qed.

Lemma no_error_iff_none_failed (calls : list (string * FetchOutcome)) :
  omap errorOf calls = []
  <-> Forall (fun c => failed (snd c) = false) calls.
Proof.
  induction calls as [|[id o] calls IH]; [now split|].
  rewrite omap_cons, Forall_cons. unfold errorOf at 1.
  destruct o; cbn [fst snd failed].
  - rewrite IH. tauto.
  - split; [discriminate | now intros [? _]].
  - split; [discriminate | now intros [? _]].
Qed.

Lemma Forall_failed_perm (b : bool) (l1 l2 : list (string * FetchOutcome)) :
  l1 ≡ₚ l2 ->
  Forall (fun c => failed (snd c) = b) l1 ->
  Forall (fun c => failed (snd c) = b) l2.
Proof. intros Hp. now rewrite Hp. Qed.

(** What [runTool] computes, in terms of the calls in settling order. *)
Lemma runTool_unfold fetchStudy settleOrder input :
  let settled := settleOrder (callsOf fetchStudy input) in
  let studies := omap (fetchedOf (summaryOnly input)) settled in
  let errors := omap errorOf settled in
  runTool fetchStudy settleOrder input
  = if (length studies =? 0)%nat && (0 <? length errors)%nat
    then
      Raised
        ("Failed to fetch any studies. Errors: "
         +:+ join "; " (map (fun e => errorNctId e +:+ ": " +:+ error e) errors))
        errors
    else
      Returned
        {| studies := studies;
           errors := if (0 <? length errors)%nat then Some errors else None |}.
Proof.
  simpl. unfold runTool. fold (callsOf fetchStudy input).
  now rewrite fold_settle.
Qed.

Lemma some_error_iff_some_failed (calls : list (string * FetchOutcome)) :
  omap errorOf calls <> []
  <-> Exists (fun c => failed (snd c) = true) calls.
Proof.
  induction calls as [|[id o] calls IH].
  - split; [now intros H | inversion 1].
  - rewrite omap_cons, Exists_cons. unfold errorOf at 1.
    destruct o; cbn [fst snd failed].
    + rewrite IH. split; [tauto | now intros [?|?]].
    + split; [now left | discriminate].
    + split; [now left | discriminate].
Qed.

Lemma callsOf_length fetchStudy input :
  schemaValid input -> (1 <= length (callsOf fetchStudy input))%nat.
Proof.
  unfold schemaValid, callsOf. rewrite length_imap.
  destruct (nctIds input); simpl; lia.
Qed.

Lemma callsOf_ids fetchStudy input :
  map fst (callsOf fetchStudy input)
  = match nctIds input with
    | inl id => [id]
    | inr ids => ids
    end.
Proof.
  unfold callsOf. generalize (match nctIds input with
                              | inl id => [id] | inr ids => ids end).
  intros ids. revert fetchStudy.
  induction ids as [|id ids IH]; intros fetchStudy; [reflexivity|].
  simpl. f_equal. apply (IH (fun i => fetchStudy (S i))).
Qed.

(** C9: the tool raises exactly when every requested id fails to fetch.
    Otherwise it returns one entry per fetched study, the full study or its
    summary as [summaryOnly] says, with the [errors] field present exactly
    when some id failed and holding one entry per failed id, so that every
    requested id is accounted for once, in [studies] or in [errors]. *)
Theorem get_study_partial_failure
    (fetchStudy : nat -> string -> FetchOutcome)
    (settleOrder : list (string * FetchOutcome) -> list (string * FetchOutcome))
    (input : GetStudyInput) :
  schemaValid input ->
  (forall l, settleOrder l ≡ₚ l) ->
  let calls := callsOf fetchStudy input in
  let result := runTool fetchStudy settleOrder input in
  map fst calls = match nctIds input with inl id => [id] | inr ids => ids end
  /\ ((exists message data, result = Raised message data)
      <-> Forall (fun c => failed (snd c) = true) calls)
  /\ (forall out,
        result = Returned out ->
        studies out ≡ₚ omap (fetchedOf (summaryOnly input)) calls
        /\ (is_Some (errors out)
            <-> Exists (fun c => failed (snd c) = true) calls)
        /\ default [] (errors out) ≡ₚ omap errorOf calls
        /\ (length (studies out) + length (default [] (errors out))
            = length calls)%nat).
Proof.
  intros Hvalid Hperm calls result.
  split; [apply callsOf_ids|].
  subst result. rewrite runTool_unfold. cbv zeta. fold calls.
  pose proof (Hperm calls) as Hp.
  pose proof (fetched_or_error (summaryOnly input) (settleOrder calls)) as Hlen.
  assert (Hcalls : (1 <= length calls)%nat) by now apply callsOf_length.
  assert (Hl : length (settleOrder calls) = length calls) by now rewrite Hp.
  set (ss := omap (fetchedOf (summaryOnly input)) (settleOrder calls)) in *.
  set (es := omap errorOf (settleOrder calls)) in *.
  assert (Hss : ss ≡ₚ omap (fetchedOf (summaryOnly input)) calls)
    by (subst ss; now rewrite Hp).
  assert (Hes : es ≡ₚ omap errorOf calls) by (subst es; now rewrite Hp).
  destruct ss as [|s0 ss'] eqn:Ess; cbn [length Nat.eqb andb].
  - assert (Hall : Forall (fun c => failed (snd c) = true) calls).
    { apply (Forall_failed_perm true (settleOrder calls)); [exact Hp|].
      now apply (no_study_iff_all_failed (summaryOnly input)). }
    destruct es as [|e0 es'] eqn:Ees; [simpl in Hlen; lia|].
    cbn [length Nat.ltb Nat.leb]. split.
    + split; [intros _; exact Hall | intros _; eauto].
    + intros out [=].
  - assert (Hnot : ~ Forall (fun c => failed (snd c) = true) calls).
    { intros Hall.
      apply (Forall_failed_perm true calls (settleOrder calls)) in Hall;
        [|now symmetry].
      apply (no_study_iff_all_failed (summaryOnly input)) in Hall.
      fold ss in Hall. congruence. }
    split.
    + split; [intros (m & d & [=]) | intros H; now destruct Hnot].
    + intros out [= <-]. cbn [studies errors].
      split; [exact Hss|].
      assert (Hex : es <> [] <-> Exists (fun c => failed (snd c) = true) calls).
      { rewrite <- (some_error_iff_some_failed calls). split; intros H Hnil.
        - rewrite Hnil in Hes. apply Permutation_nil_r in Hes. congruence.
        - rewrite Hnil in Hes. symmetry in Hes.
          apply Permutation_nil_r in Hes. congruence. }
      destruct es as [|e0 es'] eqn:Ees; cbn [length Nat.ltb Nat.leb default].
      * split; [|split; [exact Hes | simpl in *; lia]].
        rewrite <- Hex. split; [now intros [? ?] | now intros H].
      * split; [|split; [exact Hes | simpl in *; lia]].
        rewrite <- Hex. split; [discriminate | eauto].
Qed.

Lemma get_study_partial_failure_witness :
  runTool sampleFetch (@rev _) sampleGetStudyInput
  = Returned
      {| studies :=
           [inr (mkSummary (Some "NCT00000001") None None None None None None)];
         errors := Some [mkError "NCT00000002" "Study not found"] |}
  /\ (is_Some (errors
                 {| studies :=
                      [inr (mkSummary (Some "NCT00000001") None None None None
                              None None)];
                    errors := Some [mkError "NCT00000002" "Study not found"] |})
      <-> Exists (fun c => failed (snd c) = true)
            (callsOf sampleFetch sampleGetStudyInput)).
Proof.
  split; [reflexivity|].
  destruct (get_study_partial_failure sampleFetch (@rev _) sampleGetStudyInput)
    as (_ & _ & H).
  - unfold schemaValid. simpl. lia.
  - intros l. symmetry. apply Permutation_rev.
  - destruct (H _ eq_refl) as (_ & Herr & _). exact Herr.
Defined.

End GetStudySpec.

Module FindEligibleSpec.
Import Types FindEligible Scenarios.

Section Eligibility.

Context {utils : Utils}.

(** An iteration pushes a record exactly when the study gets through the
    three checks and has a relevant location. *)
Lemma eligibleStudy_Some input study e :
  eligibleStudy input study = Some e ->
  passesFilter input study = true
  /\ locations e = extractRelevantLocations study (location input)
  /\ locations e <> [].
Proof.
  unfold eligibleStudy, passesFilter.
  destruct (protocolSection study ?. eligibilityModule) as [el|]; [|discriminate].
  destruct (eligible (checkAgeEligibility _ _ _)); [|discriminate].
  destruct (eligible (checkSexEligibility _ _)); [|discriminate].
  destruct (eligible (checkHealthyVolunteerEligibility _ _)); [|discriminate].
  simpl.
  destruct (extractRelevantLocations study (location input)) as [|l ls] eqn:Hl;
    [discriminate|].
  simpl. intros [= <-]. simpl. now repeat split.
Qed.

Lemma eligibleStudy_is_Some input study :
  is_Some (eligibleStudy input study) <-> passesFilter input study = true.
Proof.
  split.
  - intros [e He]. now apply eligibleStudy_Some in He.
  - unfold eligibleStudy, passesFilter.
    destruct (protocolSection study ?. eligibilityModule) as [el|];
      [|discriminate].
    destruct (eligible (checkAgeEligibility _ _ _)); [|discriminate].
    destruct (eligible (checkSexEligibility _ _)); [|discriminate].
    destruct (eligible (checkHealthyVolunteerEligibility _ _)); [|discriminate].
    simpl.
    destruct (extractRelevantLocations study (location input)); [discriminate|].
    simpl. eauto.
Qed.

Lemma filterByEligibility_length studies input :
  length (filterByEligibility studies input)
  = length (List.filter (passesFilter input) studies).
Proof.
  unfold filterByEligibility.
  induction studies as [|study studies IH]; [reflexivity|].
  change (omap (eligibleStudy input) (study :: studies))
    with (match eligibleStudy input study with
          | Some y => y :: omap (eligibleStudy input) studies
          | None => omap (eligibleStudy input) studies
          end).
  simpl List.filter.
  pose proof (eligibleStudy_is_Some input study) as Hiff.
  destruct (eligibleStudy input study) as [e|];
    destruct (passesFilter input study).
  - simpl. now rewrite IH.
  - destruct Hiff as [H _]. discriminate H. eauto.
  - destruct Hiff as [_ H]. destruct (H eq_refl). discriminate.
  - exact IH.
Qed.

Lemma slice0_take {A : Type} (l : list A) (n : Z) :
  0 <= n -> slice0 l n = take (Z.to_nat n) l.
Proof.
  intros Hn. unfold slice0.
  destruct (Z.ltb_spec n 0); [lia|].
  destruct (Z.le_ge_cases n (Z.of_nat (length l))).
  - now rewrite Z.min_l.
  - rewrite Z.min_r, Nat2Z.id by lia.
    rewrite !take_ge; [reflexivity | lia | lia].
Qed.

(** C10: every study the tool returns was built from a study of the
    provider's page that passed the age, sex and healthy-volunteer checks and
    has at least one relevant location; at most [maxResults] studies are
    returned; [totalMatches] is the number of studies of the page that passed
    the filter, and is at least the number returned. *)
Theorem eligible_studies_sound
    (listStudies : SearchParams -> PagedStudies)
    (input : FindEligibleStudiesInput) :
  schemaValid input ->
  (forall l, rankStudies l ≡ₚ l) ->
  let out := runTool listStudies input in
  let page := orElse (pagedStudies (listStudies (searchParamsOf input))) [] in
  (forall e,
     e ∈ eligibleStudies out ->
     exists study,
       study ∈ page
       /\ eligibleStudy input study = Some e
       /\ passesFilter input study = true
       /\ locations e <> [])
  /\ Z.of_nat (length (eligibleStudies out)) <= maxResults input
  /\ totalMatches out
     = Z.of_nat (length (List.filter (passesFilter input) page))
  /\ Z.of_nat (length (eligibleStudies out)) <= totalMatches out.
Proof.
  intros (_ & _ & _ & Hmax) Hrank out page.
  subst out. unfold runTool. fold page. cbn [eligibleStudies totalMatches].
  rewrite slice0_take by lia.
  set (passed := filterByEligibility page input).
  split; [|split; [|split]].
  - intros e He. apply subseteq_take in He. rewrite Hrank in He.
    subst passed. unfold filterByEligibility in He.
    apply list_elem_of_omap in He as (study & Hin & Hs).
    exists study. split; [exact Hin|]. split; [exact Hs|].
    apply eligibleStudy_Some in Hs. tauto.
  - rewrite length_take. lia.
  - subst passed. now rewrite filterByEligibility_length.
  - rewrite length_take, Hrank. lia.
Qed.

End Eligibility.

Lemma eligible_studies_sound_witness :
  let out := runTool (utils := sampleUtils) sampleListStudies sampleEligibleInput in
  map eligibleNctId (eligibleStudies out) = ["NCT00000001"]
  /\ totalMatches out = 2
  /\ Z.of_nat (length (eligibleStudies out)) <= totalMatches out.
Proof.
  split; [reflexivity|]. split; [reflexivity|].
  apply (eligible_studies_sound (utils := sampleUtils) sampleListStudies
           sampleEligibleInput).
  - unfold schemaValid. simpl. repeat split; try lia. right. now left.
  - intros l. apply merge_sort_Permutation.
Defined.

End FindEligibleSpec.

(** * Further properties of the code *)

Module GatewaySpec.
Import Js Http JsFacts GatewayInvariants MoreScenarios.

(** **** [extractSessionIdentity] *)

Lemma whenTruthy_cases (f : option string) :
  (whenTruthy f = None /\ (f = None \/ f = Some ""))
  \/ (exists s, whenTruthy f = Some s /\ f = Some s /\ s <> "").
Proof.
  destruct (whenTruthy f) as [s|] eqn:H.
  - right. exists s. apply whenTruthy_Some in H. tauto.
  - left. split; [reflexivity|]. now apply whenTruthy_None.
Qed.

(** X1: the identity taken from the authentication context is absent exactly
    when the context is absent or none of its three fields holds a
    non-empty string; when present, each of its fields is the corresponding
    non-empty field of the context or is missing, and at least one is
    there. *)
Theorem extractSessionIdentity_populated (authInfo : option AuthInfo) :
  (extractSessionIdentity authInfo = None
   <-> authInfo = None
       \/ exists a, authInfo = Some a
            /\ whenTruthy (authTenantId a) = None
            /\ whenTruthy (authClientId a) = None
            /\ whenTruthy (authSubject a) = None)
  /\ (forall ident,
        extractSessionIdentity authInfo = Some ident ->
        exists a,
          authInfo = Some a
          /\ tenantId ident = whenTruthy (authTenantId a)
          /\ clientId ident = whenTruthy (authClientId a)
          /\ subject ident = whenTruthy (authSubject a)
          /\ tenantId ident <> Some "" /\ clientId ident <> Some ""
          /\ subject ident <> Some ""
          /\ (is_Some (tenantId ident) \/ is_Some (clientId ident)
              \/ is_Some (subject ident))).
Proof.
  destruct authInfo as [a|]; simpl.
  - destruct (whenTruthy_cases (authTenantId a))
      as [[Ht _] | (t & Ht & _ & Hne1)];
    destruct (whenTruthy_cases (authClientId a))
      as [[Hc _] | (c & Hc & _ & Hne2)];
    destruct (whenTruthy_cases (authSubject a))
      as [[Hs _] | (u & Hs & _ & Hne3)];
    rewrite Ht, Hc, Hs; simpl;
    (split;
     [ split;
       [ (intros _; right; exists a; now repeat split) || discriminate
       | intros [H | (a' & [= <-] & H1 & H2 & H3)]; congruence ]
     | intros ident H; try discriminate; injection H as <-; exists a; simpl;
       repeat split; try congruence; try discriminate; eauto 6 ]).
  - split; [split; [now left | reflexivity] | discriminate].
Qed.

Example extractSessionIdentity_drops_empty :
  extractSessionIdentity (Some tenantAuth)
  = Some (mkIdentity (Some "tenant-1") None None).
Proof. reflexivity. Qed.

Section Gateway.

Variable isInitializeRequest : json -> bool.

(** **** What each operation does to the list of transports and to the
    registry *)

Lemma storeGetOrCreate_transports sid ident st :
  transports (storeGetOrCreate sid ident st) = transports st.
Proof.
  unfold storeGetOrCreate, logCall. simpl.
  destruct (sessionStore st); reflexivity.
Qed.

Lemma storeIsValidForIdentity_transports sid ident st :
  transports (snd (storeIsValidForIdentity sid ident st)) = transports st.
Proof.
  unfold storeIsValidForIdentity, logCall. simpl.
  destruct (sessionStore st); reflexivity.
Qed.

Lemma storeTerminate_transports sid st :
  transports (storeTerminate sid st) = transports st.
Proof.
  unfold storeTerminate, logCall. simpl.
  destruct (sessionStore st); reflexivity.
Qed.

Lemma fire_transports t ev st : transports (fire t ev st) = transports st.
Proof.
  unfold fire. destruct (transports st !! t) as [tr|]; [|reflexivity].
  destruct (kind tr); [reflexivity|]. destruct ev as [sid|sid].
  - unfold onsessioninitialized. now rewrite storeGetOrCreate_transports.
  - unfold onsessionclosed. destruct (whenTruthy sid); [|reflexivity].
    now rewrite storeTerminate_transports.
Qed.

Lemma fold_fire_transports t evs st :
  transports (fold_left (fun s ev => fire t ev s) evs st) = transports st.
Proof.
  revert st. induction evs as [|ev evs IH]; intros st; [reflexivity|].
  simpl. now rewrite IH, fire_transports.
Qed.

(** Resolution never writes the registry. *)
Lemma resolve_registry app method header ident body st :
  sessionTransports
    (snd (resolveTransportForRequest isInitializeRequest app method header
            ident body st))
  = sessionTransports st.
Proof.
  unfold resolveTransportForRequest.
  destruct (isStatefulMode app); simpl.
  - destruct (sessionStore st) eqn:Hst; [|reflexivity].
    destruct (whenTruthy header) as [sid|].
    + pose proof (RegistrySpec.storeIsValidForIdentity_registry sid ident st)
        as Hv.
      destruct (fst (storeIsValidForIdentity sid ident st)); simpl;
        [|exact Hv].
      destruct (sessionTransports _ !! sid); simpl; [|exact Hv].
      now rewrite RegistrySpec.storeGetOrCreate_registry.
    + destruct (String.eqb method "POST"); simpl; [|reflexivity].
      destruct (isInitializationPayload isInitializeRequest body); simpl;
        [|reflexivity].
      unfold createStatefulTransport. now rewrite Hst.
  - now destruct (String.eqb method "DELETE").
Qed.

(** Resolution constructs a transport exactly when it answers
    [created = true]; it then is the last of the list, not connected and not
    closed. *)
Lemma resolve_transports app method header ident body st :
  let r :=
    resolveTransportForRequest isInitializeRequest app method header ident
      body st in
  match fst r with
  | Resolved t true =>
      t = length (transports st)
      /\ transports (snd r)
         = transports st
           ++ [mkTransport
                 (if isStatefulMode app then StatefulTransport ident
                  else StatelessTransport) false false]
  | Resolved t false =>
      isStatefulMode app = true
      /\ (exists sid, whenTruthy header = Some sid
                      /\ sessionTransports st !! sid = Some t)
      /\ transports (snd r) = transports st
  | _ => transports (snd r) = transports st
  end.
Proof.
  cbv zeta. unfold resolveTransportForRequest.
  destruct (isStatefulMode app); simpl.
  - destruct (sessionStore st) eqn:Hst; [|reflexivity].
    destruct (whenTruthy header) as [sid|].
    + pose proof (storeIsValidForIdentity_transports sid ident st) as Hv.
      pose proof (RegistrySpec.storeIsValidForIdentity_registry sid ident st)
        as Hr.
      destruct (fst (storeIsValidForIdentity sid ident st)); simpl;
        [|exact Hv].
      destruct (sessionTransports _ !! sid) as [t|] eqn:Ht; simpl;
        [|exact Hv].
      split; [reflexivity|]. split.
      * exists sid. split; [reflexivity|]. now rewrite <- Hr.
      * now rewrite storeGetOrCreate_transports.
    + destruct (String.eqb method "POST"); simpl; [|reflexivity].
      destruct (isInitializationPayload isInitializeRequest body); simpl;
        [|reflexivity].
      unfold createStatefulTransport. rewrite Hst. simpl. now split.
  - destruct (String.eqb method "DELETE"); simpl; [reflexivity | now split].
Qed.

(** **** The registry refers to stateful transports *)

Lemma step_registryWellFormed app st st' :
  step isInitializeRequest app st st' ->
  registryWellFormed st -> registryWellFormed st'.
Proof.
  intros Hstep Hwf. destruct Hstep.
  - intros k t. rewrite resolve_registry. intros Hk.
    destruct (Hwf k t Hk) as (tr & i & Ht & Hkind). exists tr, i.
    split; [|exact Hkind].
    pose proof (resolve_transports app method sid
                  (extractSessionIdentity auth) body st) as Hres.
    cbv zeta in Hres.
    destruct (fst (resolveTransportForRequest _ _ _ _ _ _ _))
      as [? ?|? [|]|?].
    + now rewrite Hres.
    + destruct Hres as [_ ->]. rewrite lookup_app_l; [exact Ht|].
      now apply lookup_lt_Some in Ht.
    + destruct Hres as (_ & _ & ->). exact Ht.
    + now rewrite Hres.
  - intros k t' Hk. destruct (Hwf k t' Hk) as (tr & i & Ht & Hkind).
    simpl. rewrite list_lookup_alter. destruct (decide (t = t')) as [->|Hne].
    + rewrite Ht. simpl. eauto.
    + eauto.
  - intros k t' Hk. rewrite fire_transports.
    unfold fire in Hk. destruct (transports st !! t) as [tr|] eqn:Ht;
      [|now apply Hwf in Hk].
    destruct (kind tr) as [|i] eqn:Hkind; [now apply Hwf in Hk|].
    destruct ev as [x|x].
    + unfold onsessioninitialized in Hk.
      rewrite RegistrySpec.storeGetOrCreate_registry in Hk. simpl in Hk.
      destruct (decide (x = k)) as [->|Hne].
      * rewrite lookup_insert_eq in Hk. injection Hk as <-. eauto.
      * rewrite lookup_insert_ne in Hk by done. now apply Hwf in Hk.
    + unfold onsessionclosed in Hk. destruct (whenTruthy x) as [y|];
        [|now apply Hwf in Hk].
      rewrite RegistrySpec.storeTerminate_registry in Hk. simpl in Hk.
      destruct (decide (y = k)) as [->|Hne].
      * now rewrite lookup_delete_eq in Hk.
      * rewrite lookup_delete_ne in Hk by done. now apply Hwf in Hk.
  - intros k t' Hk. destruct (Hwf k t' Hk) as (tr & i & Ht & Hkind).
    simpl. rewrite list_lookup_alter. destruct (decide (t = t')) as [->|Hne].
    + rewrite Ht. simpl. eauto.
    + eauto.
  - exact Hwf.
Qed.

(** X2: in every state the gateway can reach, in either mode and under any
    interleaving, each session id of the transport registry is bound to a
    transport that exists and that [createStatefulTransport] constructed: the
    registry never holds a dangling reference or a stateless transport. *)
Theorem registry_refers_to_stateful_transports
    (config : Config) (st : AppState) :
  reachable isInitializeRequest config st ->
  registryWellFormed st.
Proof.
  unfold reachable. revert st. apply rtc_ind_r.
  - intros sid t. unfold createHttpApp. simpl. now rewrite lookup_empty.
  - intros y z _ Hyz Hy. eapply step_registryWellFormed; eassumption.
Qed.

(** **** Handling a request is one of the interleavings *)

Lemma rtc_fold_fire app t evs st :
  rtc (step isInitializeRequest app) st
    (fold_left (fun s ev => fire t ev s) evs st).
Proof.
  revert st. induction evs as [|ev evs IH]; intros st; [apply rtc_refl|].
  simpl. eapply rtc_l; [apply step_fire | apply IH].
Qed.

Lemma handleRpc_steps app method header auth body engine st :
  rtc (step isInitializeRequest app) st
    (snd (handleRpc isInitializeRequest app method header
            (extractSessionIdentity auth) body engine st)).
Proof.
  unfold handleRpc.
  set (r := resolveTransportForRequest _ _ _ _ _ _ _).
  assert (Hr : rtc (step isInitializeRequest app) st (snd r))
    by (apply rtc_once; apply step_resolve).
  destruct (fst r) as [? ?|t created|?]; cbn [snd]; try exact Hr.
  assert (Htried :
    rtc (step isInitializeRequest app) st
      (snd (if created && connectFails engine then (false, snd r)
            else (negb (handleRequestFails engine),
                  fold_left (fun s ev => fire t ev s) (events engine)
                    (if created then markConnected t (snd r) else snd r))))).
  { destruct (created && connectFails engine); cbn [snd]; [exact Hr|].
    etrans; [|apply rtc_fold_fire].
    destruct created; [|exact Hr].
    eapply rtc_r; [exact Hr | apply step_connect]. }
  destruct (isStatefulMode app) eqn:Hmode; cbn [negb].
  - exact Htried.
  - eapply rtc_r; [exact Htried | now apply step_close].
Qed.

Lemma mcpEndpoint_steps app req engine st :
  rtc (step isInitializeRequest app) st
    (snd (mcpEndpoint isInitializeRequest app req engine st)).
Proof.
  unfold mcpEndpoint.
  destruct (originGuard app (originHeader req)); [|apply rtc_refl].
  destruct (String.eqb (reqMethod req) "GET" && _); [apply rtc_refl|].
  destruct (String.eqb (reqMethod req) "POST").
  - destruct (jsonBody req); [|apply rtc_refl].
    cbn [snd]. apply handleRpc_steps.
  - cbn [snd]. apply handleRpc_steps.
Qed.

Lemma serve_steps app reqs st :
  rtc (step isInitializeRequest app) st (serve isInitializeRequest app reqs st).
Proof.
  revert st. induction reqs as [|[req engine] reqs IH]; intros st;
    [apply rtc_refl|].
  unfold serve. simpl. etrans; [apply mcpEndpoint_steps | apply IH].
Qed.

(** **** Stateful requests never close a transport *)

Lemma alter_new {A : Type} (f : A -> A) (l : list A) (x : A) :
  alter f (length l) (l ++ [x]) = l ++ [f x].
Proof.
  rewrite <- (Nat.add_0_r (length l)) at 1. now rewrite alter_app_r.
Qed.

(** X4: in stateful mode a request leaves the transports as they are, or
    adds exactly one: the stateful transport constructed for the caller's
    identity, connected unless [connect] threw. No existing transport is
    connected again and [close] is never called. *)
Theorem stateful_request_never_closes
    (app : App) (method : string) (header : option string)
    (ident : option SessionIdentity) (body : unknown) (engine : Engine)
    (st : AppState) :
  isStatefulMode app = true ->
  let r :=
    handleRpc isInitializeRequest app method header ident body engine st in
  transports (snd r) = transports st
  \/ transports (snd r)
     = transports st
       ++ [mkTransport (StatefulTransport ident) (negb (connectFails engine))
             false].
Proof.
  intros Hmode. cbv zeta. unfold handleRpc.
  pose proof (resolve_transports app method header ident body st) as Hres.
  cbv zeta in Hres.
  set (r := resolveTransportForRequest _ _ _ _ _ _ _) in *.
  rewrite Hmode in *. cbn [negb].
  destruct (fst r) as [? ?|t [|]|?]; cbn [snd]; try (now left).
  - destruct Hres as [-> Heq]. right.
    destruct (connectFails engine); cbn [andb snd negb]; [exact Heq|].
    rewrite fold_fire_transports. unfold markConnected. cbn [transports withTransports].
    rewrite Heq, alter_new. reflexivity.
  - destruct Hres as (_ & _ & Heq). left. cbn [andb snd].
    now rewrite fold_fire_transports.
Qed.

(** **** Rejections have no side effect on the transports *)






(** **** Sessions the engine has closed *)

Lemma fire_closed_registry t tr ident0 sid st :
  transports st !! t = Some tr -> kind tr = StatefulTransport ident0 ->
  sid <> "" ->
  sessionTransports (fire t (SessionClosed (Some sid)) st)
  = delete sid (sessionTransports st).
Proof.
  intros Ht Hk Hsid. unfold fire. rewrite Ht, Hk. unfold onsessionclosed.
  assert (Hw : whenTruthy (Some sid) = Some sid)
    by (apply whenTruthy_Some; now split).
  rewrite Hw. now rewrite RegistrySpec.storeTerminate_registry.
Qed.

Lemma fire_closed_store t ev st :
  is_Some (sessionStore st) -> is_Some (sessionStore (fire t ev st)).
Proof.
  intros [store Hst]. unfold fire.
  destruct (transports st !! t) as [tr|]; [|eauto].
  destruct (kind tr); [eauto|]. destruct ev as [x|x].
  - unfold onsessioninitialized. rewrite RegistrySpec.storeGetOrCreate_store.
    simpl. rewrite Hst. simpl. eauto.
  - unfold onsessionclosed. destruct (whenTruthy x); [|eauto].
    rewrite RegistrySpec.storeTerminate_store. simpl. rewrite Hst. simpl. eauto.
Qed.

(** A session id without a registered transport is answered 404, whatever
    the session store says about it. *)
Lemma resolve_unregistered app method sid ident body st :
  isStatefulMode app = true ->
  is_Some (sessionStore st) ->
  sid <> "" ->
  sessionTransports st !! sid = None ->
  fst (resolveTransportForRequest isInitializeRequest app method (Some sid)
         ident body st)
  = Response 404 "Session not found or expired".
Proof.
  intros Hmode [store Hst] Hsid Hnone.
  assert (Hw : whenTruthy (Some sid) = Some sid)
    by (apply whenTruthy_Some; now split).
  unfold resolveTransportForRequest. rewrite Hmode, Hst, Hw. simpl negb.
  cbv iota.
  destruct (fst (storeIsValidForIdentity sid ident st)); simpl;
    [|reflexivity].
  now rewrite RegistrySpec.storeIsValidForIdentity_registry, Hnone.
Qed.

(** X6: once the engine has signalled the closure of a session on a
    stateful transport, the session id is gone from the registry, and a
    request that presents it, with any method, body and identity, is
    answered 404 "Session not found or expired" without a transport being
    constructed. *)
Theorem closed_session_is_not_resumed
    (app : App) (method sid : string) (ident : option SessionIdentity)
    (body : unknown) (st : AppState) (t : nat) (tr : Transport)
    (ident0 : option SessionIdentity) :
  isStatefulMode app = true ->
  is_Some (sessionStore st) ->
  sid <> "" ->
  transports st !! t = Some tr ->
  kind tr = StatefulTransport ident0 ->
  let closed := fire t (SessionClosed (Some sid)) st in
  let r :=
    resolveTransportForRequest isInitializeRequest app method (Some sid)
      ident body closed in
  sessionTransports closed !! sid = None
  /\ fst r = Response 404 "Session not found or expired"
  /\ transports (snd r) = transports st.
Proof.
  intros Hmode Hstore Hsid Ht Hk closed r.
  assert (Hreg : sessionTransports closed !! sid = None).
  { subst closed. rewrite (fire_closed_registry t tr ident0) by assumption.
    apply lookup_delete_eq. }
  assert (Hres : fst r = Response 404 "Session not found or expired").
  { subst r. apply resolve_unregistered; try assumption.
    subst closed. now apply fire_closed_store. }
  split; [exact Hreg|]. split; [exact Hres|].
  pose proof (resolve_transports app method (Some sid) ident body closed)
    as Htr.
  cbv zeta in Htr. fold r in Htr. rewrite Hres in Htr. rewrite Htr.
  subst closed. apply fire_transports.
Qed.

(** X7: registering a session and closing it again is a round trip on the
    registry: after the engine has signalled initialization and then
    closure of the same non-empty id on a stateful transport, the registry
    holds no entry for the id and every other entry is as before; if the
    id was not registered before, the registry is exactly as before. *)
Theorem register_then_close_round_trip
    (st : AppState) (t : nat) (tr : Transport)
    (ident0 : option SessionIdentity) (sid : string) :
  transports st !! t = Some tr ->
  kind tr = StatefulTransport ident0 ->
  sid <> "" ->
  let opened := fire t (SessionInitialized sid) st in
  let closed := fire t (SessionClosed (Some sid)) opened in
  sessionTransports opened !! sid = Some t
  /\ sessionTransports closed = delete sid (sessionTransports st)
  /\ (sessionTransports st !! sid = None ->
      sessionTransports closed = sessionTransports st).
Proof.
  intros Ht Hk Hsid opened closed.
  assert (Hopen : sessionTransports opened
                  = <[sid := t]> (sessionTransports st)).
  { subst opened. unfold fire. rewrite Ht, Hk. unfold onsessioninitialized.
    now rewrite RegistrySpec.storeGetOrCreate_registry. }
  assert (Hclosed : sessionTransports closed
                    = delete sid (sessionTransports st)).
  { subst closed. rewrite (fire_closed_registry t tr ident0); try assumption.
    - rewrite Hopen. apply delete_insert_eq.
    - subst opened. now rewrite fire_transports. }
  split; [rewrite Hopen; apply lookup_insert_eq|].
  split; [exact Hclosed|].
  intros Hnone. rewrite Hclosed. now apply delete_id.
Qed.

End Gateway.

Lemma afterInit_reachable :
  reachable looksLikeInitialize tenantConfig afterInit.
Proof.
  unfold reachable.
  apply (serve_steps looksLikeInitialize tenantApp
           [(mkRequest "POST" (Some "https://a.example") None None
               (Some (JObj [("jsonrpc", JStr "2.0");
                            ("method", JStr "initialize")]))
               (Some tenantAuth),
             mkEngine false [SessionInitialized "sess-1"] false)]).
Qed.

(** The error handler's answer does not undo what was done before the
    throw: the session the engine registered while [handleRequest] ran stays
    registered, on the transport constructed for the request. *)
Example server_error_keeps_the_session :
  let r :=
    mcpEndpoint looksLikeInitialize tenantApp
      (mkRequest "POST" (Some "https://a.example") None None
         (Some (JObj [("jsonrpc", JStr "2.0"); ("method", JStr "initialize")]))
         (Some tenantAuth))
      (mkEngine false [SessionInitialized "sess-1"] true)
      (snd (createHttpApp tenantConfig)) in
  fst r = ServerError
  /\ length (transports (snd r)) = 1%nat
  /\ sessionTransports (snd r) !! "sess-1" = Some 0%nat.
Proof. cbv zeta. repeat split; vm_compute; reflexivity. Qed.

Lemma registry_refers_to_stateful_transports_witness :
  registryWellFormed afterInit
  /\ sessionTransports afterInit !! "sess-1" = Some 0%nat.
Proof.
  split; [|reflexivity].
  apply (registry_refers_to_stateful_transports looksLikeInitialize
           tenantConfig afterInit).
  exact afterInit_reachable.
Defined.

Lemma stateful_request_never_closes_witness :
  transports afterInit
  = [mkTransport
       (StatefulTransport (Some (mkIdentity (Some "tenant-1") None None)))
       true false].
Proof.
  destruct (stateful_request_never_closes looksLikeInitialize tenantApp "POST"
              None (extractSessionIdentity (Some tenantAuth))
              (Parsed (JObj [("jsonrpc", JStr "2.0");
                             ("method", JStr "initialize")]))
              (mkEngine false [SessionInitialized "sess-1"] false)
              (snd (createHttpApp tenantConfig)) eq_refl) as [H|H].
  - discriminate H.
  - exact H.
Defined.

Lemma closed_session_is_not_resumed_witness :
  fst (resolveTransportForRequest looksLikeInitialize tenantApp "GET"
         (Some "sess-1") (extractSessionIdentity (Some tenantAuth)) Undefined
         (fire 0 (SessionClosed (Some "sess-1")) afterInit))
  = Response 404 "Session not found or expired".
Proof.
  apply (closed_session_is_not_resumed looksLikeInitialize tenantApp "GET"
           "sess-1" (extractSessionIdentity (Some tenantAuth)) Undefined
           afterInit 0
           (mkTransport
              (StatefulTransport (Some (mkIdentity (Some "tenant-1") None None)))
              true false)
           (Some (mkIdentity (Some "tenant-1") None None)));
    [reflexivity | now eexists | discriminate | reflexivity | reflexivity].
Defined.

Lemma register_then_close_round_trip_witness :
  sessionTransports
    (fire 0 (SessionClosed (Some "sess-2"))
       (fire 0 (SessionInitialized "sess-2") afterInit))
  = sessionTransports afterInit.
Proof.
  apply (register_then_close_round_trip afterInit 0
           (mkTransport
              (StatefulTransport (Some (mkIdentity (Some "tenant-1") None None)))
              true false)
           (Some (mkIdentity (Some "tenant-1") None None)) "sess-2");
    [reflexivity | reflexivity | discriminate | reflexivity].
Defined.

End GatewaySpec.

Module LauncherMore.
Import Http MoreScenarios.

Section Launcher.

Variable net : Network.
Variable maxRetries : Z.

Lemma tryBind_probe_count fuel port attempt :
  (length (fst (tryBind fuel net maxRetries port attempt))
   <= Z.to_nat (maxRetries + 2 - attempt))%nat.
Proof.
  revert port attempt. induction fuel as [|fuel IH]; intros port attempt;
    [simpl; lia|].
  rewrite LauncherSpec.tryBind_step.
  destruct (Z.gtb_spec attempt (maxRetries + 1)); [simpl; lia|].
  destruct (attemptRetries net port attempt).
  - cbn [fst length]. specialize (IH (port + 1) (attempt + 1)). lia.
  - destruct (attemptBinds net port attempt); cbn [fst length]; lia.
Qed.

(** X8: the launcher probes at most [maxRetries + 1] ports; a port it binds
    lies between the configured port and the configured port plus
    [maxRetries]; and with a negative [maxRetries] it probes nothing and
    reports the fatal failure at once. *)
Theorem launcher_probe_budget (P : Z) :
  let r := startHttpServerWithRetry net P maxRetries in
  (length (fst r) <= Z.to_nat (maxRetries + 1))%nat
  /\ (forall p, snd r = Bound p -> P <= p <= P + maxRetries)
  /\ (maxRetries < 0 -> r = ([], Fatal P 1)).
Proof.
  cbv zeta. unfold startHttpServerWithRetry. split; [|split].
  - pose proof (tryBind_probe_count (S (Z.to_nat (maxRetries + 1))) P 1).
    replace (maxRetries + 2 - 1) with (maxRetries + 1) in H by lia. exact H.
  - intros p Hp. apply LauncherSpec.tryBind_Bound in Hp; [|lia].
    destruct Hp as (k & Hk & -> & _). lia.
  - intros Hneg. rewrite LauncherSpec.tryBind_step.
    destruct (Z.gtb_spec 1 (maxRetries + 1)); [reflexivity | lia].
Qed.

(** X9: of the outcomes of the port probe only the error code [EADDRINUSE]
    makes the launcher move on. When the probe of the configured port
    listens, or fails with any other code, and [serve] returns without
    throwing, the launcher probes the configured port only and resolves its
    promise with the server instance [serve] returned for that port,
    provided [maxRetries] is not negative. Whether that server ever listens
    is not looked at: the launcher resolves as soon as [serve] has
    returned. *)
Theorem launcher_resolves_unless_in_use (P : Z) :
  0 <= maxRetries ->
  probe net P 1 <> ProbeError "EADDRINUSE" ->
  probe net P 1 <> ProbeThrows ->
  serveThrows net P 1 = false ->
  startHttpServerWithRetry net P maxRetries = ([P], Bound P).
Proof.
  intros Hm Hinuse Hthrows Hserve.
  unfold startHttpServerWithRetry. rewrite LauncherSpec.tryBind_step.
  destruct (Z.gtb_spec 1 (maxRetries + 1)); [lia|].
  unfold attemptRetries, attemptBinds, isPortInUse.
  destruct (probe net P 1) as [|code|]; [| |contradiction].
  - now rewrite Hserve.
  - destruct (String.eqb_spec code "EADDRINUSE") as [->|Hne];
      [contradiction|].
    now rewrite Hserve.
Qed.

(** When the launch is rejected without the fatal report. *)
Lemma tryBind_Rejected fuel port attempt :
  (Z.to_nat (maxRetries + 2 - attempt) < fuel)%nat ->
  snd (tryBind fuel net maxRetries port attempt) = Rejected
  <-> exists k : nat,
        attempt + Z.of_nat k <= maxRetries + 1
        /\ isPortInUse net (port + Z.of_nat k) (attempt + Z.of_nat k) = None
        /\ forall j : nat, (j < k)%nat ->
             attemptRetries net (port + Z.of_nat j) (attempt + Z.of_nat j)
             = true.
Proof.
  revert port attempt. induction fuel as [|fuel IH]; intros port attempt Hf;
    [lia|].
  rewrite LauncherSpec.tryBind_step.
  destruct (Z.gtb_spec attempt (maxRetries + 1)) as [Hgt|Hle].
  { split; [discriminate|]. intros (k & Hk & _). lia. }
  destruct (attemptRetries net port attempt) eqn:Hr.
  - cbn [snd]. rewrite IH by lia. split.
    + intros (k & Hk & Hb & Hj). exists (S k).
      split; [lia|].
      split; [now replace (port + Z.of_nat (S k))
                with (port + 1 + Z.of_nat k) by lia;
              replace (attempt + Z.of_nat (S k))
                with (attempt + 1 + Z.of_nat k) by lia|].
      intros [|j] Hlt; [now rewrite !Z.add_0_r|].
      replace (port + Z.of_nat (S j)) with (port + 1 + Z.of_nat j) by lia.
      replace (attempt + Z.of_nat (S j)) with (attempt + 1 + Z.of_nat j) by lia.
      apply Hj. lia.
    + intros (k & Hk & Hb & Hj). destruct k as [|k].
      * rewrite !Z.add_0_r in Hb. unfold attemptRetries in Hr.
        now rewrite Hb in Hr.
      * exists k. split; [lia|].
        split; [now replace (port + 1 + Z.of_nat k)
                  with (port + Z.of_nat (S k)) by lia;
                replace (attempt + 1 + Z.of_nat k)
                  with (attempt + Z.of_nat (S k)) by lia|].
        intros j Hlt.
        replace (port + 1 + Z.of_nat j) with (port + Z.of_nat (S j)) by lia.
        replace (attempt + 1 + Z.of_nat j) with (attempt + Z.of_nat (S j)) by lia.
        apply Hj. lia.
  - assert (Hzero : forall k : nat,
              (forall j : nat, (j < k)%nat ->
                 attemptRetries net (port + Z.of_nat j) (attempt + Z.of_nat j)
                 = true) -> k = 0%nat).
    { intros [|k] Hj; [reflexivity|].
      specialize (Hj 0%nat ltac:(lia)). rewrite !Z.add_0_r in Hj. congruence. }
    destruct (attemptBinds net port attempt) eqn:Hb; cbn [snd].
    + split; [discriminate|].
      intros (k & _ & Hnone & Hj). rewrite (Hzero k Hj), !Z.add_0_r in Hnone.
      unfold attemptBinds in Hb. now rewrite Hnone in Hb.
    + split; [|reflexivity]. intros _. exists 0%nat. rewrite !Z.add_0_r.
      split; [lia|]. split; [|intros j Hj; lia].
      unfold attemptRetries, attemptBinds in *.
      destruct (isPortInUse net port attempt) as [[|]|]; try discriminate;
        [|reflexivity].
      destruct (serveThrows net port attempt); discriminate.
Qed.

(** X10: the launch fails without the fatal report exactly when, within the
    retry budget, every attempt before some attempt moved on and the probe
    of that attempt threw; so a launch always ends in one of three ways:
    bound, fatal after the budget, or rejected by a throwing probe. *)
Theorem launcher_rejected_iff (P : Z) :
  let r := startHttpServerWithRetry net P maxRetries in
  (snd r = Rejected
   <-> exists k : nat,
         Z.of_nat k <= maxRetries
         /\ isPortInUse net (P + Z.of_nat k) (1 + Z.of_nat k) = None
         /\ forall j : nat, (j < k)%nat ->
              attemptRetries net (P + Z.of_nat j) (1 + Z.of_nat j) = true)
  /\ ((exists p, snd r = Bound p) \/ (exists p a, snd r = Fatal p a)
      \/ snd r = Rejected).
Proof.
  cbv zeta. unfold startHttpServerWithRetry. split.
  - rewrite tryBind_Rejected by lia. split.
    + intros (k & Hk & H). exists k. split; [lia | exact H].
    + intros (k & Hk & H). exists k. split; [lia | exact H].
  - pose proof (LauncherSpec.tryBind_terminates net maxRetries
                  (S (Z.to_nat (maxRetries + 1))) P 1 ltac:(lia)) as Hfuel.
    destruct (snd (tryBind _ net maxRetries P 1)) as [p|p a| |]; eauto.
    now destruct Hfuel.
Qed.

End Launcher.

Lemma launcher_resolves_unless_in_use_witness :
  startHttpServerWithRetry privilegedNetwork 80 3 = ([80], Bound 80).
Proof.
  apply (launcher_resolves_unless_in_use privilegedNetwork 3 80);
    [lia | discriminate | discriminate | reflexivity].
Defined.

Example launcher_port_out_of_range :
  startHttpServerWithRetry edgeNetwork 65535 5 = ([65535; 65536], Rejected).
Proof. reflexivity. Qed.

End LauncherMore.

Module TrendsSpec.
Import Js Types Provider Trends JsFacts.

(** **** Counting into the result object *)

Lemma inherited_proto : inherited "__proto__" = true.
Proof. reflexivity. Qed.

Lemma bump_plain k m :
  inherited k = false -> numeric m ->
  bump k m = <[k := Number (countOf m k + 1)]> m.
Proof.
  intros Hk Hm. unfold bump, countOf.
  destruct (m !! k) as [[n|]|] eqn:Hl.
  - reflexivity.
  - destruct (Hm k NotNumber Hl) as [n Hn]. discriminate.
  - destruct (String.eqb_spec k "__proto__") as [->|_];
      [rewrite inherited_proto in Hk; discriminate|].
    now rewrite Hk.
Qed.

Lemma numeric_insert k n m : numeric m -> numeric (<[k := Number n]> m).
Proof.
  intros Hm k' c. destruct (decide (k = k')) as [->|Hne].
  - rewrite lookup_insert_eq. intros [= <-]. eauto.
  - rewrite lookup_insert_ne by done. apply Hm.
Qed.

Lemma countOf_insert k n m k' :
  countOf (<[k := Number n]> m) k'
  = if String.eqb k' k then n else countOf m k'.
Proof.
  unfold countOf. destruct (String.eqb_spec k' k) as [->|Hne].
  - now rewrite lookup_insert_eq.
  - now rewrite lookup_insert_ne by congruence.
Qed.

Lemma sumOfCounts_comm (z1 z2 : Count) (y : Z) :
  match z1 with Number n => n + match z2 with Number n' => n' + y | NotNumber => y end
              | NotNumber => match z2 with Number n' => n' + y | NotNumber => y end end
  = match z2 with Number n => n + match z1 with Number n' => n' + y | NotNumber => y end
                | NotNumber => match z1 with Number n' => n' + y | NotNumber => y end end.
Proof. destruct z1, z2; lia. Qed.

Lemma sumOfCounts_insert k m :
  sumOfCounts (<[k := Number (countOf m k + 1)]> m) = sumOfCounts m + 1.
Proof.
  unfold sumOfCounts, countOf.
  destruct (m !! k) as [c|] eqn:Hl.
  - rewrite <- insert_delete_eq.
    rewrite map_fold_insert_L;
      [| intros; apply sumOfCounts_comm | apply lookup_delete_eq].
    rewrite (map_fold_delete_L _ _ k c m);
      [| intros; apply sumOfCounts_comm | exact Hl].
    destruct c; lia.
  - rewrite map_fold_insert_L;
      [| intros; apply sumOfCounts_comm | exact Hl].
    lia.
Qed.

Lemma occurrences_cons k x keys :
  occurrences k (x :: keys)
  = (if String.eqb k x then 1 else 0) + occurrences k keys.
Proof.
  unfold occurrences. simpl. destruct (String.eqb k x); simpl; lia.
Qed.

(** Counting a list of ordinary categories, one after the other. *)
Lemma fold_bump keys m :
  numeric m ->
  Forall (fun k => inherited k = false) keys ->
  let m' := fold_left (fun r k => bump k r) keys m in
  numeric m'
  /\ (forall k, countOf m' k = countOf m k + occurrences k keys)
  /\ sumOfCounts m' = sumOfCounts m + Z.of_nat (length keys).
Proof.
  revert m. induction keys as [|x keys IH]; intros m Hm Hkeys.
  - simpl. split; [exact Hm|]. split; [intros k; unfold occurrences; simpl; lia | lia].
  - apply Forall_cons in Hkeys as [Hx Hkeys]. cbn [fold_left].
    rewrite (bump_plain x m Hx Hm).
    destruct (IH (<[x := Number (countOf m x + 1)]> m)
                (numeric_insert _ _ _ Hm) Hkeys) as (Hn & Hc & Hs).
    split; [exact Hn|]. split.
    + intros k. rewrite Hc, countOf_insert, occurrences_cons.
      destruct (String.eqb_spec k x) as [->|_]; lia.
    + rewrite Hs, sumOfCounts_insert. cbn [length]. lia.
Qed.

Lemma fold_left_map {A B C : Type} (f : A -> C -> A) (g : B -> C)
    (l : list B) (a : A) :
  fold_left f (map g l) a = fold_left (fun r x => f r (g x)) l a.
Proof. revert a. induction l as [|x l IH]; intros a; [reflexivity|]. apply IH. Qed.

(** One iteration of the loop counts the study under each of its
    categories. *)
Lemma countStudy_categories type m study :
  countStudy type m study
  = fold_left (fun r k => bump k r) (categories type study) m.
Proof.
  unfold countStudy, categories. destruct type.
  - unfold whenTruthy. now destruct (truthy_str _).
  - destruct (locationCountries study) as [locs|]; [|reflexivity].
    simpl. now rewrite fold_left_map.
  - unfold whenTruthy. now destruct (truthy_str _).
  - now rewrite fold_left_map.
  - now destruct (whenTruthy (startDate study)).
  - destruct (whenTruthy (startDate study)) as [d|]; [|reflexivity].
    now destruct (7 <=? String.length d)%nat.
Qed.

Lemma fold_countStudy type studies m :
  fold_left (countStudy type) studies m
  = fold_left (fun r k => bump k r) (flat_map (categories type) studies) m.
Proof.
  revert m. induction studies as [|study studies IH]; intros m;
    [reflexivity|].
  cbn [fold_left flat_map]. rewrite fold_left_app, IH.
  now rewrite countStudy_categories.
Qed.

Lemma plainCategories_flat type studies :
  plainCategories type studies ->
  Forall (fun k => inherited k = false) (flat_map (categories type) studies).
Proof.
  induction 1 as [|study studies Hs _ IH]; [constructor|].
  cbn [flat_map]. apply Forall_app. now split.
Qed.

Lemma numeric_empty : numeric ∅.
Proof. intros k c. now rewrite lookup_empty. Qed.

(** X11: for studies whose categories are ordinary names, the result of an
    analysis holds, for every category, the number of times a study falls
    under it, and nothing else: every property is a number, a category no
    study falls under is missing, and the counts sum to the number of
    category occurrences. *)
Theorem analysis_counts_occurrences
    (allStudies : list Study) (type : AnalysisType) :
  plainCategories type allStudies ->
  let r := analyze allStudies type in
  let keys := flat_map (categories type) allStudies in
  analysisType r = type
  /\ totalStudies r = Z.of_nat (length allStudies)
  /\ numeric (results r)
  /\ (forall k, countOf (results r) k = occurrences k keys)
  /\ (forall k, results r !! k = None <-> ~ In k keys)
  /\ sumOfCounts (results r) = Z.of_nat (length keys).
Proof.
  intros Hplain r keys. subst r. unfold analyze. cbn [analysisType totalStudies results].
  rewrite fold_countStudy. fold keys.
  destruct (fold_bump keys ∅ numeric_empty (plainCategories_flat _ _ Hplain))
    as (Hn & Hc & Hs).
  split; [reflexivity|]. split; [reflexivity|]. split; [exact Hn|].
  assert (Hcount : forall k,
            countOf (fold_left (fun r k0 => bump k0 r) keys ∅) k
            = occurrences k keys).
  { intros k. rewrite Hc.
    assert (H0 : countOf ∅ k = 0) by (unfold countOf; now rewrite lookup_empty).
    rewrite H0. lia. }
  split; [exact Hcount|]. split.
  - intros k. split.
    + intros Hnone Hin.
      specialize (Hcount k). unfold countOf in Hcount. rewrite Hnone in Hcount.
      unfold occurrences in Hcount.
      assert (Hf : In k (List.filter (String.eqb k) keys))
        by (apply filter_In; split; [exact Hin | apply String.eqb_refl]).
      destruct (List.filter (String.eqb k) keys); [contradiction|].
      simpl in Hcount. lia.
    + intros Hnot.
      assert (Hgen : forall (l : list string) (m : gmap string Count),
                ~ In k l -> m !! k = None ->
                fold_left (fun r k0 => bump k0 r) l m !! k = None).
      { clear. induction l as [|x l IH]; intros m Hl Hm; [exact Hm|].
        cbn [fold_left]. apply IH; [intros H; apply Hl; now right|].
        assert (Hne : x <> k) by (intros ->; apply Hl; now left).
        unfold bump.
        destruct (m !! x) as [[n|]|];
          [now rewrite lookup_insert_ne | now rewrite lookup_insert_ne |].
        destruct (String.eqb x "__proto__"); [exact Hm|].
        destruct (inherited x); now rewrite lookup_insert_ne. }
      apply Hgen; [exact Hnot | apply lookup_empty].
  - rewrite Hs. unfold sumOfCounts. now rewrite map_fold_empty.
Qed.

(** X12: the year and the month analyses count every study exactly once, so
    their counts sum to [totalStudies]; the status and the sponsor-type
    analyses skip the studies whose status, or sponsor class, is the empty
    string, so their counts sum to the number of the other studies, which
    is at most [totalStudies]. *)
Theorem counts_against_total
    (allStudies : list Study) (type : AnalysisType) :
  plainCategories type allStudies ->
  let r := analyze allStudies type in
  match type with
  | CountByYear | CountByMonth => sumOfCounts (results r) = totalStudies r
  | CountByStatus =>
      sumOfCounts (results r)
      = Z.of_nat (length (List.filter
                            (fun s => negb (bool_decide (overallStatus s = Some "")))
                            allStudies))
      /\ sumOfCounts (results r) <= totalStudies r
  | CountBySponsorType =>
      sumOfCounts (results r)
      = Z.of_nat (length (List.filter
                            (fun s => negb (bool_decide (leadSponsorClass s = Some "")))
                            allStudies))
      /\ sumOfCounts (results r) <= totalStudies r
  | CountByCountry | CountByPhase => True
  end.
Proof.
  intros Hplain r. subst r. unfold analyze. cbn [results totalStudies].
  rewrite fold_countStudy.
  destruct (fold_bump (flat_map (categories type) allStudies) ∅ numeric_empty
              (plainCategories_flat _ _ Hplain)) as (_ & _ & Hs).
  rewrite Hs. clear Hs Hplain.
  assert (Hempty : sumOfCounts ∅ = 0)
    by (unfold sumOfCounts; now rewrite map_fold_empty).
  rewrite Hempty.
  assert (Hkey : forall (field : Study -> option string),
    (length (flat_map
               (fun study =>
                  match whenTruthy (Some (orElse (field study) "Unknown")) with
                  | Some k => [k]
                  | None => []
                  end) allStudies)
     = length (List.filter
                 (fun s => negb (bool_decide (field s = Some ""))) allStudies))
    /\ (length (List.filter
                  (fun s => negb (bool_decide (field s = Some ""))) allStudies)
        <= length allStudies)%nat).
  { intros field. induction allStudies as [|study studies [IH1 IH2]];
      [now split|].
    cbn [flat_map List.filter]. rewrite length_app, IH1.
    destruct (field study) as [x|] eqn:Hf; cbn [orElse].
    - unfold whenTruthy. simpl.
      destruct (String.eqb_spec x "") as [->|Hne]; simpl.
      + split; lia.
      + case_bool_decide; [congruence|]. simpl. split; lia.
    - case_bool_decide; [discriminate|]. simpl. split; lia. }
  assert (Hone : forall (f : Study -> list string) (l : list Study),
            (forall study, length (f study) = 1%nat) ->
            length (flat_map f l) = length l).
  { intros f l Hf. induction l as [|study studies IH]; [reflexivity|].
    cbn [flat_map]. rewrite length_app, IH, Hf. reflexivity. }
  destruct type; try exact I.
  - destruct (Hkey overallStatus) as [H1 H2].
    unfold categories at 1 2. rewrite H1. split; lia.
  - destruct (Hkey leadSponsorClass) as [H1 H2].
    unfold categories at 1 2. rewrite H1. split; lia.
  - rewrite Hone; [lia|]. intros study. unfold categories.
    now destruct (whenTruthy (startDate study)).
  - rewrite Hone; [lia|]. intros study. unfold categories.
    destruct (whenTruthy (startDate study)) as [d|]; [|reflexivity].
    now destruct (7 <=? String.length d)%nat.
Qed.

(** **** Fetching the studies *)

Lemma whenTruthy_idem (x : option string) :
  whenTruthy (whenTruthy x) = whenTruthy x.
Proof.
  unfold whenTruthy. destruct (truthy_str x) eqn:H; [now rewrite H | reflexivity].
Qed.

Lemma pageParams_whenTruthy query filter tok size :
  pageParams query filter (whenTruthy tok) size
  = pageParams query filter tok size.
Proof. unfold pageParams. now rewrite whenTruthy_idem. Qed.

Lemma fetchPages_step fuel listStudies query filter total allStudies tok :
  fetchPages (S fuel) listStudies query filter total allStudies tok
  = let allStudies' := allStudies ++ pageAt listStudies query filter tok in
    let tok' := tokenAfter listStudies query filter tok in
    if truthy_str tok' && (Z.of_nat (length allStudies') <? total)
    then (whenTruthy tok
            :: fst (fetchPages fuel listStudies query filter total
                      allStudies' tok'),
          snd (fetchPages fuel listStudies query filter total allStudies' tok'))
    else ([whenTruthy tok], FetchedAll allStudies').
Proof.
  cbn [fetchPages]. unfold pageAt, tokenAfter.
  destruct (studies (listStudies (pageParams query filter tok 1000)));
    cbn [orElse]; rewrite ?app_nil_r; reflexivity.
Qed.

(** What the loop returns when it ends. *)
Lemma fetchPages_result fuel listStudies query filter total allStudies tok l :
  snd (fetchPages fuel listStudies query filter total allStudies tok)
  = FetchedAll l ->
  let requests :=
    fst (fetchPages fuel listStudies query filter total allStudies tok) in
  l = allStudies ++ concat (map (pageAt listStudies query filter) requests)
  /\ head requests = Some (whenTruthy tok)
  /\ chained listStudies query filter requests
  /\ (forall lastTok,
        last requests = Some lastTok ->
        truthy_str (tokenAfter listStudies query filter lastTok) = false
        \/ total <= Z.of_nat (length l)).
Proof.
  revert allStudies tok. induction fuel as [|fuel IH]; intros allStudies tok;
    [discriminate|].
  rewrite fetchPages_step. cbv zeta.
  assert (Hpage : pageAt listStudies query filter (whenTruthy tok)
                  = pageAt listStudies query filter tok)
    by (unfold pageAt; now rewrite pageParams_whenTruthy).
  assert (Htok : tokenAfter listStudies query filter (whenTruthy tok)
                 = tokenAfter listStudies query filter tok)
    by (unfold tokenAfter; now rewrite pageParams_whenTruthy).
  destruct (truthy_str _ && _) eqn:Hmore; cbn [fst snd].
  - intros Hl. destruct (IH _ _ Hl) as (Heq & Hhead & Hchain & Hlast).
    split; [|split; [reflexivity|split]].
    + rewrite Heq. cbn [map concat]. rewrite Hpage. now rewrite <- app_assoc.
    + cbn [chained].
      destruct (fst (fetchPages fuel listStudies query filter total _ _))
        as [|next rest] eqn:Hreqs; [exact I|].
      split; [|exact Hchain]. cbn [head] in Hhead. rewrite Htok.
      congruence.
    + intros lastTok Hlt. apply Hlast.
      destruct (fst (fetchPages fuel listStudies query filter total _ _))
        as [|next rest] eqn:Hreqs; [discriminate Hhead|]. exact Hlt.
  - intros [= <-]. split; [|split; [reflexivity|split; [exact I|]]].
    + cbn [map concat]. now rewrite Hpage, app_nil_r.
    + intros lastTok [= <-]. rewrite Htok.
      apply andb_false_iff in Hmore as [Hm|Hm]; [now left|].
      right. apply Z.ltb_ge in Hm. exact Hm.
Qed.


(** X13: the studies [fetchAllStudies] returns are the pages it requested, in
    order and nothing else; its first page request carries no token and
    every later one the token the page before it announced; and after its
    last request either no further page was announced or at least the
    reported total has been collected. *)
Theorem fetch_returns_requested_pages
    (fuel : nat) (listStudies : ListParams -> Page Study) (maxStudies : Z)
    (query filter : option string) (l : list Study) :
  let r := fetchAllStudies fuel listStudies maxStudies query filter in
  snd r = FetchedAll l ->
  l = concat (map (pageAt listStudies query filter) (fst r))
  /\ (fst r = [] \/ head (fst r) = Some None)
  /\ chained listStudies query filter (fst r)
  /\ (forall lastTok,
        last (fst r) = Some lastTok ->
        truthy_str (tokenAfter listStudies query filter lastTok) = false
        \/ reportedTotal listStudies query filter <= Z.of_nat (length l)).
Proof.
  cbv zeta. unfold fetchAllStudies. fold (reportedTotal listStudies query filter).
  destruct (reportedTotal listStudies query filter >? maxStudies);
    [discriminate|].
  destruct (reportedTotal listStudies query filter =? 0).
  - intros [= <-]. cbn [fst]. split; [reflexivity|]. split; [now left|].
    split; [exact I | discriminate].
  - intros Hl. destruct (fetchPages_result _ _ _ _ _ _ _ _ Hl)
      as (Heq & Hhead & Hchain & Hlast).
    split; [exact Heq|]. split; [now right|]. split; assumption.
Qed.

(** The loop ends when the provider makes progress. *)
Lemma fetchPages_terminates fuel listStudies query filter total allStudies tok :
  makesProgress listStudies query filter ->
  (1 <= fuel)%nat ->
  (Z.to_nat (total - Z.of_nat (length allStudies)) <= fuel)%nat ->
  let r := fetchPages fuel listStudies query filter total allStudies tok in
  (exists l, snd r = FetchedAll l)
  /\ (length (fst r)
      <= Nat.max 1 (Z.to_nat (total - Z.of_nat (length allStudies))))%nat.
Proof.
  intros Hprog. revert allStudies tok.
  induction fuel as [|fuel IH]; intros allStudies tok Hone Hfuel; [lia|].
  cbv zeta. rewrite fetchPages_step. cbv zeta.
  destruct (truthy_str _ && _) eqn:Hmore; cbn [fst snd].
  - apply andb_true_iff in Hmore as [Htok Hlt]. apply Z.ltb_lt in Hlt.
    pose proof (Hprog tok Htok) as Hne.
    rewrite length_app in *.
    assert (Hpos : (1 <= length (pageAt listStudies query filter tok))%nat)
      by (destruct (pageAt listStudies query filter tok);
          [contradiction | simpl; lia]).
    destruct (IH (allStudies ++ pageAt listStudies query filter tok)
                (tokenAfter listStudies query filter tok))
      as [Hex Hlen]; [lia | rewrite length_app; lia |].
    cbv zeta in Hex, Hlen. split; [exact Hex|].
    cbn [length]. rewrite length_app in Hlen. lia.
  - split; [eauto | simpl; lia].
Qed.

(** X14: when the first request reports a total between 1 and the limit and
    the provider never announces a next page on an empty page,
    [fetchAllStudies] ends after at most as many page requests as the total
    it was told, given as much fuel. *)
Theorem fetch_ends_when_provider_progresses
    (fuel : nat) (listStudies : ListParams -> Page Study) (maxStudies : Z)
    (query filter : option string) :
  makesProgress listStudies query filter ->
  0 < reportedTotal listStudies query filter <= maxStudies ->
  (Z.to_nat (reportedTotal listStudies query filter) <= fuel)%nat ->
  let r := fetchAllStudies fuel listStudies maxStudies query filter in
  (exists l, snd r = FetchedAll l)
  /\ (1 <= length (fst r)
      <= Z.to_nat (reportedTotal listStudies query filter))%nat.
Proof.
  intros Hprog [Hpos Hmax] Hfuel. cbv zeta. unfold fetchAllStudies.
  fold (reportedTotal listStudies query filter).
  destruct (Z.gtb_spec (reportedTotal listStudies query filter) maxStudies);
    [lia|].
  destruct (Z.eqb_spec (reportedTotal listStudies query filter) 0); [lia|].
  destruct (fetchPages_terminates fuel listStudies query filter
              (reportedTotal listStudies query filter) [] None Hprog)
    as [Hex Hlen]; [lia | simpl; lia |].
  cbv zeta in Hex, Hlen. split; [exact Hex|]. simpl in Hlen.
  split; [|lia].
  destruct fuel as [|fuel']; [lia|]. rewrite fetchPages_step. cbv zeta.
  destruct (truthy_str _ && _); simpl; lia.
Qed.


Lemma fiveStudies_plain type :
  plainCategories type ToolScenarios.fiveStudies.
Proof. destruct type; repeat constructor. Qed.

Lemma pagedProvider_progress query filter :
  makesProgress ToolScenarios.pagedProvider query filter.
Proof.
  intros tok. unfold tokenAfter, pageAt, ToolScenarios.pagedProvider.
  cbn [pageToken pageParams].
  destruct (whenTruthy tok) as [t|]; [|discriminate].
  destruct (String.eqb t "p2"); cbn; [discriminate | intros [=]].
Qed.

Lemma analysis_counts_occurrences_witness :
  countOf (results (analyze ToolScenarios.fiveStudies CountByStatus))
    "RECRUITING" = 2
  /\ results (analyze ToolScenarios.fiveStudies CountByStatus) !! "" = None.
Proof.
  destruct (analysis_counts_occurrences ToolScenarios.fiveStudies CountByStatus
              (fiveStudies_plain CountByStatus))
    as (_ & _ & _ & Hcount & Hnone & _).
  split.
  - rewrite Hcount. reflexivity.
  - apply Hnone. cbn. intros H. repeat destruct H as [H|H]; discriminate || exact H.
Defined.

Lemma counts_against_total_witness :
  sumOfCounts (results (analyze ToolScenarios.fiveStudies CountByYear)) = 5
  /\ sumOfCounts (results (analyze ToolScenarios.fiveStudies CountByStatus)) = 4.
Proof.
  split.
  - exact (counts_against_total ToolScenarios.fiveStudies CountByYear
             (fiveStudies_plain CountByYear)).
  - destruct (counts_against_total ToolScenarios.fiveStudies CountByStatus
                (fiveStudies_plain CountByStatus)) as [H _].
    rewrite H. reflexivity.
Defined.

Lemma fetch_returns_requested_pages_witness :
  fetchAllStudies 5 ToolScenarios.pagedProvider 100 (Some "diabetes") (Some "")
  = ([None; Some "p2"; Some "p3"], FetchedAll ToolScenarios.fiveStudies)
  /\ ToolScenarios.fiveStudies
     = concat (map (pageAt ToolScenarios.pagedProvider (Some "diabetes")
                      (Some ""))
                 (fst (fetchAllStudies 5 ToolScenarios.pagedProvider 100
                         (Some "diabetes") (Some "")))).
Proof.
  split; [reflexivity|].
  apply (fetch_returns_requested_pages 5 ToolScenarios.pagedProvider 100
           (Some "diabetes") (Some "") ToolScenarios.fiveStudies).
  reflexivity.
Defined.

Lemma fetch_ends_when_provider_progresses_witness :
  (exists l,
     snd (fetchAllStudies 5 ToolScenarios.pagedProvider 100 (Some "diabetes")
            (Some "")) = FetchedAll l)
  /\ (1 <= length (fst (fetchAllStudies 5 ToolScenarios.pagedProvider 100
                          (Some "diabetes") (Some "")))
      <= Z.to_nat (reportedTotal ToolScenarios.pagedProvider (Some "diabetes")
                     (Some "")))%nat.
Proof.
  apply (fetch_ends_when_provider_progresses 5 ToolScenarios.pagedProvider 100
           (Some "diabetes") (Some ""));
    [apply pagedProvider_progress | cbn; lia | cbn; lia].
Defined.

(** A study whose status is the name of an inherited property is not
    counted as a number. *)
Example status_named_like_a_property :
  results (analyze [mkStudy (Some "constructor") None None None None]
             CountByStatus)
  = {[ "constructor" := NotNumber ]}.
Proof. reflexivity. Qed.

End TrendsSpec.

Module SearchStudiesSpec.
Import Js Provider SearchStudies JsFacts.

(** X16: the search tool never sends an empty string to the provider: each
    string parameter of the request is a non-empty string of the input, a
    string parameter left out was absent or empty in the input, and the
    page size and the field list are passed on as given (an empty field
    list included). The provider's page is returned as it is. *)
Theorem search_sends_no_empty_string
    (listStudies : ListParams -> Page Types.Study)
    (input : SearchStudiesInput) :
  let sent := paramsOf input in
  let kept (given sentField : option string) :=
    (forall s, sentField = Some s -> given = Some s /\ s <> "")
    /\ (sentField = None -> given = None \/ given = Some "") in
  kept (inQuery input) (query sent)
  /\ kept (inFilter input) (filter sent)
  /\ kept (inPageToken input) (pageToken sent)
  /\ kept (inSort input) (sort sent)
  /\ kept (inCountry input) (country sent)
  /\ kept (inState input) (state sent)
  /\ kept (inCity input) (city sent)
  /\ pageSize sent = inPageSize input
  /\ fields sent = inFields input
  /\ runTool listStudies input = listStudies sent.
Proof.
  cbv zeta.
  assert (H : forall given,
            (forall s, whenTruthy given = Some s -> given = Some s /\ s <> "")
            /\ (whenTruthy given = None -> given = None \/ given = Some "")).
  { intros given. split.
    - intros s. apply whenTruthy_Some.
    - apply whenTruthy_None. }
  unfold paramsOf. cbn [query filter pageToken sort country state city pageSize fields].
  repeat (split; [apply H|]). repeat split.
Qed.

End SearchStudiesSpec.

Module IndexConfigSpec.
Import Js IndexConfig JsFacts.

(** X17: [index.ts] and the gateway read the configuration alike. For the
    HTTP transport, sessions are enabled exactly when the gateway runs in
    stateful mode and are given its stale timeout; CORS is configured
    exactly when the gateway's origin guard is switched on; and the origin
    CORS allows is the wildcard or the one configured origin, which the
    guard lets through. Any other transport type gives the stdio
    transport. *)
Theorem transport_config_agrees_with_gateway (config : AppConfig) :
  let app := fst (Http.createHttpApp (gateway config)) in
  (mcpTransportType config <> "http" -> buildTransportConfig config = Stdio)
  /\ (mcpTransportType config = "http" ->
      exists options,
        buildTransportConfig config = HttpStream options
        /\ port options = mcpHttpPort config
        /\ endpoint options = mcpHttpEndpointPath config
        /\ (session options
            = Some (mkSessionConfig true
                      (Some (Http.mcpStatefulSessionStaleTimeoutMs
                               (gateway config))))
            <-> Http.isStatefulMode app = true)
        /\ (is_Some (cors options) <-> Http.dnsProtectionEnabled app = true)
        /\ (forall o,
              cors options = Some (mkCors o) ->
              o = "*"
              \/ (Http.mcpAllowedOrigins (gateway config) = Some [o]
                  /\ Http.originGuard app (Some o) = Http.Next))).
Proof.
  cbv zeta. unfold buildTransportConfig. split.
  - intros Hne. apply String.eqb_neq in Hne. now rewrite Hne.
  - intros ->. cbn [String.eqb Ascii.eqb Bool.eqb]. eexists. split; [reflexivity|].
    cbn [port endpoint session cors]. split; [reflexivity|].
    split; [reflexivity|]. split; [|split].
    + unfold Http.createHttpApp. cbn [fst Http.isStatefulMode].
      destruct (String.eqb_spec (Http.mcpSessionMode (gateway config))
                  "stateless") as [Heq|Hne].
      * rewrite Heq. cbn. split; discriminate.
      * destruct (String.eqb (Http.mcpSessionMode (gateway config)) "stateful");
          split; (reflexivity || discriminate).
    + rewrite OriginGuardSpec.createHttpApp_dns.
      destruct (Http.mcpAllowedOrigins (gateway config)) as [[|o os]|];
        split; (discriminate || eauto || now intros [? ?]).
    + intros o.
      destruct (Http.mcpAllowedOrigins (gateway config)) as [[|o1 os]|] eqn:HL;
        try discriminate.
      destruct os as [|o2 os]; cbn.
      * intros [= <-]. right. split; [reflexivity|].
        rewrite (OriginGuardSpec.originGuard_configured (gateway config) [o1])
          by (assumption || discriminate).
        destruct (whenTruthy (Some o1)) as [x|] eqn:Hw; [|reflexivity].
        apply whenTruthy_Some in Hw as [[= <-] _].
        unfold includes. cbn. now rewrite String.eqb_refl.
      * intros [= <-]. now left.
Qed.

Lemma transport_config_agrees_with_gateway_witness :
  buildTransportConfig (mkAppConfig "http" MoreScenarios.tenantConfig 3010 "/mcp")
  = HttpStream
      (mkHttpOptions 3010 "/mcp" "batch" (Some (mkCors "*"))
         (Some (mkSessionConfig true (Some 60000))))
  /\ buildTransportConfig
       (mkAppConfig "stdio" MoreScenarios.tenantConfig 3010 "/mcp") = Stdio.
Proof.
  split; [reflexivity|].
  apply (transport_config_agrees_with_gateway
           (mkAppConfig "stdio" MoreScenarios.tenantConfig 3010 "/mcp")).
  discriminate.
Defined.

End IndexConfigSpec.

Module FindEligibleMore.
Import Types FindEligible FindEligibleInputs Scenarios.

Lemma substring_whole (n : nat) (s : string) :
  (String.length s <= n)%nat -> String.substring 0 n s = s.
Proof.
  revert n. induction s as [|c s IH]; intros [|n] Hle; simpl in *;
    try reflexivity; try lia.
  f_equal. apply IH. lia.
Qed.

Lemma substring_prefix_length (n : nat) (s : string) :
  (String.length (String.substring 0 n s) <= n)%nat
  /\ String.prefix (String.substring 0 n s) s = true.
Proof.
  revert n. induction s as [|c s IH]; intros n.
  - destruct n; simpl; split; (lia || reflexivity).
  - destruct n as [|n]; simpl; [split; [lia | reflexivity]|].
    destruct (IH n) as [Hlen Hpre]. split; [lia|].
    destruct (Ascii.ascii_dec c c) as [_|Hne]; [exact Hpre | now destruct Hne].
Qed.

Section Eligibility.

Context {utils : Utils}.

Lemma eligibleStudy_nctId input study e :
  eligibleStudy input study = Some e -> eligibleNctId e = studyNctId study.
Proof.
  unfold eligibleStudy.
  destruct (protocolSection study ?. eligibilityModule); [|discriminate].
  destruct (eligible (checkAgeEligibility _ _ _)); [|discriminate].
  destruct (eligible (checkSexEligibility _ _)); [|discriminate].
  destruct (eligible (checkHealthyVolunteerEligibility _ _)); [|discriminate].
  cbn [negb].
  destruct (extractRelevantLocations study (location input)); [discriminate|].
  cbn [length Nat.eqb]. now intros [= <-].
Qed.

(** X18: the record built for a study that passes is built from the
    study's eligibility module and the three checks the loop ran on it: the
    age, the sex and the healthy-volunteer check all passed; the match
    reasons are their three reasons, in this order; the score is computed
    from these three checks, in this order; the locations are the study's
    relevant locations, of which there is at least one; the id is the
    study's NCT id or [Unknown]; and the criteria snippet is there exactly
    when the module has criteria; for criteria in ASCII it is a prefix of
    them of at most 300 characters, and all of them when they are no longer
    than that. *)
Theorem eligible_record_shape
    (input : FindEligibleStudiesInput) (study : Study) (e : EligibleStudy) :
  eligibleStudy input study = Some e ->
  exists eligibility,
    protocolSection study ?. eligibilityModule = Some eligibility
    /\ let ageCheck :=
         checkAgeEligibility (minimumAge eligibility) (maximumAge eligibility)
           (age input) in
       let sexCheck :=
         checkSexEligibility (sex eligibility) (patientSex input) in
       let hvCheck :=
         checkHealthyVolunteerEligibility (healthyVolunteers eligibility)
           (healthyVolunteer input) in
       eligible ageCheck = true
       /\ eligible sexCheck = true
       /\ eligible hvCheck = true
       /\ matchReasons e = [reason ageCheck; reason sexCheck; reason hvCheck]
       /\ matchScore e = calculateMatchScore [ageCheck; sexCheck; hvCheck]
       /\ locations e = extractRelevantLocations study (location input)
       /\ locations e <> []
       /\ eligibleNctId e = studyNctId study
       /\ (criteriaSnippet (eligibilityHighlights e) = None
           <-> eligibilityCriteria eligibility = None)
       /\ (forall criteria snippet,
             eligibilityCriteria eligibility = Some criteria ->
             criteriaSnippet (eligibilityHighlights e) = Some snippet ->
             asciiOnly criteria = true ->
             (String.length snippet <= 300)%nat
             /\ String.prefix snippet criteria = true
             /\ ((String.length criteria <= 300)%nat -> snippet = criteria)).
Proof.
  unfold eligibleStudy.
  destruct (protocolSection study ?. eligibilityModule) as [el|] eqn:Hel;
    [|discriminate].
  destruct (eligible (checkAgeEligibility _ _ _)) eqn:Ha; [|discriminate].
  destruct (eligible (checkSexEligibility _ _)) eqn:Hs; [|discriminate].
  destruct (eligible (checkHealthyVolunteerEligibility _ _)) eqn:Hh;
    [|discriminate].
  cbn [negb].
  destruct (extractRelevantLocations study (location input)) as [|l ls] eqn:Hl;
    [discriminate|].
  cbn [length Nat.eqb]. intros [= <-].
  exists el. split; [reflexivity|]. cbv zeta.
  cbn [matchReasons matchScore locations eligibleNctId eligibilityHighlights
       criteriaSnippet].
  repeat (split; [first [assumption | reflexivity | discriminate]|]).
  split; [now destruct (eligibilityCriteria el)|].
  intros criteria snippet -> [= <-] _.
  destruct (substring_prefix_length 300 criteria) as [Hlen Hpre].
  split; [exact Hlen|]. split; [exact Hpre|].
  apply substring_whole.
Qed.

(** X19: the eligibility filter keeps the order of the provider's page and
    neither repeats nor invents a study: the NCT ids of what it returns are
    a subsequence of the NCT ids of the page; in particular an empty page
    gives an empty result. *)
Theorem filter_keeps_page_order
    (studies : list Study) (input : FindEligibleStudiesInput) :
  map eligibleNctId (filterByEligibility studies input)
    `sublist_of` map studyNctId studies
  /\ (length (filterByEligibility studies input) <= length studies)%nat
  /\ filterByEligibility [] input = [].
Proof.
  unfold filterByEligibility. split; [|split; [|reflexivity]].
  - induction studies as [|study studies IH]; [constructor|].
    change (omap (eligibleStudy input) (study :: studies))
      with (match eligibleStudy input study with
            | Some y => y :: omap (eligibleStudy input) studies
            | None => omap (eligibleStudy input) studies
            end).
    destruct (eligibleStudy input study) as [e|] eqn:He; cbn [map].
    + rewrite (eligibleStudy_nctId input study e He).
      now apply sublist_skip.
    + now apply sublist_cons.
  - induction studies as [|study studies IH]; [reflexivity|].
    change (omap (eligibleStudy input) (study :: studies))
      with (match eligibleStudy input study with
            | Some y => y :: omap (eligibleStudy input) studies
            | None => omap (eligibleStudy input) studies
            end).
    destruct (eligibleStudy input study); simpl in *; lia.
Qed.

(** X20: asking for more results only extends the answer: for the same
    patient and the same provider, the studies returned for a smaller
    [maxResults] are the first ones of those returned for a larger one, and
    [totalMatches] and the search criteria do not depend on [maxResults]. *)
Theorem more_results_extend_the_answer
    (listStudies : SearchParams -> PagedStudies)
    (input : FindEligibleStudiesInput) (m : Z) :
  0 <= maxResults input <= m ->
  let out := runTool listStudies input in
  let out' := runTool listStudies (withMaxResults m input) in
  eligibleStudies out `prefix_of` eligibleStudies out'
  /\ totalMatches out' = totalMatches out
  /\ searchCriteria out' = searchCriteria out.
Proof.
  intros [H0 Hm]. cbv zeta. unfold runTool.
  cbn [eligibleStudies totalMatches searchCriteria].
  change (searchParamsOf (withMaxResults m input)) with (searchParamsOf input).
  change (filterByEligibility
            (orElse (pagedStudies (listStudies (searchParamsOf input))) [])
            (withMaxResults m input))
    with (filterByEligibility
            (orElse (pagedStudies (listStudies (searchParamsOf input))) [])
            input).
  change (maxResults (withMaxResults m input)) with m.
  split; [|split; reflexivity].
  rewrite !FindEligibleSpec.slice0_take by lia.
  set (ranked := rankStudies _).
  replace (take (Z.to_nat (maxResults input)) ranked)
    with (take (Z.to_nat (maxResults input)) (take (Z.to_nat m) ranked)).
  - apply prefix_take.
  - rewrite take_take. f_equal. lia.
Qed.

(** X21: when ranking reorders its input and the number of studies that pass
    the filter does not exceed [maxResults], nothing is cut off: the tool
    returns exactly the studies that pass, and [totalMatches] is the number
    returned. *)
Theorem everything_returned_when_room
    (listStudies : SearchParams -> PagedStudies)
    (input : FindEligibleStudiesInput) :
  (forall l, rankStudies l ≡ₚ l) ->
  let out := runTool listStudies input in
  let page := orElse (pagedStudies (listStudies (searchParamsOf input))) [] in
  0 <= totalMatches out <= maxResults input ->
  eligibleStudies out ≡ₚ filterByEligibility page input
  /\ Z.of_nat (length (eligibleStudies out)) = totalMatches out.
Proof.
  intros Hrank. cbv zeta. unfold runTool.
  cbn [eligibleStudies totalMatches]. intros [H0 Hroom].
  rewrite FindEligibleSpec.slice0_take by lia.
  rewrite take_ge by (rewrite Hrank; lia).
  split; [apply Hrank | now rewrite Hrank].
Qed.

End Eligibility.

Lemma eligible_record_shape_witness :
  match eligibleStudy (utils := sampleUtils) sampleEligibleInput
          (openStudy "NCT00000001") with
  | Some e => length (matchReasons e) = 3%nat /\ eligibleNctId e = "NCT00000001"
  | None => False
  end.
Proof.
  destruct (eligibleStudy (utils := sampleUtils) sampleEligibleInput
              (openStudy "NCT00000001")) as [e|] eqn:He.
  - destruct (eligible_record_shape (utils := sampleUtils) sampleEligibleInput
                (openStudy "NCT00000001") e He)
      as (el & _ & _ & _ & _ & Hreasons & _ & _ & _ & Hid & _).
    split; [now rewrite Hreasons | exact Hid].
  - vm_compute in He. discriminate He.
Defined.

Lemma more_results_extend_the_answer_witness :
  eligibleStudies
    (runTool (utils := sampleUtils) sampleListStudies sampleEligibleInput)
    `prefix_of`
  eligibleStudies
    (runTool (utils := sampleUtils) sampleListStudies
       (withMaxResults 10 sampleEligibleInput)).
Proof.
  apply (more_results_extend_the_answer (utils := sampleUtils)
           sampleListStudies sampleEligibleInput 10).
  cbn. lia.
Defined.

Lemma everything_returned_when_room_witness :
  Z.of_nat
    (length
       (eligibleStudies
          (runTool (utils := sampleUtils) sampleListStudies
             (withMaxResults 10 sampleEligibleInput))))
  = 2.
Proof.
  destruct (everything_returned_when_room (utils := sampleUtils)
              sampleListStudies (withMaxResults 10 sampleEligibleInput))
    as [_ H].
  - intros l. apply merge_sort_Permutation.
  - vm_compute. split; discriminate.
  - rewrite H. reflexivity.
Defined.

End FindEligibleMore.

Module GetStudyMore.
Import Types GetStudy Scenarios.

Lemma errorOf_all_failed (calls : list (string * FetchOutcome)) :
  Forall (fun c => failed (snd c) = true) calls ->
  map errorNctId (omap errorOf calls) = map fst calls.
Proof.
  induction 1 as [|[id o] calls Hf _ IH]; [reflexivity|].
  rewrite GetStudySpec.omap_cons. unfold errorOf at 1.
  destruct o; cbn [fst snd failed] in *; try discriminate;
    cbn [map errorNctId fst]; now rewrite IH.
Qed.

(** X22: when the tool raises, the error data holds exactly one entry per
    requested id (the requested ids, in the order in which the fetches
    settled), and the message is the fixed prefix followed by the entries,
    each as [id: text], joined by a semicolon and a space. *)
Theorem raised_error_lists_every_id
    (fetchStudy : nat -> string -> FetchOutcome)
    (settleOrder : list (string * FetchOutcome) -> list (string * FetchOutcome))
    (input : GetStudyInput) (message : string) (data : list FetchError) :
  (forall l, settleOrder l ≡ₚ l) ->
  runTool fetchStudy settleOrder input = Raised message data ->
  map errorNctId data
    ≡ₚ match nctIds input with inl id => [id] | inr ids => ids end
  /\ map errorNctId data
     = map fst (settleOrder (callsOf fetchStudy input))
  /\ data <> []
  /\ message
     = "Failed to fetch any studies. Errors: "
       +:+ join "; " (map (fun e => errorNctId e +:+ ": " +:+ error e) data).
Proof.
  intros Hperm. rewrite GetStudySpec.runTool_unfold. cbv zeta.
  set (settled := settleOrder (callsOf fetchStudy input)).
  destruct (omap (fetchedOf (summaryOnly input)) settled) as [|s ss] eqn:Hss;
    cbn [length Nat.eqb andb]; [|discriminate].
  destruct (omap errorOf settled) as [|e es] eqn:Hes;
    cbn [length Nat.ltb Nat.leb]; [discriminate|].
  intros [= <- <-].
  apply (GetStudySpec.no_study_iff_all_failed (summaryOnly input)) in Hss.
  pose proof (errorOf_all_failed settled Hss) as Hids. rewrite Hes in Hids.
  split; [|split; [exact Hids | split; [discriminate | reflexivity]]].
  rewrite Hids. subst settled. rewrite Hperm.
  now rewrite GetStudySpec.callsOf_ids.
Qed.

Lemma raised_error_lists_every_id_witness :
  runTool (fun _ _ => FailedOther) (@rev _)
    (mkInput (inr ["NCT00000007"; "NCT00000008"]) false)
  = Raised
      "Failed to fetch any studies. Errors: NCT00000008: An unexpected error occurred; NCT00000007: An unexpected error occurred"
      [mkError "NCT00000008" "An unexpected error occurred";
       mkError "NCT00000007" "An unexpected error occurred"]
  /\ map errorNctId
       [mkError "NCT00000008" "An unexpected error occurred";
        mkError "NCT00000007" "An unexpected error occurred"]
     ≡ₚ ["NCT00000007"; "NCT00000008"].
Proof.
  split; [reflexivity|].
  apply (raised_error_lists_every_id (fun _ _ => FailedOther) (@rev _)
           (mkInput (inr ["NCT00000007"; "NCT00000008"]) false)
           "Failed to fetch any studies. Errors: NCT00000008: An unexpected error occurred; NCT00000007: An unexpected error occurred").
  - intros l. symmetry. apply Permutation_rev.
  - reflexivity.
Defined.

End GetStudyMore.
